(** * Real-time chat: the Socket.IO handlers of [socketHandlers.js]

    A shallow embedding of the message routing and presence layer: the
    authentication middleware, the [userSockets] registry, the
    [connection] and [disconnect] handlers, the two send handlers and the
    two typing relays, followed by the parts of the browser client that
    produce and consume their events, and by the properties proved over
    that embedding.

    Conventions of the embedding.
    - A handler is a function from the world it starts in to the world it
      leaves, the list of calls it made on the outside (emits, queries,
      console output) and its completion.
    - Every [await db.query(...)] is a suspension point: before the query
      is run, whatever other connections and the REST routes did in the
      meantime is applied to the world (the head of [pending]).
    - The listeners of a socket are attached at the end of its
      [connection] handler, after the [await] of that handler: the world
      keeps the sockets that have them apart from those that do not yet.
    - A value that reaches a handler from a client is a JSON value: a
      primitive, or an object or array kept by its text; numbers are
      integers.
    - Console output is kept by the fixed text of the message.
    - The store ([config/db]) and Socket.IO are not part of the file that
      is embedded: the store is a set of tables on which the six SQL
      statements of the handlers are run, and Socket.IO is the list of the
      sockets that are connected. *)

From Stdlib Require Import ZArith String List Bool Lia.
From stdpp Require Import gmap strings list.
Import ListNotations.

Local Open Scope string_scope.
Local Open Scope Z_scope.
Local Open Scope list_scope.
Local Open Scope stdpp_scope.

(** ** JavaScript values *)

Inductive JsVal : Type :=
| JUndefined
| JNull
| JBool (b : bool)
| JNum (n : Z)
| JStr (s : string)
| JObj (json : string).

(** [!v] is [negb (truthy v)]; an object or an array is truthy. *)
Definition truthy (v : JsVal) : bool :=
  match v with
  | JUndefined | JNull => false
  | JBool b => b
  | JNum n => negb (Z.eqb n 0)
  | JStr s => negb (String.eqb s "")
  | JObj _ => true
  end.

(** ** Sockets and the registry *)

(** What the handlers read from [socket]: its [id], and the [userId] and
    [username] the authentication middleware copied from the token. *)
Record Socket : Type := mkSocket {
  socket_id : string;
  socket_userId : Z;
  socket_username : string
}.

Global Instance Socket_eq_dec : EqDecision Socket.
Proof. solve_decision. Defined.

(** [if (socketId)] on the result of [userSockets.get]: [undefined] and the
    empty string are falsy. *)
Definition truthy_sid (o : option string) : bool :=
  match o with
  | Some h => negb (String.eqb h "")
  | None => false
  end.

(** ** The store *)

(** Modelled from the spec: the module behind [db.query] ([config/db]) and
    the schema are not among the sources.  The spec gives the store as
    five operations, each answering or failing: insert a direct message
    and insert a group message (both answer the new id), is-member, the
    member ids of a group, set the online status.  The tables below hold
    the columns named by the SQL text of the handlers. *)
Record UserRow : Type := mkUserRow {
  u_user_id : Z;
  u_is_online : bool;
  u_last_seen : Z
}.

Record DirectRow : Type := mkDirectRow {
  dm_message_id : Z;
  dm_sender_id : Z;
  dm_receiver_id : JsVal;
  dm_message_text : JsVal
}.

Record GroupRow : Type := mkGroupRow {
  gm_message_id : Z;
  gm_group_id : JsVal;
  gm_sender_id : Z;
  gm_message_text : JsVal
}.

Record MemberRow : Type := mkMemberRow {
  membership_id : Z;
  group_id : Z;
  user_id : Z
}.

Record Db : Type := mkDb {
  Users : list UserRow;
  DirectMessages : list DirectRow;
  dm_auto_increment : Z;
  GroupMessages : list GroupRow;
  gm_auto_increment : Z;
  GroupMembers : list MemberRow;
  (** the promise of the next query rejects *)
  unavailable : bool
}.

(** The six statements the handlers send, with their parameters. *)
Inductive Sql : Type :=
| UpdateOnline (online : bool) (userId : Z)
| InsertDirect (senderId : Z) (receiverId messageText : JsVal)
| SelectMembership (groupId : JsVal) (userId : Z)
| InsertGroup (groupId : JsVal) (senderId : Z) (messageText : JsVal)
| SelectMembers (groupId : JsVal)
| SelectMembersExcept (groupId : JsVal) (userId : Z).

(** First component of what [db.query] resolves to. *)
Inductive SqlResult : Type :=
| ResUpdate
| ResInsert (insertId : Z)
| ResRows (ids : list Z).

Definition insertId (r : SqlResult) : Z :=
  match r with ResInsert i => i | _ => 0 end.

Definition rows (r : SqlResult) : list Z :=
  match r with ResRows l => l | _ => [] end.

Definition is_insert (q : Sql) : bool :=
  match q with
  | InsertDirect _ _ _ | InsertGroup _ _ _ => true
  | _ => false
  end.

(** ** Calls on the outside *)

Inductive Payload : Type :=
| PError (message : string)
| PDirect (messageId senderId : Z) (senderUsername : string)
          (receiverId messageText : JsVal) (sentAt : Z) (isRead : bool)
| PGroup (messageId : Z) (groupId : JsVal) (senderId : Z)
         (senderUsername : string) (messageText : JsVal) (sentAt : Z)
| PStatus (userId : Z) (username : string) (isOnline : bool)
| PTypingDirect (userId : Z) (username : string) (isTyping : JsVal)
| PTypingGroup (groupId : JsVal) (userId : Z) (username : string)
               (isTyping : JsVal).

Inductive Action : Type :=
| SocketEmit (sid : string) (ev : string) (p : Payload)
| IoToEmit (room : string) (ev : string) (p : Payload)
| IoEmit (ev : string) (p : Payload)
| DbQuery (q : Sql) (r : option SqlResult)
| ConsoleLog (msg : string)
| ConsoleError (msg : string).

Global Instance JsVal_eq_dec : EqDecision JsVal.
Proof. solve_decision. Defined.
Global Instance Sql_eq_dec : EqDecision Sql.
Proof. solve_decision. Defined.
Global Instance SqlResult_eq_dec : EqDecision SqlResult.
Proof. solve_decision. Defined.
Global Instance Payload_eq_dec : EqDecision Payload.
Proof. solve_decision. Defined.
Global Instance Action_eq_dec : EqDecision Action.
Proof. solve_decision. Defined.

(** Socket.IO: who is handed an emitted event, given the sockets connected
    when the call is made.  [socket.emit] reaches that socket, [io.to(id)]
    the sockets in room [id] (each socket is alone in the room named by its
    own id), [io.emit] every connected socket. *)
Definition recipients (conns : list Socket) (a : Action) : list string :=
  match a with
  | SocketEmit sid _ _ => [sid]
  | IoToEmit room _ _ =>
      List.filter (fun h => bool_decide (h = room)) (map socket_id conns)
  | IoEmit _ _ => map socket_id conns
  | _ => []
  end.

Definition is_emit (a : Action) : bool :=
  match a with
  | SocketEmit _ _ _ | IoToEmit _ _ _ | IoEmit _ _ => true
  | _ => false
  end.

(** [io.to(..).emit] and [io.emit]: events sent to somebody else than the
    socket the handler runs for. *)
Definition is_fanout (a : Action) : bool :=
  match a with
  | IoToEmit _ _ _ | IoEmit _ _ => true
  | _ => false
  end.

Definition persisted (a : Action) : bool :=
  match a with
  | DbQuery q (Some _) => is_insert q
  | _ => false
  end.

Definition rejected (a : Action) : bool :=
  match a with
  | DbQuery _ None => true
  | _ => false
  end.

Definition emits (tr : list Action) : list Action := List.filter is_emit tr.

(** ** The world *)

(** What happens elsewhere while a handler is suspended: a connection
    comes in and its [connection] handler runs up to its [await]
    ([EnvConnect]); such a handler gets past its [await] and attaches the
    listeners of the socket ([EnvListen]); a connection closes
    ([EnvDisconnect]); the store changes; time passes. *)
Inductive EnvOp : Type :=
| EnvConnect (s : Socket)
| EnvDisconnect (s : Socket)
| EnvListen (s : Socket)
| EnvDb (d : Db)
| EnvTick (dt : Z).

(** [connected]: the sockets Socket.IO holds open.  [listening]: those of
    them to which the [connection] handler has attached its listeners
    (the [socket.on] calls come after the [await] of the handler).
    [opening]: those whose [connection] handler, started elsewhere, has
    not got past its [await] yet. *)
Record World : Type := mkWorld {
  userSockets : gmap Z string;
  connected : list Socket;
  listening : list Socket;
  opening : list Socket;
  db : Db;
  clock : Z;
  pending : list (list EnvOp)
}.

Definition with_userSockets (m : gmap Z string) (w : World) : World :=
  mkWorld m (connected w) (listening w) (opening w) (db w) (clock w)
          (pending w).
Definition with_connected (c : list Socket) (w : World) : World :=
  mkWorld (userSockets w) c (listening w) (opening w) (db w) (clock w)
          (pending w).
Definition with_listening (l : list Socket) (w : World) : World :=
  mkWorld (userSockets w) (connected w) l (opening w) (db w) (clock w)
          (pending w).
Definition with_opening (o : list Socket) (w : World) : World :=
  mkWorld (userSockets w) (connected w) (listening w) o (db w) (clock w)
          (pending w).
Definition with_db (d : Db) (w : World) : World :=
  mkWorld (userSockets w) (connected w) (listening w) (opening w) d (clock w)
          (pending w).
Definition with_clock (t : Z) (w : World) : World :=
  mkWorld (userSockets w) (connected w) (listening w) (opening w) (db w) t
          (pending w).
Definition with_pending (p : list (list EnvOp)) (w : World) : World :=
  mkWorld (userSockets w) (connected w) (listening w) (opening w) (db w)
          (clock w) p.

(** [userSockets.set(socket.userId, socket.id)] *)
Definition register (s : Socket) (w : World) : World :=
  with_userSockets (<[socket_userId s := socket_id s]> (userSockets w)) w.

(** [userSockets.delete(socket.userId)] *)
Definition deregister (s : Socket) (w : World) : World :=
  with_userSockets (delete (socket_userId s) (userSockets w)) w.

(** [userSockets.get(key)]: the keys of the map are the numbers
    [socket.userId], and [Map] compares keys without conversion. *)
Definition lookup_socket (key : JsVal) (w : World) : option string :=
  match key with
  | JNum n => userSockets w !! n
  | _ => None
  end.

(** Socket.IO hands out ids that are not empty and that it has not handed
    out before: not the id of a socket that is connected, and not an id
    the registry still holds. *)
Definition admissible (s : Socket) (w : World) : bool :=
  negb (String.eqb (socket_id s) "")
  && negb (bool_decide (socket_id s ∈ map socket_id (connected w)))
  && negb (bool_decide
             (socket_id s ∈ map snd (map_to_list (userSockets w)))).

(** Socket.IO adds the socket to the connected ones before it fires
    [connection], and removes it before it fires [disconnect]. *)
Definition accept_socket (s : Socket) (w : World) : World :=
  with_connected (s :: connected w) w.

Definition drop_socket (s : Socket) (w : World) : World :=
  with_connected
    (List.filter (fun c => negb (bool_decide (c = s))) (connected w))
    (with_listening
       (List.filter (fun c => negb (bool_decide (c = s))) (listening w))
       (with_opening
          (List.filter (fun c => negb (bool_decide (c = s))) (opening w))
          w)).

(** The five [socket.on] calls that end the [connection] handler.  On a
    socket that has closed while the handler was waiting they attach
    listeners that are never called. *)
Definition listen (s : Socket) (w : World) : World :=
  if bool_decide (s ∈ connected w)
  then with_listening (s :: listening w) w
  else w.

(** A [connection] handler starts elsewhere. *)
Definition open_socket (s : Socket) (w : World) : World :=
  with_opening (s :: opening w) w.

(** It has got past its [await]. *)
Definition opened (s : Socket) (w : World) : World :=
  with_opening
    (List.filter (fun c => negb (bool_decide (c = s))) (opening w)) w.

(** A connection that closes leaves the connected sockets; its entry in
    the registry is deleted by its [disconnect] listener, if the
    [connection] handler has attached it by then. *)
Definition env_op (o : EnvOp) (w : World) : World :=
  match o with
  | EnvConnect s =>
      if admissible s w
      then register s (open_socket s (accept_socket s w)) else w
  | EnvDisconnect s =>
      if bool_decide (s ∈ connected w)
      then
        if bool_decide (s ∈ listening w)
        then deregister s (drop_socket s w)
        else drop_socket s w
      else w
  | EnvListen s =>
      if bool_decide (s ∈ opening w) then listen s (opened s w) else w
  | EnvDb d => with_db d w
  | EnvTick dt => with_clock (clock w + Z.abs dt) w
  end.

Definition env_batch (ops : list EnvOp) (w : World) : World :=
  fold_left (fun w o => env_op o w) ops w.

(** The world a suspended handler wakes up in. *)
Definition after_await (w : World) : World :=
  match pending w with
  | [] => w
  | ops :: rest => env_batch ops (with_pending rest w)
  end.

(** ** Handlers as state, output and exceptions *)

Inductive Res (A : Type) : Type :=
| Ok (a : A)
| Throw (e : string).
Arguments Ok {A} a.
Arguments Throw {A} e.

Definition Handler (A : Type) : Type :=
  World -> World * list Action * Res A.

Global Instance Handler_ret : MRet Handler :=
  fun A a w => (w, [], Ok a).

Global Instance Handler_bind : MBind Handler :=
  fun A B k m w =>
    match m w with
    | (w1, t1, Ok a) =>
        match k a w1 with
        | (w2, t2, r) => (w2, t1 ++ t2, r)
        end
    | (w1, t1, Throw e) => (w1, t1, Throw e)
    end.

Definition throw {A} (e : string) : Handler A :=
  fun w => (w, [], Throw e).

(** [try { body } catch (error) { handler }] *)
Definition try_catch {A} (body : Handler A) (handler : string -> Handler A)
  : Handler A :=
  fun w =>
    match body w with
    | (w1, t1, Ok a) => (w1, t1, Ok a)
    | (w1, t1, Throw e) =>
        match handler e w1 with
        | (w2, t2, r) => (w2, t1 ++ t2, r)
        end
    end.

(** The world a handler leaves, the calls it made, how it ended. *)
Definition final {A} (x : World * list Action * Res A) : World := fst (fst x).
Definition trace {A} (x : World * list Action * Res A) : list Action :=
  snd (fst x).
Definition result {A} (x : World * list Action * Res A) : Res A := snd x.

Definition call (a : Action) : Handler unit :=
  fun w => (w, [a], Ok tt).

Definition socket_emit (socket : Socket) (ev : string) (p : Payload)
  : Handler unit :=
  call (SocketEmit (socket_id socket) ev p).

(** [io.to(socketId).emit(ev, p)]; the handlers reach it with a truthy
    [socketId] only, and [undefined] is the room of no socket. *)
Definition io_to_emit (socketId : option string) (ev : string) (p : Payload)
  : Handler unit :=
  match socketId with
  | Some room => call (IoToEmit room ev p)
  | None => mret tt
  end.

Definition io_emit (ev : string) (p : Payload) : Handler unit :=
  call (IoEmit ev p).

Definition console_log (msg : string) : Handler unit := call (ConsoleLog msg).
Definition console_error (msg : string) : Handler unit :=
  call (ConsoleError msg).

Definition modify (f : World -> World) : Handler unit :=
  fun w => (f w, [], Ok tt).

Definition userSockets_get (key : JsVal) : Handler (option string) :=
  fun w => (w, [], Ok (lookup_socket key w)).

(** [new Date()] *)
Definition date_now : Handler Z :=
  fun w => (w, [], Ok (clock w)).

(** [members.forEach(f)] *)
Fixpoint forEach {A} (l : list A) (f : A -> Handler unit) : Handler unit :=
  match l with
  | [] => mret tt
  | x :: l' => f x ;; forEach l' f
  end.

(** The payload object of an inbound event: the properties the handlers
    read from it; a property the client left out reads [undefined]. *)
Record Data : Type := mkData {
  receiverId : JsVal;
  groupId : JsVal;
  messageText : JsVal;
  isTyping : JsVal
}.

(** [const { .. } = data] throws on [null] and [undefined] ([None]). *)
Definition destructure (data : option Data) : Handler Data :=
  match data with
  | Some d => mret d
  | None => throw "TypeError"
  end.

Section Handlers.

(** How the store compares an integer column with a parameter that came
    from a client ([group_id = ?]).  The store is not among the sources;
    its conversions are left open. *)
Variable sql_eq : Z -> JsVal -> bool.

(** The rows of a group. *)
Definition member_rows (g : JsVal) (d : Db) : list MemberRow :=
  List.filter (fun r => sql_eq (group_id r) g) (GroupMembers d).

(** [SELECT user_id FROM GroupMembers WHERE group_id = ?] *)
Definition select_members (g : JsVal) (d : Db) : list Z :=
  map user_id (member_rows g d).

(** [SELECT membership_id FROM GroupMembers
     WHERE group_id = ? AND user_id = ?] *)
Definition select_membership (g : JsVal) (u : Z) (d : Db) : list Z :=
  map membership_id
    (List.filter (fun r => Z.eqb (user_id r) u) (member_rows g d)).

(** [SELECT user_id FROM GroupMembers
     WHERE group_id = ? AND user_id != ?] *)
Definition select_members_except (g : JsVal) (u : Z) (d : Db) : list Z :=
  map user_id
    (List.filter (fun r => negb (Z.eqb (user_id r) u)) (member_rows g d)).

Definition update_online (online : bool) (u now : Z) (d : Db) : Db :=
  mkDb (map (fun r => if Z.eqb (u_user_id r) u
                      then mkUserRow (u_user_id r) online now else r)
            (Users d))
       (DirectMessages d) (dm_auto_increment d)
       (GroupMessages d) (gm_auto_increment d)
       (GroupMembers d) (unavailable d).

Definition insert_direct (s : Z) (r t : JsVal) (d : Db) : Db :=
  mkDb (Users d)
       (DirectMessages d ++ [mkDirectRow (dm_auto_increment d) s r t])
       (dm_auto_increment d + 1)
       (GroupMessages d) (gm_auto_increment d)
       (GroupMembers d) (unavailable d).

Definition insert_group (g : JsVal) (s : Z) (t : JsVal) (d : Db) : Db :=
  mkDb (Users d)
       (DirectMessages d) (dm_auto_increment d)
       (GroupMessages d ++ [mkGroupRow (gm_auto_increment d) g s t])
       (gm_auto_increment d + 1)
       (GroupMembers d) (unavailable d).

(** Modelled from the spec: what the store answers to each statement, and
    what it becomes; an [INSERT] answers the id it gave the row. *)
Definition run_sql (now : Z) (q : Sql) (d : Db) : SqlResult * Db :=
  match q with
  | UpdateOnline online u => (ResUpdate, update_online online u now d)
  | InsertDirect s r t =>
      (ResInsert (dm_auto_increment d), insert_direct s r t d)
  | SelectMembership g u => (ResRows (select_membership g u d), d)
  | InsertGroup g s t =>
      (ResInsert (gm_auto_increment d), insert_group g s t d)
  | SelectMembers g => (ResRows (select_members g d), d)
  | SelectMembersExcept g u => (ResRows (select_members_except g u d), d)
  end.

(** [await db.query(q)]: the handler is suspended, wakes up in
    [after_await w], and the promise resolves or rejects. *)
Definition db_query (q : Sql) : Handler SqlResult :=
  fun w =>
    let w1 := after_await w in
    if unavailable (db w1)
    then (w1, [DbQuery q None], Throw "db.query")
    else
      let '(r, d) := run_sql (clock w1) q (db w1) in
      (with_db d w1, [DbQuery q (Some r)], Ok r).

(** [io.on('connection', async (socket) => ...)] *)
Definition on_connection (socket : Socket) : Handler unit :=
  console_log "User connected" ;;
  modify (register socket) ;;
  try_catch
    (db_query (UpdateOnline true (socket_userId socket)) ;; mret tt)
    (fun _ => console_error "Error updating online status:") ;;
  io_emit "user_status_change"
    (PStatus (socket_userId socket) (socket_username socket) true) ;;
  modify (listen socket).

(** [socket.on('send_direct_message', async (data) => ...)] *)
Definition on_send_direct_message (socket : Socket) (data : option Data)
  : Handler unit :=
  try_catch
    (d ← destructure data;
     let senderId := socket_userId socket in
     if negb (truthy (receiverId d)) || negb (truthy (messageText d))
     then socket_emit socket "error" (PError "Invalid message data")
     else
       result ← db_query (InsertDirect senderId (receiverId d) (messageText d));
       let messageId := insertId result in
       sentAt ← date_now;
       let messageData :=
         PDirect messageId senderId (socket_username socket)
                 (receiverId d) (messageText d) sentAt false in
       receiverSocketId ← userSockets_get (receiverId d);
       (if truthy_sid receiverSocketId
        then io_to_emit receiverSocketId "receive_direct_message" messageData
        else mret tt) ;;
       socket_emit socket "message_sent" messageData ;;
       console_log "Direct message")
    (fun _ =>
       console_error "Error sending direct message:" ;;
       socket_emit socket "error" (PError "Failed to send message")).

(** [socket.on('send_group_message', async (data) => ...)] *)
Definition on_send_group_message (socket : Socket) (data : option Data)
  : Handler unit :=
  try_catch
    (d ← destructure data;
     let senderId := socket_userId socket in
     if negb (truthy (groupId d)) || negb (truthy (messageText d))
     then socket_emit socket "error" (PError "Invalid message data")
     else
       membership ← db_query (SelectMembership (groupId d) senderId);
       if Nat.eqb (length (rows membership)) 0
       then socket_emit socket "error"
              (PError "You are not a member of this group")
       else
         result ← db_query (InsertGroup (groupId d) senderId (messageText d));
         let messageId := insertId result in
         sentAt ← date_now;
         let messageData :=
           PGroup messageId (groupId d) senderId (socket_username socket)
                  (messageText d) sentAt in
         members ← db_query (SelectMembers (groupId d));
         forEach (rows members) (fun member_user_id =>
           memberSocketId ← userSockets_get (JNum member_user_id);
           if truthy_sid memberSocketId
           then io_to_emit memberSocketId "receive_group_message" messageData
           else mret tt) ;;
         console_log "Group message")
    (fun _ =>
       console_error "Error sending group message:" ;;
       socket_emit socket "error" (PError "Failed to send message")).

(** [socket.on('typing_direct', (data) => ...)]: no [try] around it. *)
Definition on_typing_direct (socket : Socket) (data : option Data)
  : Handler unit :=
  d ← destructure data;
  receiverSocketId ← userSockets_get (receiverId d);
  if truthy_sid receiverSocketId
  then io_to_emit receiverSocketId "user_typing_direct"
         (PTypingDirect (socket_userId socket) (socket_username socket)
                        (isTyping d))
  else mret tt.

(** [socket.on('typing_group', async (data) => ...)] *)
Definition on_typing_group (socket : Socket) (data : option Data)
  : Handler unit :=
  try_catch
    (d ← destructure data;
     members ← db_query (SelectMembersExcept (groupId d) (socket_userId socket));
     forEach (rows members) (fun member_user_id =>
       memberSocketId ← userSockets_get (JNum member_user_id);
       if truthy_sid memberSocketId
       then io_to_emit memberSocketId "user_typing_group"
              (PTypingGroup (groupId d) (socket_userId socket)
                            (socket_username socket) (isTyping d))
       else mret tt))
    (fun _ => console_error "Error handling typing indicator:").

(** [socket.on('disconnect', async () => ...)] *)
Definition on_disconnect (socket : Socket) : Handler unit :=
  console_log "User disconnected" ;;
  modify (deregister socket) ;;
  try_catch
    (db_query (UpdateOnline false (socket_userId socket)) ;; mret tt)
    (fun _ => console_error "Error updating offline status:") ;;
  io_emit "user_status_change"
    (PStatus (socket_userId socket) (socket_username socket) false).

(** A client connects: Socket.IO admits the socket and fires
    [connection]. *)
Definition connect (socket : Socket) : Handler unit :=
  fun w => on_connection socket (accept_socket socket w).

(** A connection closes: Socket.IO drops the socket and fires
    [disconnect], for the listener the [connection] handler attached. *)
Definition disconnect (socket : Socket) : Handler unit :=
  fun w => on_disconnect socket (drop_socket socket w).

(** What Socket.IO can fire on the server. *)
Inductive Inbound : Type :=
| Connection (socket : Socket)
| Disconnect (socket : Socket)
| SendDirectMessage (socket : Socket) (data : option Data)
| SendGroupMessage (socket : Socket) (data : option Data)
| TypingDirect (socket : Socket) (data : option Data)
| TypingGroup (socket : Socket) (data : option Data).

Definition dispatch (e : Inbound) : Handler unit :=
  match e with
  | Connection socket => connect socket
  | Disconnect socket => disconnect socket
  | SendDirectMessage socket data => on_send_direct_message socket data
  | SendGroupMessage socket data => on_send_group_message socket data
  | TypingDirect socket data => on_typing_direct socket data
  | TypingGroup socket data => on_typing_group socket data
  end.

(** [connection] is fired for a socket that has just been given its id,
    everything else for a socket that is connected and has its
    listeners. *)
Definition enabled (e : Inbound) (w : World) : Prop :=
  match e with
  | Connection socket => admissible socket w = true
  | Disconnect socket
  | SendDirectMessage socket _ | SendGroupMessage socket _
  | TypingDirect socket _ | TypingGroup socket _ =>
      In socket (connected w) /\ In socket (listening w)
  end.

(** The worlds the server can be in: it boots with nobody connected, runs
    a handler for an event that can be fired, things happen elsewhere
    between two handlers, and anything may be pending elsewhere. *)
Inductive reachable : World -> Prop :=
| reach_boot (d : Db) (t : Z) (p : list (list EnvOp)) :
    reachable (mkWorld ∅ [] [] [] d t p)
| reach_event (w : World) (e : Inbound) :
    reachable w -> enabled e w -> reachable (final (dispatch e w))
| reach_elsewhere (w : World) (ops : list EnvOp) :
    reachable w -> reachable (env_batch ops w)
| reach_pending (w : World) (p : list (list EnvOp)) :
    reachable w -> reachable (with_pending p w).

End Handlers.

(** ** Reading a trace *)

(** The payloads of the events [ev] sent to the socket [h], by
    [socket.emit] on that socket or by [io.to(h).emit]. *)
Definition addressed (h ev : string) (tr : list Action) : list Payload :=
  flat_map
    (fun a =>
       match a with
       | SocketEmit sid ev' p | IoToEmit sid ev' p =>
           if bool_decide (sid = h) && bool_decide (ev' = ev)
           then [p] else []
       | _ => []
       end) tr.

(** The row a successful [INSERT] wrote is the message [p] carries. *)
Definition stores (q : Sql) (id : Z) (p : Payload) : Prop :=
  match q, p with
  | InsertDirect s r t, PDirect i s' _ r' t' _ _ =>
      i = id /\ s' = s /\ r' = r /\ t' = t
  | InsertGroup g s t, PGroup i g' s' _ t' _ =>
      i = id /\ g' = g /\ s' = s /\ t' = t
  | _, _ => False
  end.

(** What the fan-out loop of a group send or a group typing signal emits
    in the world [w]: one [io.to(h).emit] per listed member whose entry
    in [userSockets] is truthy. *)
Definition fanout (ev : string) (p : Payload) (members : list Z) (w : World)
  : list Action :=
  flat_map
    (fun m =>
       match userSockets w !! m with
       | Some h => if negb (String.eqb h "") then [IoToEmit h ev p] else []
       | None => []
       end) members.

(** ** The registry invariant *)

(** Connected sockets have distinct, non-empty ids; the handles in
    [userSockets] are not empty, no two users have the same one, and the
    id of a connected socket is the handle of no other user than its own.
    (An entry may be the id of a socket that is not connected any
    more.) *)
Definition world_ok (w : World) : Prop :=
  NoDup (map socket_id (connected w))
  /\ (forall s, In s (connected w) -> socket_id s <> "")
  /\ (forall u h, userSockets w !! u = Some h -> h <> "")
  /\ (forall u v h, userSockets w !! u = Some h ->
                    userSockets w !! v = Some h -> u = v)
  /\ (forall c u, In c (connected w) ->
                  userSockets w !! u = Some (socket_id c) ->
                  socket_userId c = u).

(** Every handle the registry holds is the id of a connection that is
    open. *)
Definition registry_live (w : World) : Prop :=
  forall u h, userSockets w !! u = Some h ->
              In h (map socket_id (connected w)).

(** Only connected sockets have listeners. *)
Definition listeners_connected (w : World) : Prop :=
  forall c, In c (listening w) -> In c (connected w).

(** A handler that leaves the invariant in place. *)
Definition keeps_ok {A} (m : Handler A) : Prop :=
  forall w, world_ok w -> world_ok (final (m w)).

(** A handler that, left alone, changes neither the registry nor the
    connected sockets. *)
Definition leaves_registry {A} (m : Handler A) : Prop :=
  forall w, pending w = [] ->
    userSockets (final (m w)) = userSockets w
    /\ connected (final (m w)) = connected w
    /\ pending (final (m w)) = [].

(** ** Worlds to run the handlers in *)

(** A store that compares a group id with a number, and with nothing
    else. *)
Definition sql_eq_num (c : Z) (v : JsVal) : bool :=
  match v with
  | JNum n => Z.eqb c n
  | _ => false
  end.

(** Users 1, 2 and 3, all members of group 10. *)
Definition db0 : Db :=
  mkDb [mkUserRow 1 false 0; mkUserRow 2 false 0; mkUserRow 3 false 0]
       [] 1 [] 1
       [mkMemberRow 1 10 1; mkMemberRow 2 10 2; mkMemberRow 3 10 3]
       false.

Definition db_down : Db :=
  mkDb (Users db0) [] 1 [] 1 (GroupMembers db0) true.

Definition alice : Socket := mkSocket "h1" 1 "alice".
Definition alice2 : Socket := mkSocket "h2" 1 "alice".
Definition bob : Socket := mkSocket "h3" 2 "bob".
Definition dave : Socket := mkSocket "h4" 4 "dave".

Definition w_empty : World := mkWorld ∅ [] [] [] db0 0 [].

(** Alice and Bob are online, user 3 is not. *)
Definition w_two : World :=
  mkWorld (<[2 := "h3"]> (<[1 := "h1"]> ∅)) [bob; alice] [bob; alice] []
          db0 0 [].

(** Dave, who is in no group, is online as well. *)
Definition w_three : World :=
  mkWorld (<[4 := "h4"]> (<[2 := "h3"]> (<[1 := "h1"]> ∅)))
          [dave; bob; alice] [dave; bob; alice] [] db0 0 [].

Definition w_two_down : World :=
  mkWorld (<[2 := "h3"]> (<[1 := "h1"]> ∅)) [bob; alice] [bob; alice] []
          db_down 0 [].

Definition hi_to (r : JsVal) : Data :=
  mkData r JUndefined (JStr "hi") JUndefined.
Definition hi_group (g : JsVal) : Data :=
  mkData JUndefined g (JStr "hi") JUndefined.
Definition typing_in (g : JsVal) : Data :=
  mkData JUndefined g JUndefined (JBool true).

(** ** Reading an outcome *)

(** Nothing is sent to another socket before the row it carries is
    written: every [io.to(..).emit] or [io.emit] of the trace comes after
    a successful [INSERT] of the very message it carries. *)
Definition persist_then_deliver (tr : list Action) : Prop :=
  forall pre a post,
    tr = pre ++ a :: post -> is_fanout a = true ->
    exists room ev p q id,
      a = IoToEmit room ev p
      /\ In (DbQuery q (Some (ResInsert id))) pre
      /\ stores q id p.

(** A rejected [INSERT] leaves the sender with one [error] event and
    nothing else: no row written, nothing sent to anybody. *)
Definition failed_persist_contained (s : Socket) (tr : list Action) : Prop :=
  (exists q, is_insert q = true /\ In (DbQuery q None) tr) ->
  emits tr = [SocketEmit (socket_id s) "error"
                (PError "Failed to send message")]
  /\ List.filter persisted tr = []
  /\ List.filter is_fanout tr = [].

Definition with_receiverId (v : JsVal) (d : Data) : Data :=
  mkData v (groupId d) (messageText d) (isTyping d).
Definition with_groupId (v : JsVal) (d : Data) : Data :=
  mkData (receiverId d) v (messageText d) (isTyping d).

(** The [catch] of the two send handlers. *)
Definition failed_to_send (s : Socket) (what : string) : list Action :=
  [ConsoleError what;
   SocketEmit (socket_id s) "error" (PError "Failed to send message")].

(** The status write of [connection] and [disconnect], with its [catch],
    in the world [w1] the handler wakes up in. *)
Definition status_trace (online : bool) (s : Socket) (w1 : World)
  : list Action :=
  if unavailable (db w1)
  then [DbQuery (UpdateOnline online (socket_userId s)) None;
        ConsoleError (if online then "Error updating online status:"
                      else "Error updating offline status:")]
  else [DbQuery (UpdateOnline online (socket_userId s)) (Some ResUpdate)].

Definition status_world (online : bool) (s : Socket) (w1 : World) : World :=
  if unavailable (db w1) then w1
  else with_db (update_online online (socket_userId s) (clock w1) (db w1)) w1.

(** What a direct send emits once its row is written. *)
Definition direct_delivery (s : Socket) (msg : Payload) (d : Data) (w : World)
  : list Action :=
  match lookup_socket (receiverId d) w with
  | Some h =>
      if negb (String.eqb h "")
      then [IoToEmit h "receive_direct_message" msg] else []
  | None => []
  end
  ++ [SocketEmit (socket_id s) "message_sent" msg;
      ConsoleLog "Direct message"].

(** ** What a trace never holds *)

(** The name of the event an emit carries. *)
Definition event_of (a : Action) : option string :=
  match a with
  | SocketEmit _ ev _ | IoToEmit _ ev _ | IoEmit ev _ => Some ev
  | _ => None
  end.

(** A [SELECT]. *)
Definition read_only (q : Sql) : bool :=
  match q with
  | SelectMembership _ _ | SelectMembers _ | SelectMembersExcept _ _ => true
  | _ => false
  end.

(** Every call a handler makes, in whatever world it runs, satisfies
    [P]. *)
Definition trace_all {A} (P : Action -> Prop) (m : Handler A) : Prop :=
  forall w a, In a (trace (m w)) -> P a.

(** A handler that leaves [J] in place. *)
Definition keeps {A} (J : World -> Prop) (m : Handler A) : Prop :=
  forall w, J w -> J (final (m w)).

(** An [error] event is an [error] on the socket [s], with a message. *)
Definition error_on_own_socket (s : Socket) (a : Action) : Prop :=
  event_of a = Some "error" ->
  exists msg, a = SocketEmit (socket_id s) "error" (PError msg).

(** A query, if it is one, is a [SELECT]. *)
Definition only_reads (a : Action) : Prop :=
  match a with
  | DbQuery q _ => read_only q = true
  | _ => True
  end.

(** The socket an inbound event is fired for. *)
Definition socket_of (e : Inbound) : Socket :=
  match e with
  | Connection s | Disconnect s
  | SendDirectMessage s _ | SendGroupMessage s _
  | TypingDirect s _ | TypingGroup s _ => s
  end.

(** ** The authentication middleware *)

Section Auth.

(** [jwt.verify(token, process.env.JWT_SECRET)]: the [userId] and the
    [username] of the decoded token, or it throws.  The library is not part
    of the sources. *)
Variable jwt_verify : JsVal -> option (Z * string).

Variable sql_eq : Z -> JsVal -> bool.

(** What the middleware hands to [next]. *)
Inductive AuthResult : Type :=
| Authenticated (userId : Z) (username : string)
| AuthError (message : string).

(** [io.use((socket, next) => ...)], on [socket.handshake.auth.token] *)
Definition io_use (token : JsVal) : AuthResult :=
  if negb (truthy token)
  then AuthError "Authentication token required"
  else
    match jwt_verify token with
    | Some (userId, username) => Authenticated userId username
    | None => AuthError "Invalid authentication token"
    end.

(** A client opens a connection: Socket.IO gives the socket its id, runs
    the middleware, and fires [connection] unless the middleware passed an
    error, which refuses the connection with that error. *)
Definition handshake (id : string) (token : JsVal) : Handler unit :=
  match io_use token with
  | Authenticated userId username => connect sql_eq (mkSocket id userId username)
  | AuthError message => throw message
  end.

(** What the server saw of its handshakes: for each, the id Socket.IO gave
    the socket and the token the client presented. *)
Definition Handshakes : Type := list (string * JsVal).

(** The socket went through the middleware at one of these handshakes. *)
Definition verified (log : Handshakes) (s : Socket) : Prop :=
  exists token,
    In (socket_id s, token) log
    /\ io_use token = Authenticated (socket_userId s) (socket_username s).

Definition env_verified (log : Handshakes) (o : EnvOp) : Prop :=
  match o with
  | EnvConnect s => verified log s
  | _ => True
  end.

Definition pending_verified (log : Handshakes) (p : list (list EnvOp))
  : Prop :=
  Forall (Forall (env_verified log)) p.

(** Every entry of the registry was made for a socket that went through
    the middleware, and so will those made elsewhere. *)
Definition all_verified (log : Handshakes) (w : World) : Prop :=
  (forall u h, userSockets w !! u = Some h ->
     exists s, socket_id s = h /\ socket_userId s = u /\ verified log s)
  /\ pending_verified log (pending w).

(** The worlds of a server whose every connection, here and elsewhere,
    comes in through [handshake], with the handshakes it has seen.  The
    handshakes [hs] are those of the connections that come in elsewhere,
    between two handlers or while handlers to come are waiting. *)
Inductive served : Handshakes -> World -> Prop :=
| served_boot (d : Db) (t : Z) :
    served [] (mkWorld ∅ [] [] [] d t [])
| served_handshake (log : Handshakes) (w : World) (id : string)
                   (token : JsVal) :
    served log w -> admissible (mkSocket id 0 "") w = true ->
    served ((id, token) :: log) (final (handshake id token w))
| served_event (log : Handshakes) (w : World) (e : Inbound) :
    served log w -> (forall s, e <> Connection s) -> enabled e w ->
    served log (final (dispatch sql_eq e w))
| served_elsewhere (log hs : Handshakes) (w : World) (ops : list EnvOp) :
    served log w -> Forall (env_verified (hs ++ log)) ops ->
    served (hs ++ log) (env_batch ops w)
| served_pending (log hs : Handshakes) (w : World) (p : list (list EnvOp)) :
    served log w -> pending_verified (hs ++ log) p ->
    served (hs ++ log) (with_pending p w).

End Auth.

(** ** The client: what the browser does with and for the handlers *)

Module Client.

(** [a === b] on values that came over the wire or out of the REST
    interface: primitives by value, and two objects are never the same
    object. *)
Definition strict_eq (a b : JsVal) : bool :=
  match a, b with
  | JObj _, _ | _, JObj _ => false
  | _, _ => bool_decide (a = b)
  end.

(** The properties the listeners read from the payload of an event; a
    property the payload has not reads [undefined]. *)
Definition p_senderId (p : Payload) : JsVal :=
  match p with
  | PDirect _ s _ _ _ _ _ | PGroup _ _ s _ _ _ => JNum s
  | _ => JUndefined
  end.

Definition p_receiverId (p : Payload) : JsVal :=
  match p with
  | PDirect _ _ _ r _ _ _ => r
  | _ => JUndefined
  end.

Definition p_groupId (p : Payload) : JsVal :=
  match p with
  | PGroup _ g _ _ _ _ | PTypingGroup g _ _ _ => g
  | _ => JUndefined
  end.

Definition p_userId (p : Payload) : JsVal :=
  match p with
  | PStatus u _ _ | PTypingDirect u _ _ | PTypingGroup _ u _ _ => JNum u
  | _ => JUndefined
  end.

Definition p_username (p : Payload) : JsVal :=
  match p with
  | PStatus _ n _ | PTypingDirect _ n _ | PTypingGroup _ _ n _ => JStr n
  | _ => JUndefined
  end.

Definition p_isTyping (p : Payload) : JsVal :=
  match p with
  | PTypingDirect _ _ t | PTypingGroup _ _ _ t => t
  | _ => JUndefined
  end.

Definition p_isOnline (p : Payload) : JsVal :=
  match p with
  | PStatus _ _ b => JBool b
  | _ => JUndefined
  end.

(** *** [socketService] *)

(** What a method of the service does: emit on the socket, or print. *)
Inductive Sent : Type :=
| Emit (ev : string) (data : Data)
| LogError (msg : string).



(** [sendTypingDirect(receiverId, isTyping)] *)
Definition sendTypingDirect (socket : bool) (receiverId isTyping : JsVal)
  : list Sent :=
  if negb socket then []
  else [Emit "typing_direct"
          (mkData receiverId JUndefined JUndefined isTyping)].

(** [sendTypingGroup(groupId, isTyping)] *)
Definition sendTypingGroup (socket : bool) (groupId isTyping : JsVal)
  : list Sent :=
  if negb socket then []
  else [Emit "typing_group"
          (mkData JUndefined groupId JUndefined isTyping)].

(** *** [ChatWindow] *)

(** [chat], as [Dashboard] builds it: the type and the id of the user or
    of the group. *)
Record Chat : Type := mkChat {
  chat_type : string;
  chat_id : JsVal
}.


(** [handleTyping(isTyping)] *)
Definition handleTyping (socket : bool) (chat : Chat) (isTyping : JsVal)
  : list Sent :=
  if String.eqb (chat_type chat) "direct"
  then sendTypingDirect socket (chat_id chat) isTyping
  else sendTypingGroup socket (chat_id chat) isTyping.

(** The state the listeners change: [messages], which holds what was
    loaded from the history ([H]) and what arrived live, and
    [typingUsers]. *)
Record Window (H : Type) : Type := mkWindow {
  messages : list (H + Payload);
  typingUsers : list JsVal
}.
Arguments mkWindow {H} messages typingUsers.
Arguments messages {H} w.
Arguments typingUsers {H} w.

(** [handleNewDirectMessage(message)] *)
Definition handleNewDirectMessage {H} (chat : Chat) (message : Payload)
           (w : Window H) : Window H :=
  if strict_eq (p_senderId message) (chat_id chat)
     || strict_eq (p_receiverId message) (chat_id chat)
  then mkWindow (messages w ++ [inr message]) (typingUsers w)
  else w.

(** [handleNewGroupMessage(message)] *)
Definition handleNewGroupMessage {H} (chat : Chat) (message : Payload)
           (w : Window H) : Window H :=
  if strict_eq (p_groupId message) (chat_id chat)
  then mkWindow (messages w ++ [inr message]) (typingUsers w)
  else w.

(** [handleMessageSent(message)] *)
Definition handleMessageSent {H} (message : Payload) (w : Window H)
  : Window H :=
  mkWindow (messages w ++ [inr message]) (typingUsers w).

(** [handleTypingDirect({ userId, username, isTyping })] *)
Definition handleTypingDirect {H} (chat : Chat) (p : Payload) (w : Window H)
  : Window H :=
  if strict_eq (p_userId p) (chat_id chat)
  then if truthy (p_isTyping p)
       then mkWindow (messages w) [p_username p]
       else mkWindow (messages w) []
  else w.

(** [prev.includes(username)] *)
Definition includes (l : list JsVal) (x : JsVal) : bool :=
  existsb (strict_eq x) l.

(** [handleTypingGroup({ groupId, userId, username, isTyping })];
    [me] is [currentUser.userId]. *)
Definition handleTypingGroup {H} (chat : Chat) (me : JsVal) (p : Payload)
           (w : Window H) : Window H :=
  if strict_eq (p_groupId p) (chat_id chat)
     && negb (strict_eq (p_userId p) me)
  then
    mkWindow (messages w)
      (if truthy (p_isTyping p)
       then if includes (typingUsers w) (p_username p)
            then typingUsers w
            else typingUsers w ++ [p_username p]
       else List.filter (fun u => negb (strict_eq u (p_username p)))
                        (typingUsers w))
  else w.

(** The listeners the window has on the socket, by the type of the chat
    (the second [useEffect]). *)
Definition on_event {H} (chat : Chat) (me : JsVal) (ev : string)
           (p : Payload) (w : Window H) : Window H :=
  if String.eqb ev "message_sent" then handleMessageSent p w
  else if String.eqb (chat_type chat) "direct"
  then if String.eqb ev "receive_direct_message"
       then handleNewDirectMessage chat p w
       else if String.eqb ev "user_typing_direct"
            then handleTypingDirect chat p w
            else w
  else if String.eqb ev "receive_group_message"
       then handleNewGroupMessage chat p w
       else if String.eqb ev "user_typing_group"
            then handleTypingGroup chat me p w
            else w.

(** The events of a trace that Socket.IO hands to the connected socket
    [h], in the order they were emitted. *)
Definition inbox (h : string) (tr : list Action) : list (string * Payload) :=
  flat_map
    (fun a =>
       match a with
       | SocketEmit sid ev p | IoToEmit sid ev p =>
           if bool_decide (sid = h) then [(ev, p)] else []
       | IoEmit ev p => [(ev, p)]
       | _ => []
       end) tr.

Definition receive {H} (chat : Chat) (me : JsVal)
           (events : list (string * Payload)) (w : Window H) : Window H :=
  fold_left (fun w e => on_event chat me (fst e) (snd e) w) events w.

(** [groupMessagesByDate()]: the object [groups] as the list of its own
    keys with their arrays, in the order the keys were added; [date_of] is
    [formatDate(msg.sent_at || msg.sentAt)]. *)
Fixpoint push_group {M} (date : string) (msg : M)
         (groups : list (string * list M)) : list (string * list M) :=
  match groups with
  | [] => [(date, [msg])]
  | (k, msgs) :: rest =>
      if String.eqb k date then (k, msgs ++ [msg]) :: rest
      else (k, msgs) :: push_group date msg rest
  end.

(** The property names every object inherits from [Object.prototype]:
    under such a name [groups[date]] is truthy from the start and is not an
    array. *)
Definition object_prototype_keys : list string :=
  ["constructor"; "__defineGetter__"; "__defineSetter__"; "hasOwnProperty";
   "__lookupGetter__"; "__lookupSetter__"; "isPrototypeOf";
   "propertyIsEnumerable"; "toString"; "valueOf"; "__proto__";
   "toLocaleString"].

Definition inherited (k : string) : bool :=
  existsb (String.eqb k) object_prototype_keys.

(** The body of the [forEach]; [None] once [groups[date].push] has
    thrown. *)
Definition group_step {M} (date_of : M -> string)
           (acc : option (list (string * list M))) (msg : M)
  : option (list (string * list M)) :=
  match acc with
  | Some groups =>
      if inherited (date_of msg) then None
      else Some (push_group (date_of msg) msg groups)
  | None => None
  end.

Definition groupMessagesByDate {M} (date_of : M -> string)
           (msgs : list M) : option (list (string * list M)) :=
  fold_left (group_step date_of) msgs (Some []).

(** *** [Dashboard] *)

(** A row of [GET /api/chat/users]. *)
Record UserEntry : Type := mkUserEntry {
  ue_user_id : JsVal;
  ue_username : JsVal;
  ue_email : JsVal;
  ue_is_online : JsVal;
  ue_last_seen : JsVal
}.

(** The listener of [user_status_change]. *)
Definition onUserStatusChange (data : Payload) (users : list UserEntry)
  : list UserEntry :=
  map (fun u =>
         if strict_eq (ue_user_id u) (p_userId data)
         then mkUserEntry (ue_user_id u) (ue_username u) (ue_email u)
                          (p_isOnline data) (ue_last_seen u)
         else u) users.

(** What the dashboard holds once [loadUsers] has set the list: the list,
    and whether the listener its mounting effect has put on the socket
    for [user_status_change] is still there. *)
Record Dash : Type := mkDash {
  dash_users : list UserEntry;
  dash_listener : bool
}.

(** What happens to a mounted dashboard: a [user_status_change] arrives
    on the socket; the cleanup of the effect of [ChatWindow] runs (another
    chat is selected). *)
Inductive DashEvent : Type :=
| StatusChange (data : Payload)
| ChatCleanup.

(** The cleanup calls [socketService.removeAllListeners()], that is
    [socket.removeAllListeners()] on the one socket of the service: the
    listener of the dashboard goes with those of the window, and nothing
    puts it back. *)
Definition dash_step (st : Dash) (e : DashEvent) : Dash :=
  match e with
  | StatusChange data =>
      if dash_listener st
      then mkDash (onUserStatusChange data (dash_users st)) true
      else st
  | ChatCleanup => mkDash (dash_users st) false
  end.

Definition dash_run (st : Dash) (events : list DashEvent) : Dash :=
  fold_left dash_step events st.

(** The status events that arrive before the first cleanup. *)
Fixpoint heard (events : list DashEvent) : list Payload :=
  match events with
  | StatusChange data :: rest => data :: heard rest
  | _ => []
  end.

Definition is_cleanup (e : DashEvent) : bool :=
  match e with
  | ChatCleanup => true
  | StatusChange _ => false
  end.

(** *** [GroupList] *)

(** [toggleMemberSelection(userId)] on [selectedMembers]; the ids are the
    [user_id] numbers of the users listed. *)
Definition toggleMemberSelection (userId : Z) (selectedMembers : list Z)
  : list Z :=
  if existsb (Z.eqb userId) selectedMembers
  then List.filter (fun id => negb (Z.eqb id userId)) selectedMembers
  else selectedMembers ++ [userId].

(** *** [MessageInput] *)

Section Input.

(** [String.prototype.trim] *)
Variable trim : string -> string.

(** The state of the component: the text, the flag, and whether the
    timeout of [typingTimeoutRef] is still to fire. *)
Record Input : Type := mkInput {
  in_message : string;
  in_isTyping : bool;
  in_timeout : bool
}.

(** The calls on its two properties. *)
Inductive Callback : Type :=
| OnTyping (isTyping : bool)
| OnSendMessage (text : string).

Inductive Dom : Type :=
| Change (value : string)
| Submit
| KeyDown (key : string) (shiftKey : bool)
| Timeout.

(** [handleInputChange(e)], with [e.target.value] *)
Definition handleInputChange (value : string) (st : Input)
  : Input * list Callback :=
  if negb (String.eqb (trim value) "") && negb (in_isTyping st)
  then (mkInput value true true, [OnTyping true])
  else (mkInput value (in_isTyping st) true, []).

(** [handleSubmit(e)] *)
Definition handleSubmit (st : Input) : Input * list Callback :=
  let trimmedMessage := trim (in_message st) in
  if String.eqb trimmedMessage "" then (st, [])
  else
    (mkInput "" false false,
     OnSendMessage trimmedMessage
       :: (if in_isTyping st then [OnTyping false] else [])).

(** [handleKeyDown(e)] *)
Definition handleKeyDown (key : string) (shiftKey : bool) (st : Input)
  : Input * list Callback :=
  if String.eqb key "Enter" && negb shiftKey then handleSubmit st
  else (st, []).

(** The function given to [setTimeout], when its time has come. *)
Definition timeout_fires (st : Input) : Input * list Callback :=
  if in_timeout st
  then (mkInput (in_message st) false false, [OnTyping false])
  else (st, []).

Definition input_step (st : Input) (e : Dom) : Input * list Callback :=
  match e with
  | Change value => handleInputChange value st
  | Submit => handleSubmit st
  | KeyDown key shiftKey => handleKeyDown key shiftKey st
  | Timeout => timeout_fires st
  end.

Fixpoint input_run (st : Input) (events : list Dom)
  : Input * list Callback :=
  match events with
  | [] => (st, [])
  | e :: rest =>
      let '(st1, out1) := input_step st e in
      let '(st2, out2) := input_run st1 rest in
      (st2, out1 ++ out2)
  end.

(** [useState('')], [useState(false)], [useRef(null)] *)
Definition input_initial : Input := mkInput "" false false.

(** The typing flags among the calls. *)
Definition typing_flags (out : list Callback) : list bool :=
  flat_map (fun c => match c with OnTyping b => [b] | _ => [] end) out.

(** No flag [true] right after a flag [true], [prev] being the flag before
    the first. *)
Fixpoint no_true_twice (prev : bool) (flags : list bool) : bool :=
  match flags with
  | [] => true
  | b :: rest => negb (prev && b) && no_true_twice b rest
  end.

End Input.

End Client.

(** ** More inputs to run the code on *)

(** A verification that knows one token, Alice's. *)
Definition jwt_demo (token : JsVal) : option (Z * string) :=
  match token with
  | JStr "alice-token" => Some (1, "alice")
  | _ => None
  end.

(** The store goes down while a group send waits for its [INSERT]. *)
Definition w_two_failing : World :=
  with_pending [[]; []; [EnvDb db_down]] w_two.

(** Bob says he is typing in group 10. *)
Definition bob_typing : Payload :=
  PTypingGroup (JNum 10) 2 "bob" (JBool true).

Definition group_window : Client.Window unit := Client.mkWindow [] [].

(** Nobody is connected, and the next socket to connect closes while its
    [connection] handler waits. *)
Definition w_closing : World := with_pending [[EnvDisconnect alice]] w_empty.

(** Bob as [GET /api/chat/users] lists him, offline. *)
Definition bob_row : Client.UserEntry :=
  Client.mkUserEntry (JNum 2) (JStr "bob") (JStr "bob@example.com")
                     (JBool false) JNull.

(** Bob comes online, another chat is selected, Bob goes offline. *)
Definition bob_comes_and_goes : list Client.DashEvent :=
  [Client.StatusChange (PStatus 2 "bob" true);
   Client.ChatCleanup;
   Client.StatusChange (PStatus 2 "bob" false)].

(** * Properties *)

Arguments after_await : simpl never.

Lemma with_db_same (w : World) : with_db (db w) w = w.
Proof. destruct w; reflexivity. Qed.

Lemma truthy_sid_Some (h : string) :
  h <> "" -> truthy_sid (Some h) = true.
Proof.
  intros Hne. simpl. destruct (String.eqb_spec h ""); [contradiction | reflexivity].
Qed.

(** ** The invariant is kept by everything that changes the registry *)

Lemma In_drop_socket (s c : Socket) (w : World) :
  In c (connected (drop_socket s w)) <-> In c (connected w) /\ c <> s.
Proof.
  unfold drop_socket; simpl. rewrite List.filter_In.
  split; intros [Hin Hc]; split; auto.
  - intros ->. rewrite bool_decide_eq_true_2 in Hc by reflexivity. discriminate.
  - rewrite bool_decide_eq_false_2 by assumption. reflexivity.
Qed.

Lemma NoDup_map_filter {A B} (f : A -> B) (p : A -> bool) (l : list A) :
  NoDup (map f l) -> NoDup (map f (List.filter p l)).
Proof.
  induction l as [|a l IH]; simpl; intros Hnd; [constructor|].
  apply NoDup_cons in Hnd as [Hnotin Hnd].
  destruct (p a); simpl; auto.
  constructor; auto.
  rewrite list_elem_of_In, in_map_iff in *.
  intros [x [Hx Hin]]. apply Hnotin. exists x. split; auto.
  apply List.filter_In in Hin. tauto.
Qed.

(** What a fresh id is fresh for. *)
Lemma admissible_fresh (s : Socket) (w : World) :
  admissible s w = true ->
  socket_id s <> ""
  /\ ~ In (socket_id s) (map socket_id (connected w))
  /\ (forall u, userSockets w !! u <> Some (socket_id s)).
Proof.
  unfold admissible. intros Hadm.
  apply andb_true_iff in Hadm as [Hadm Hreg].
  apply andb_true_iff in Hadm as [Hid Hconn].
  apply negb_true_iff in Hid, Hconn, Hreg.
  apply bool_decide_eq_false in Hconn, Hreg.
  rewrite list_elem_of_In in Hconn, Hreg.
  split; [|split].
  - intros Heq. rewrite Heq in Hid. discriminate.
  - exact Hconn.
  - intros u Hlook. apply Hreg. apply in_map_iff.
    exists (u, socket_id s). split; [reflexivity|].
    apply list_elem_of_In, elem_of_map_to_list. exact Hlook.
Qed.

Lemma world_ok_register (s : Socket) (w : World) :
  admissible s w = true -> world_ok w -> world_ok (register s (accept_socket s w)).
Proof.
  intros Hadm (Hnd & Hne & Hh & Hinj & Hown).
  apply admissible_fresh in Hadm as (Hid & Hfresh & Hreg).
  split; [|split; [|split; [|split]]]; simpl.
  - constructor; [rewrite list_elem_of_In|]; assumption.
  - intros c [<- | Hin]; auto.
  - intros u h Hlook.
    destruct (decide (socket_userId s = u)) as [<- | Hneq].
    + rewrite lookup_insert_eq in Hlook. inversion Hlook; subst. exact Hid.
    + rewrite lookup_insert_ne in Hlook by assumption. eauto.
  - intros u v h Hu Hv.
    destruct (decide (socket_userId s = u)) as [<- | Hnu];
      destruct (decide (socket_userId s = v)) as [<- | Hnv];
      [reflexivity| | |].
    + rewrite lookup_insert_eq in Hu. inversion Hu; subst h.
      rewrite lookup_insert_ne in Hv by assumption.
      exfalso. apply (Hreg v). exact Hv.
    + rewrite lookup_insert_eq in Hv. inversion Hv; subst h.
      rewrite lookup_insert_ne in Hu by assumption.
      exfalso. apply (Hreg u). exact Hu.
    + rewrite lookup_insert_ne in Hu, Hv by assumption. eauto.
  - intros c u Hc Hlook.
    destruct (decide (socket_userId s = u)) as [<- | Hneq].
    + rewrite lookup_insert_eq in Hlook. inversion Hlook as [Heq].
      destruct Hc as [<- | Hc]; [reflexivity|].
      exfalso. apply Hfresh. rewrite Heq. apply in_map. exact Hc.
    + rewrite lookup_insert_ne in Hlook by assumption.
      destruct Hc as [<- | Hc]; [|eauto].
      exfalso. apply (Hreg u). exact Hlook.
Qed.

Lemma world_ok_drop (s : Socket) (w : World) :
  world_ok w -> world_ok (drop_socket s w).
Proof.
  intros (Hnd & Hne & Hh & Hinj & Hown).
  split; [|split; [|split; [|split]]].
  - simpl. apply NoDup_map_filter. assumption.
  - intros c Hin. apply In_drop_socket in Hin. apply Hne. tauto.
  - exact Hh.
  - exact Hinj.
  - intros c u Hin. apply In_drop_socket in Hin. apply Hown. tauto.
Qed.

Lemma world_ok_delete (u : Z) (w : World) :
  world_ok w -> world_ok (with_userSockets (delete u (userSockets w)) w).
Proof.
  intros (Hnd & Hne & Hh & Hinj & Hown).
  assert (Hsub : forall v h, delete u (userSockets w) !! v = Some h ->
                             userSockets w !! v = Some h).
  { intros v h Hlook. destruct (decide (u = v)) as [<- | Hneq].
    - rewrite lookup_delete_eq in Hlook. discriminate.
    - rewrite lookup_delete_ne in Hlook by assumption. exact Hlook. }
  split; [exact Hnd|]. split; [exact Hne|].
  split; [|split]; cbn [with_userSockets userSockets connected].
  - intros v h Hlook. eauto.
  - intros v v' h Hv Hv'. eauto.
  - intros c v Hc Hlook. eauto.
Qed.

Lemma world_ok_deregister (s : Socket) (w : World) :
  world_ok w -> world_ok (deregister s (drop_socket s w)).
Proof. intros Hok. apply world_ok_delete, world_ok_drop, Hok. Qed.

(** The invariant does not look at the listeners. *)
Lemma world_ok_same (w w' : World) :
  userSockets w' = userSockets w -> connected w' = connected w ->
  world_ok w -> world_ok w'.
Proof. unfold world_ok. intros -> ->. auto. Qed.

Lemma listen_fields (s : Socket) (w : World) :
  userSockets (listen s w) = userSockets w
  /\ connected (listen s w) = connected w
  /\ db (listen s w) = db w
  /\ pending (listen s w) = pending w.
Proof. unfold listen. destruct (bool_decide _); auto. Qed.

Lemma world_ok_listen (s : Socket) (w : World) :
  world_ok w -> world_ok (listen s w).
Proof.
  destruct (listen_fields s w) as (Hm & Hc & _).
  apply world_ok_same; assumption.
Qed.

Lemma world_ok_env_op (o : EnvOp) (w : World) :
  world_ok w -> world_ok (env_op o w).
Proof.
  intros Hok. destruct o as [s | s | s | d | dt]; simpl.
  - destruct (admissible s w) eqn:Hadm; [|assumption].
    apply (world_ok_same (register s (accept_socket s w))); [reflexivity ..|].
    apply world_ok_register; assumption.
  - destruct (bool_decide _); [|assumption].
    destruct (bool_decide _).
    + apply world_ok_deregister; assumption.
    + apply world_ok_drop; assumption.
  - destruct (bool_decide _); [|assumption].
    apply world_ok_listen. exact Hok.
  - exact Hok.
  - exact Hok.
Qed.

Lemma world_ok_env_batch (ops : list EnvOp) (w : World) :
  world_ok w -> world_ok (env_batch ops w).
Proof.
  revert w. induction ops as [|o ops IH]; intros w Hok; simpl; [assumption|].
  apply IH, world_ok_env_op, Hok.
Qed.

Lemma world_ok_after_await (w : World) :
  world_ok w -> world_ok (after_await w).
Proof.
  intros Hok. unfold after_await. destruct (pending w) as [|ops rest] eqn:Hp.
  - assumption.
  - apply world_ok_env_batch. exact Hok.
Qed.

Lemma world_ok_with_db (d : Db) (w : World) :
  world_ok w -> world_ok (with_db d w).
Proof. intros Hok. exact Hok. Qed.

Lemma after_await_quiet (w : World) : pending w = [] -> after_await w = w.
Proof. intros Hp. unfold after_await. rewrite Hp. reflexivity. Qed.

(** Two users never share a handle. *)
Lemma world_ok_inj (w : World) (u v : Z) (h : string) :
  world_ok w ->
  userSockets w !! u = Some h -> userSockets w !! v = Some h -> u = v.
Proof. intros (_ & _ & _ & Hinj & _). apply Hinj. Qed.

(** The id of a connected socket is the handle of its own user only. *)
Lemma world_ok_owner (w : World) (c : Socket) (u : Z) :
  world_ok w -> In c (connected w) ->
  userSockets w !! u = Some (socket_id c) -> socket_userId c = u.
Proof. intros (_ & _ & _ & _ & Hown). apply Hown. Qed.

Lemma world_ok_handle (w : World) (u : Z) (h : string) :
  world_ok w -> userSockets w !! u = Some h -> h <> "".
Proof. intros (_ & _ & Hh & _). apply Hh. Qed.

(** ** Running the primitives *)

Lemma bind_run {A B} (m : Handler A) (k : A -> Handler B) (w : World) :
  (m ≫= k) w =
    match m w with
    | (w1, t1, Ok a) => match k a w1 with (w2, t2, r) => (w2, t1 ++ t2, r) end
    | (w1, t1, Throw e) => (w1, t1, Throw e)
    end.
Proof. reflexivity. Qed.

Lemma try_catch_run {A} (body : Handler A) (h : string -> Handler A)
      (w : World) :
  try_catch body h w =
    match body w with
    | (w1, t1, Ok a) => (w1, t1, Ok a)
    | (w1, t1, Throw e) =>
        match h e w1 with (w2, t2, r) => (w2, t1 ++ t2, r) end
    end.
Proof. reflexivity. Qed.

Lemma userSockets_get_run (k : JsVal) (w : World) :
  userSockets_get k w = (w, [], Ok (lookup_socket k w)).
Proof. reflexivity. Qed.

Lemma forEach_fanout (ev : string) (p : Payload) (members : list Z)
      (w : World) :
  forEach members
    (fun member_user_id =>
       memberSocketId ← userSockets_get (JNum member_user_id);
       if truthy_sid memberSocketId
       then io_to_emit memberSocketId ev p
       else mret tt) w
  = (w, fanout ev p members w, Ok tt).
Proof.
  induction members as [|m members IH]; [reflexivity|].
  cbn [forEach]. rewrite bind_run, bind_run, userSockets_get_run.
  unfold fanout. cbn [lookup_socket flat_map].
  fold (fanout ev p members w).
  destruct (userSockets w !! m) as [h|]; cbn [truthy_sid].
  - destruct (negb (String.eqb h "")); cbn [io_to_emit call mret Handler_ret];
      rewrite IH; reflexivity.
  - cbn [mret Handler_ret]. rewrite IH. reflexivity.
Qed.

Section Properties.

Variable sql_eq : Z -> JsVal -> bool.

Lemma db_query_run (q : Sql) (w : World) :
  db_query sql_eq q w =
    if unavailable (db (after_await w))
    then (after_await w, [DbQuery q None], Throw "db.query")
    else (with_db (snd (run_sql sql_eq (clock (after_await w)) q
                                (db (after_await w))))
                  (after_await w),
          [DbQuery q (Some (fst (run_sql sql_eq (clock (after_await w)) q
                                         (db (after_await w)))))],
          Ok (fst (run_sql sql_eq (clock (after_await w)) q
                           (db (after_await w))))).
Proof.
  unfold db_query. cbn zeta. destruct (unavailable _); [reflexivity|].
  destruct (run_sql _ _ _ _); reflexivity.
Qed.

(** ** What each handler does, path by path *)

Lemma on_connection_run (s : Socket) (w : World) :
  on_connection sql_eq s w =
    let w1 := after_await (register s w) in
    (listen s (status_world true s w1),
     ConsoleLog "User connected" :: status_trace true s w1
       ++ [IoEmit "user_status_change"
             (PStatus (socket_userId s) (socket_username s) true)],
     Ok tt).
Proof.
  unfold on_connection, mbind, Handler_bind, try_catch, console_log, call,
    modify, io_emit, db_query, status_trace, status_world.
  cbn zeta.
  destruct (unavailable (db (after_await (register s w)))); reflexivity.
Qed.

Lemma on_disconnect_run (s : Socket) (w : World) :
  on_disconnect sql_eq s w =
    let w1 := after_await (deregister s w) in
    (status_world false s w1,
     ConsoleLog "User disconnected" :: status_trace false s w1
       ++ [IoEmit "user_status_change"
             (PStatus (socket_userId s) (socket_username s) false)],
     Ok tt).
Proof.
  unfold on_disconnect, mbind, Handler_bind, try_catch, console_log, call,
    modify, io_emit, db_query, status_trace, status_world.
  cbn zeta.
  destruct (unavailable (db (after_await (deregister s w)))); reflexivity.
Qed.

Lemma on_send_direct_message_nullish (s : Socket) (w : World) :
  on_send_direct_message sql_eq s None w
    = (w, failed_to_send s "Error sending direct message:", Ok tt).
Proof. reflexivity. Qed.

Lemma on_send_group_message_nullish (s : Socket) (w : World) :
  on_send_group_message sql_eq s None w
    = (w, failed_to_send s "Error sending group message:", Ok tt).
Proof. reflexivity. Qed.

Lemma on_send_direct_message_invalid (s : Socket) (d : Data) (w : World) :
  negb (truthy (receiverId d)) || negb (truthy (messageText d)) = true ->
  on_send_direct_message sql_eq s (Some d) w
    = (w, [SocketEmit (socket_id s) "error" (PError "Invalid message data")],
       Ok tt).
Proof.
  intros Hbad. unfold on_send_direct_message.
  rewrite try_catch_run, bind_run. cbn [destructure mret Handler_ret].
  rewrite Hbad. reflexivity.
Qed.

Lemma on_send_group_message_invalid (s : Socket) (d : Data) (w : World) :
  negb (truthy (groupId d)) || negb (truthy (messageText d)) = true ->
  on_send_group_message sql_eq s (Some d) w
    = (w, [SocketEmit (socket_id s) "error" (PError "Invalid message data")],
       Ok tt).
Proof.
  intros Hbad. unfold on_send_group_message.
  rewrite try_catch_run, bind_run. cbn [destructure mret Handler_ret].
  rewrite Hbad. reflexivity.
Qed.

Lemma on_send_direct_message_valid (s : Socket) (d : Data) (w : World) :
  truthy (receiverId d) = true -> truthy (messageText d) = true ->
  on_send_direct_message sql_eq s (Some d) w =
    let w1 := after_await w in
    let q := InsertDirect (socket_userId s) (receiverId d) (messageText d) in
    if unavailable (db w1)
    then (w1, DbQuery q None
                :: failed_to_send s "Error sending direct message:", Ok tt)
    else
      let id := dm_auto_increment (db w1) in
      let msg := PDirect id (socket_userId s) (socket_username s)
                         (receiverId d) (messageText d) (clock w1) false in
      let w2 := with_db (insert_direct (socket_userId s) (receiverId d)
                                       (messageText d) (db w1)) w1 in
      (w2, DbQuery q (Some (ResInsert id)) :: direct_delivery s msg d w2,
       Ok tt).
Proof.
  intros Hr Ht. unfold on_send_direct_message.
  rewrite try_catch_run, bind_run. cbn [destructure mret Handler_ret].
  rewrite Hr, Ht. cbn [negb orb]. cbn zeta.
  rewrite bind_run, db_query_run.
  destruct (unavailable (db (after_await w))); [reflexivity|].
  cbn [run_sql fst snd insertId].
  rewrite bind_run. cbn [date_now].
  rewrite bind_run, userSockets_get_run.
  unfold direct_delivery.
  set (w2 := with_db _ _).
  destruct (lookup_socket (receiverId d) w2) as [h|]; cbn [truthy_sid];
    [destruct (negb (String.eqb h ""))|]; reflexivity.
Qed.

Lemma on_send_group_message_valid (s : Socket) (d : Data) (w : World) :
  truthy (groupId d) = true -> truthy (messageText d) = true ->
  on_send_group_message sql_eq s (Some d) w =
    let u := socket_userId s in
    let q1 := SelectMembership (groupId d) u in
    let q2 := InsertGroup (groupId d) u (messageText d) in
    let q3 := SelectMembers (groupId d) in
    let oops := failed_to_send s "Error sending group message:" in
    let w1 := after_await w in
    if unavailable (db w1) then (w1, DbQuery q1 None :: oops, Ok tt) else
    let ms := select_membership sql_eq (groupId d) u (db w1) in
    let a1 := DbQuery q1 (Some (ResRows ms)) in
    if Nat.eqb (length ms) 0
    then (w1, [a1; SocketEmit (socket_id s) "error"
                     (PError "You are not a member of this group")], Ok tt)
    else
    let w2 := after_await w1 in
    if unavailable (db w2) then (w2, a1 :: DbQuery q2 None :: oops, Ok tt) else
    let id := gm_auto_increment (db w2) in
    let a2 := DbQuery q2 (Some (ResInsert id)) in
    let msg := PGroup id (groupId d) u (socket_username s) (messageText d)
                      (clock w2) in
    let w3 := after_await
                (with_db (insert_group (groupId d) u (messageText d) (db w2))
                         w2) in
    if unavailable (db w3)
    then (w3, a1 :: a2 :: DbQuery q3 None :: oops, Ok tt)
    else
    let members := select_members sql_eq (groupId d) (db w3) in
    (w3, a1 :: a2 :: DbQuery q3 (Some (ResRows members))
           :: fanout "receive_group_message" msg members w3
           ++ [ConsoleLog "Group message"], Ok tt).
Proof.
  intros Hg Ht. unfold on_send_group_message.
  rewrite try_catch_run, bind_run. cbn [destructure mret Handler_ret].
  rewrite Hg, Ht. cbn [negb orb]. cbn zeta.
  rewrite bind_run, db_query_run.
  destruct (unavailable (db (after_await w))); [reflexivity|].
  cbn [run_sql fst snd rows]. rewrite with_db_same.
  destruct (Nat.eqb (length _) 0); [reflexivity|].
  rewrite bind_run, db_query_run.
  destruct (unavailable (db (after_await (after_await w)))); [reflexivity|].
  cbn [run_sql fst snd insertId].
  rewrite bind_run. cbn [date_now].
  rewrite bind_run, db_query_run.
  destruct (unavailable (db (after_await _))); [reflexivity|].
  cbn [run_sql fst snd rows]. rewrite with_db_same.
  rewrite bind_run, forEach_fanout. reflexivity.
Qed.

Lemma on_typing_direct_run (s : Socket) (d : Data) (w : World) :
  on_typing_direct s (Some d) w =
    (w,
     match lookup_socket (receiverId d) w with
     | Some h =>
         if negb (String.eqb h "")
         then [IoToEmit h "user_typing_direct"
                 (PTypingDirect (socket_userId s) (socket_username s)
                                (isTyping d))]
         else []
     | None => []
     end,
     Ok tt).
Proof.
  unfold on_typing_direct.
  rewrite bind_run. cbn [destructure mret Handler_ret].
  rewrite bind_run, userSockets_get_run.
  destruct (lookup_socket (receiverId d) w) as [h|]; cbn [truthy_sid];
    [destruct (negb (String.eqb h ""))|]; reflexivity.
Qed.

Lemma on_typing_group_run (s : Socket) (d : Data) (w : World) :
  on_typing_group sql_eq s (Some d) w =
    let w1 := after_await w in
    let q := SelectMembersExcept (groupId d) (socket_userId s) in
    if unavailable (db w1)
    then (w1, [DbQuery q None;
               ConsoleError "Error handling typing indicator:"], Ok tt)
    else
      let members :=
        select_members_except sql_eq (groupId d) (socket_userId s) (db w1) in
      (w1, DbQuery q (Some (ResRows members))
             :: fanout "user_typing_group"
                  (PTypingGroup (groupId d) (socket_userId s)
                                (socket_username s) (isTyping d))
                  members w1,
       Ok tt).
Proof.
  unfold on_typing_group.
  rewrite try_catch_run, bind_run. cbn [destructure mret Handler_ret].
  rewrite bind_run, db_query_run. cbn zeta.
  destruct (unavailable (db (after_await w))); [reflexivity|].
  cbn [run_sql fst snd rows]. rewrite with_db_same.
  rewrite forEach_fanout. reflexivity.
Qed.

(** ** Reading the traces of the handlers *)

Lemma status_world_fields (online : bool) (s : Socket) (w : World) :
  userSockets (status_world online s w) = userSockets w
  /\ connected (status_world online s w) = connected w
  /\ pending (status_world online s w) = pending w.
Proof. unfold status_world. destruct (unavailable (db w)); auto. Qed.

Lemma world_ok_status_world (online : bool) (s : Socket) (w : World) :
  world_ok w -> world_ok (status_world online s w).
Proof.
  unfold status_world. destruct (unavailable (db w)); [auto|].
  apply world_ok_with_db.
Qed.

Lemma emits_status_trace (online : bool) (s : Socket) (w : World) :
  emits (status_trace online s w) = [].
Proof. unfold status_trace. destruct (unavailable (db w)); reflexivity. Qed.

Lemma emits_app (l1 l2 : list Action) :
  emits (l1 ++ l2) = emits l1 ++ emits l2.
Proof. apply List.filter_app. Qed.

Lemma addressed_app (h ev : string) (l1 l2 : list Action) :
  addressed h ev (l1 ++ l2) = addressed h ev l1 ++ addressed h ev l2.
Proof. apply flat_map_app. Qed.

Lemma In_fanout (ev : string) (p : Payload) (members : list Z) (w : World)
      (a : Action) :
  In a (fanout ev p members w) <->
  exists m h, In m members /\ userSockets w !! m = Some h /\ h <> ""
              /\ a = IoToEmit h ev p.
Proof.
  unfold fanout. rewrite in_flat_map. split.
  - intros (m & Hm & Ha). exists m.
    destruct (userSockets w !! m) as [h|]; [|contradiction].
    destruct (String.eqb_spec h ""); cbn [negb] in Ha; [contradiction|].
    destruct Ha as [<- | []]. exists h. auto.
  - intros (m & h & Hm & Hlook & Hne & ->). exists m. split; [assumption|].
    rewrite Hlook. destruct (String.eqb_spec h ""); [contradiction|].
    left. reflexivity.
Qed.

Lemma fanout_only_fanout (ev : string) (p : Payload) (members : list Z)
      (w : World) :
  emits (fanout ev p members w) = fanout ev p members w
  /\ List.filter is_fanout (fanout ev p members w) = fanout ev p members w
  /\ List.filter persisted (fanout ev p members w) = []
  /\ List.filter rejected (fanout ev p members w) = [].
Proof.
  unfold emits, fanout.
  induction members as [|m members (IH1 & IH2 & IH3 & IH4)];
    [repeat split; reflexivity|].
  cbn [flat_map]. rewrite !List.filter_app, IH1, IH2, IH3, IH4.
  destruct (userSockets w !! m) as [h|]; [|repeat split; reflexivity].
  destruct (negb (String.eqb h "")); repeat split; reflexivity.
Qed.

Lemma addressed_fanout_none (h ev ev' : string) (p : Payload)
      (members : list Z) (w : World) :
  (forall m, In m members -> userSockets w !! m <> Some h) ->
  addressed h ev' (fanout ev p members w) = [].
Proof.
  intros Hnone. induction members as [|m members IH]; [reflexivity|].
  unfold fanout. cbn [flat_map]. fold (fanout ev p members w).
  rewrite addressed_app, IH by (intros; apply Hnone; right; assumption).
  rewrite app_nil_r.
  specialize (Hnone m (or_introl eq_refl)).
  destruct (userSockets w !! m) as [h0|]; [|reflexivity].
  destruct (negb (String.eqb h0 "")); [|reflexivity].
  cbn [addressed flat_map].
  rewrite bool_decide_eq_false_2 by congruence. reflexivity.
Qed.

Lemma addressed_fanout_one (h ev : string) (p : Payload) (members : list Z)
      (w : World) (m : Z) :
  world_ok w -> NoDup members -> In m members ->
  userSockets w !! m = Some h ->
  addressed h ev (fanout ev p members w) = [p].
Proof.
  intros Hok Hnd Hin Hlook.
  induction members as [|m0 members IH]; [contradiction|].
  apply NoDup_cons in Hnd as [Hnotin Hnd]. rewrite list_elem_of_In in Hnotin.
  unfold fanout. cbn [flat_map]. fold (fanout ev p members w).
  rewrite addressed_app.
  destruct Hin as [-> | Hin].
  - rewrite Hlook.
    destruct (String.eqb_spec h "") as [He | _];
      [exfalso; eapply world_ok_handle; eauto|].
    cbn [negb addressed flat_map].
    rewrite !bool_decide_eq_true_2 by reflexivity. cbn [andb app].
    rewrite addressed_fanout_none; [reflexivity|].
    intros m' Hm' Hlook'.
    assert (m' = m) as -> by (eapply world_ok_inj; eauto).
    contradiction.
  - rewrite (IH Hnd Hin).
    assert (Hne : m0 <> m) by congruence.
    destruct (userSockets w !! m0) as [h0|] eqn:Hlook0; [|reflexivity].
    destruct (negb (String.eqb h0 "")); [|reflexivity].
    cbn [addressed flat_map].
    rewrite (bool_decide_eq_false_2 (h0 = h)); [reflexivity|].
    intros ->. apply Hne. eapply world_ok_inj; eauto.
Qed.

Lemma lookup_socket_truthy (w : World) (k : JsVal) (h : string) :
  world_ok w -> lookup_socket k w = Some h -> negb (String.eqb h "") = true.
Proof.
  intros Hok Hlook. destruct k; try discriminate. cbn [lookup_socket] in Hlook.
  destruct (String.eqb_spec h ""); [|reflexivity].
  exfalso. eapply world_ok_handle; eauto.
Qed.

(** Socket.IO hands an event sent to the room of a connected socket to
    that connection and to no other. *)
Lemma recipients_connected (w : World) (c : Socket) (ev : string)
      (p : Payload) :
  world_ok w -> In c (connected w) ->
  recipients (connected w) (IoToEmit (socket_id c) ev p) = [socket_id c].
Proof.
  intros (Hnd & _) Hin.
  assert (Hh : In (socket_id c) (map socket_id (connected w)))
    by (apply in_map; assumption).
  cbn [recipients]. clear - Hnd Hh.
  induction (map socket_id (connected w)) as [|x l IH]; [contradiction|].
  apply NoDup_cons in Hnd as [Hnotin Hnd]. rewrite list_elem_of_In in Hnotin.
  cbn [List.filter]. destruct Hh as [-> | Hh].
  - rewrite bool_decide_eq_true_2 by reflexivity. f_equal.
    clear - Hnotin. induction l as [|y l IH]; [reflexivity|].
    cbn [List.filter]. rewrite bool_decide_eq_false_2.
    + apply IH. intros Hin. apply Hnotin. right. assumption.
    + intros ->. apply Hnotin. left. reflexivity.
  - rewrite bool_decide_eq_false_2 by (intros ->; contradiction).
    apply IH; assumption.
Qed.

(** A room that is the id of no connected socket has nobody in it. *)
Lemma recipients_nobody (conns : list Socket) (h ev : string) (p : Payload) :
  ~ In h (map socket_id conns) -> recipients conns (IoToEmit h ev p) = [].
Proof.
  intros Hno. cbn [recipients].
  induction (map socket_id conns) as [|x l IH]; [reflexivity|].
  cbn [List.filter]. rewrite bool_decide_eq_false_2.
  - apply IH. intros Hin. apply Hno. right. exact Hin.
  - intros ->. apply Hno. left. reflexivity.
Qed.

(** ** The invariant holds in every reachable world *)

Lemma keeps_ok_ret {A} (a : A) : keeps_ok (mret a : Handler A).
Proof. intros w Hok. exact Hok. Qed.

Lemma keeps_ok_throw {A} (e : string) : keeps_ok (throw e : Handler A).
Proof. intros w Hok. exact Hok. Qed.

Lemma keeps_ok_call (a : Action) : keeps_ok (call a).
Proof. intros w Hok. exact Hok. Qed.

Lemma keeps_ok_get (k : JsVal) : keeps_ok (userSockets_get k).
Proof. intros w Hok. exact Hok. Qed.

Lemma keeps_ok_date : keeps_ok date_now.
Proof. intros w Hok. exact Hok. Qed.

Lemma keeps_ok_bind {A B} (m : Handler A) (k : A -> Handler B) :
  keeps_ok m -> (forall a, keeps_ok (k a)) -> keeps_ok (m ≫= k).
Proof.
  intros Hm Hk w Hok. rewrite bind_run.
  specialize (Hm w Hok). unfold final in *.
  destruct (m w) as [[w1 t1] [a|e]]; cbn [fst] in *; [|exact Hm].
  specialize (Hk a w1 Hm). unfold final in Hk.
  destruct (k a w1) as [[w2 t2] r]. exact Hk.
Qed.

Lemma keeps_ok_try_catch {A} (body : Handler A) (h : string -> Handler A) :
  keeps_ok body -> (forall e, keeps_ok (h e)) -> keeps_ok (try_catch body h).
Proof.
  intros Hm Hk w Hok. rewrite try_catch_run.
  specialize (Hm w Hok). unfold final in *.
  destruct (body w) as [[w1 t1] [a|e]]; cbn [fst] in *; [exact Hm|].
  specialize (Hk e w1 Hm). unfold final in Hk.
  destruct (h e w1) as [[w2 t2] r]. exact Hk.
Qed.

Lemma keeps_ok_forEach {A} (l : list A) (f : A -> Handler unit) :
  (forall x, keeps_ok (f x)) -> keeps_ok (forEach l f).
Proof.
  intros Hf. induction l as [|x l IH]; cbn [forEach].
  - apply keeps_ok_ret.
  - apply keeps_ok_bind; [apply Hf | intros _; exact IH].
Qed.

Lemma keeps_ok_db_query (q : Sql) : keeps_ok (db_query sql_eq q).
Proof.
  intros w Hok. rewrite db_query_run.
  destruct (unavailable (db (after_await w))); unfold final; cbn [fst].
  - apply world_ok_after_await, Hok.
  - apply world_ok_with_db, world_ok_after_await, Hok.
Qed.

Lemma keeps_ok_io_to_emit (o : option string) (ev : string) (p : Payload) :
  keeps_ok (io_to_emit o ev p).
Proof. destruct o; intros w Hok; exact Hok. Qed.

Lemma keeps_ok_destructure (data : option Data) : keeps_ok (destructure data).
Proof. destruct data; intros w Hok; exact Hok. Qed.

Create HintDb keeps discriminated.
#[local] Hint Resolve keeps_ok_ret keeps_ok_throw keeps_ok_call keeps_ok_get
  keeps_ok_date keeps_ok_db_query keeps_ok_io_to_emit keeps_ok_destructure
  : keeps.

Ltac keeps :=
  repeat first
    [ apply keeps_ok_bind; [|intros ?]
    | apply keeps_ok_try_catch; [|intros ?]
    | apply keeps_ok_forEach; intros ?
    | match goal with
      | |- keeps_ok (if ?b then _ else _) => destruct b
      | |- keeps_ok (let _ := _ in _) => cbn zeta
      end
    | solve [unfold socket_emit, console_log, console_error;
             auto with keeps] ].

Lemma keeps_ok_on_send_direct_message (s : Socket) (data : option Data) :
  keeps_ok (on_send_direct_message sql_eq s data).
Proof. unfold on_send_direct_message. keeps. Qed.

Lemma keeps_ok_on_send_group_message (s : Socket) (data : option Data) :
  keeps_ok (on_send_group_message sql_eq s data).
Proof. unfold on_send_group_message. keeps. Qed.

Lemma keeps_ok_on_typing_direct (s : Socket) (data : option Data) :
  keeps_ok (on_typing_direct s data).
Proof. unfold on_typing_direct. keeps. Qed.

Lemma keeps_ok_on_typing_group (s : Socket) (data : option Data) :
  keeps_ok (on_typing_group sql_eq s data).
Proof. unfold on_typing_group. keeps. Qed.

(** The send handlers and the typing relays only read the registry. *)

Lemma leaves_registry_ret {A} (a : A) : leaves_registry (mret a : Handler A).
Proof. intros w Hp. auto. Qed.

Lemma leaves_registry_throw {A} (e : string) :
  leaves_registry (throw e : Handler A).
Proof. intros w Hp. auto. Qed.

Lemma leaves_registry_call (a : Action) : leaves_registry (call a).
Proof. intros w Hp. auto. Qed.

Lemma leaves_registry_get (k : JsVal) : leaves_registry (userSockets_get k).
Proof. intros w Hp. auto. Qed.

Lemma leaves_registry_date : leaves_registry date_now.
Proof. intros w Hp. auto. Qed.

Lemma leaves_registry_bind {A B} (m : Handler A) (k : A -> Handler B) :
  leaves_registry m -> (forall a, leaves_registry (k a)) ->
  leaves_registry (m ≫= k).
Proof.
  intros Hm Hk w Hp. rewrite bind_run.
  destruct (Hm w Hp) as (Hu & Hc & Hq). unfold final in *.
  destruct (m w) as [[w1 t1] [a|e]]; cbn [fst] in *; [|auto].
  destruct (Hk a w1 Hq) as (Hu' & Hc' & Hq'). unfold final in *.
  destruct (k a w1) as [[w2 t2] r]. cbn [fst] in *.
  repeat split; congruence.
Qed.

Lemma leaves_registry_try_catch {A} (body : Handler A)
      (h : string -> Handler A) :
  leaves_registry body -> (forall e, leaves_registry (h e)) ->
  leaves_registry (try_catch body h).
Proof.
  intros Hm Hk w Hp. rewrite try_catch_run.
  destruct (Hm w Hp) as (Hu & Hc & Hq). unfold final in *.
  destruct (body w) as [[w1 t1] [a|e]]; cbn [fst] in *; [auto|].
  destruct (Hk e w1 Hq) as (Hu' & Hc' & Hq'). unfold final in *.
  destruct (h e w1) as [[w2 t2] r]. cbn [fst] in *.
  repeat split; congruence.
Qed.

Lemma leaves_registry_forEach {A} (l : list A) (f : A -> Handler unit) :
  (forall x, leaves_registry (f x)) -> leaves_registry (forEach l f).
Proof.
  intros Hf. induction l as [|x l IH]; cbn [forEach].
  - apply leaves_registry_ret.
  - apply leaves_registry_bind; [apply Hf | intros _; exact IH].
Qed.

Lemma leaves_registry_db_query (q : Sql) :
  leaves_registry (db_query sql_eq q).
Proof.
  intros w Hp. rewrite db_query_run, after_await_quiet by exact Hp.
  destruct (unavailable (db w)); unfold final; cbn [fst]; auto.
Qed.

Lemma leaves_registry_io_to_emit (o : option string) (ev : string)
      (p : Payload) :
  leaves_registry (io_to_emit o ev p).
Proof. destruct o; intros w Hp; auto. Qed.

Lemma leaves_registry_destructure (data : option Data) :
  leaves_registry (destructure data).
Proof. destruct data; intros w Hp; auto. Qed.

#[local] Hint Resolve leaves_registry_ret leaves_registry_throw
  leaves_registry_call leaves_registry_get leaves_registry_date
  leaves_registry_db_query leaves_registry_io_to_emit
  leaves_registry_destructure : keeps.

Ltac leaves :=
  repeat first
    [ apply leaves_registry_bind; [|intros ?]
    | apply leaves_registry_try_catch; [|intros ?]
    | apply leaves_registry_forEach; intros ?
    | match goal with
      | |- leaves_registry (if ?b then _ else _) => destruct b
      | |- leaves_registry (let _ := _ in _) => cbn zeta
      end
    | solve [unfold socket_emit, console_log, console_error;
             auto with keeps] ].

(** X2.  With nothing pending elsewhere, the registry and the connected
    sockets a send or a typing handler leaves are the ones it started
    with: these four handlers only read the registry. *)
Theorem inbound_messages_leave_registry (s : Socket) (data : option Data) :
  leaves_registry (on_send_direct_message sql_eq s data)
  /\ leaves_registry (on_send_group_message sql_eq s data)
  /\ leaves_registry (on_typing_direct s data)
  /\ leaves_registry (on_typing_group sql_eq s data).
Proof.
  unfold on_send_direct_message, on_send_group_message, on_typing_direct,
    on_typing_group.
  split; [leaves|]. split; [leaves|]. split; leaves.
Qed.

Lemma world_ok_connect (s : Socket) (w : World) :
  admissible s w = true -> world_ok w ->
  world_ok (final (connect sql_eq s w)).
Proof.
  intros Hadm Hok. unfold connect. rewrite on_connection_run.
  apply world_ok_listen, world_ok_status_world, world_ok_after_await,
    world_ok_register; assumption.
Qed.

Lemma world_ok_disconnect (s : Socket) (w : World) :
  world_ok w -> world_ok (final (disconnect sql_eq s w)).
Proof.
  intros Hok. unfold disconnect. rewrite on_disconnect_run.
  apply world_ok_status_world, world_ok_after_await, world_ok_deregister.
  exact Hok.
Qed.

(** X1.  Whatever the clients do, and whatever happens while a handler
    waits: connected sockets have distinct non-empty ids, the handles in
    the registry are not empty, no two users have the same handle, and the
    id of a connected socket is the handle of no other user than its
    own. *)
Theorem reachable_world_ok (w : World) : reachable sql_eq w -> world_ok w.
Proof.
  induction 1 as [d t p | w e Hreach IH Hen | w ops Hreach IH
                 | w p Hreach IH].
  - split; [constructor|]. split; [intros s []|].
    cbn [userSockets connected].
    split; [|split].
    + intros u h Hl. rewrite lookup_empty in Hl. discriminate.
    + intros u v h Hl. rewrite lookup_empty in Hl. discriminate.
    + intros c u _ Hl. rewrite lookup_empty in Hl. discriminate.
  - destruct e as [s | s | s data | s data | s data | s data];
      cbn [dispatch enabled] in *.
    + apply world_ok_connect; assumption.
    + apply world_ok_disconnect; assumption.
    + apply keeps_ok_on_send_direct_message; assumption.
    + apply keeps_ok_on_send_group_message; assumption.
    + apply keeps_ok_on_typing_direct; assumption.
    + apply keeps_ok_on_typing_group; assumption.
  - apply world_ok_env_batch. exact IH.
  - exact IH.
Qed.

(** ** The registry *)


(** ** Direct sends *)

(** C7.  A direct send whose [receiverId] is missing, or whose
    [messageText] is missing or empty, changes nothing and does one thing:
    it emits [error] on the sender's own socket.  No query is sent to the
    store and no other socket is addressed. *)
Theorem direct_send_invalid_payload (s : Socket) (d : Data) (w : World) :
  receiverId d = JUndefined
  \/ messageText d = JUndefined \/ messageText d = JStr "" ->
  on_send_direct_message sql_eq s (Some d) w
    = (w, [SocketEmit (socket_id s) "error" (PError "Invalid message data")],
       Ok tt).
Proof.
  intros Hbad. apply on_send_direct_message_invalid.
  destruct Hbad as [-> | [-> | ->]]; cbn [truthy negb String.eqb];
    auto using orb_true_r.
Qed.

(** C4.  A valid direct send whose row was written.  If the registry
    holds a handle for the receiver when the handler looks, the events
    emitted are one [receive_direct_message] to that handle and then one
    [message_sent] on the sender's own socket.  If it holds none (the
    receiver is not registered, or [receiverId] is not a number, which is
    the key of no entry), the one event emitted is the [message_sent] on
    the sender's own socket.  In both cases the sender's socket is sent
    [message_sent] once, and the row is written once.  When the handle the
    registry holds for the receiver is the id of a connection that is
    open, that connection is the receiver's and Socket.IO hands the event
    to it alone. *)
Theorem direct_send_delivery (s : Socket) (d : Data) (w : World) :
  let out := on_send_direct_message sql_eq s (Some d) w in
  truthy (receiverId d) = true -> truthy (messageText d) = true ->
  world_ok w ->
  existsb persisted (trace out) = true ->
  exists id sentAt,
    let msg := PDirect id (socket_userId s) (socket_username s)
                       (receiverId d) (messageText d) sentAt false in
    List.filter persisted (trace out)
      = [DbQuery (InsertDirect (socket_userId s) (receiverId d)
                               (messageText d)) (Some (ResInsert id))]
    /\ (forall r h,
          receiverId d = JNum r -> userSockets (final out) !! r = Some h ->
          emits (trace out)
          = [IoToEmit h "receive_direct_message" msg;
             SocketEmit (socket_id s) "message_sent" msg])
    /\ ((forall r, receiverId d = JNum r ->
                   userSockets (final out) !! r = None) ->
        emits (trace out) = [SocketEmit (socket_id s) "message_sent" msg])
    /\ addressed (socket_id s) "message_sent" (trace out) = [msg]
    /\ result out = Ok tt
    /\ (forall r c,
          receiverId d = JNum r -> In c (connected (final out)) ->
          userSockets (final out) !! r = Some (socket_id c) ->
          socket_userId c = r
          /\ recipients (connected (final out))
               (IoToEmit (socket_id c) "receive_direct_message" msg)
             = [socket_id c]).
Proof.
  cbn zeta. intros Hr Ht Hok.
  rewrite on_send_direct_message_valid by assumption. cbn zeta.
  destruct (unavailable (db (after_await w))) eqn:Hup;
    [cbn; discriminate|].
  intros _. cbn [trace final result fst snd].
  set (w2 := with_db _ _).
  assert (Hok2 : world_ok w2)
    by (apply world_ok_with_db, world_ok_after_await, Hok).
  exists (dm_auto_increment (db (after_await w))), (clock (after_await w)).
  cbn zeta. unfold direct_delivery.
  split; [|split; [|split; [|split; [|split; [reflexivity|]]]]];
    [| | | |intros r c _ Hc Hlook; split;
            [eapply world_ok_owner; eauto
            |apply recipients_connected; assumption]].
  - destruct (lookup_socket (receiverId d) w2) as [h|];
      [destruct (negb (String.eqb h ""))|]; reflexivity.
  - intros r h Hnum Hlook. rewrite Hnum. cbn [lookup_socket].
    rewrite Hlook.
    rewrite (lookup_socket_truthy w2 (JNum r) h Hok2 Hlook). reflexivity.
  - intros Hnone.
    destruct (receiverId d) as [| | b | r | t | j] eqn:Hnum;
      cbn [lookup_socket]; try reflexivity.
    rewrite (Hnone r eq_refl). reflexivity.
  - destruct (lookup_socket (receiverId d) w2) as [h|];
      [destruct (negb (String.eqb h ""))|];
      cbn [addressed flat_map app];
      rewrite ?(bool_decide_eq_false_2
                  ("receive_direct_message" = "message_sent"))
        by discriminate;
      rewrite ?andb_false_r, !bool_decide_eq_true_2 by reflexivity;
      reflexivity.
Qed.

(** ** Typing signals *)


(** ** Validation is by truthiness *)

(** C10.  A direct send whose [receiverId] is falsy (0, the empty string,
    [null], [false]) and a group send whose [groupId] is falsy do exactly
    what they do when the field is absent: one [error] on the sender's own
    socket, no query to the store, nothing to anybody else. *)
Theorem falsy_id_rejected_as_absent
        (s : Socket) (d : Data) (w : World) (v : JsVal) :
  truthy v = false ->
  (on_send_direct_message sql_eq s (Some (with_receiverId v d)) w
     = on_send_direct_message sql_eq s
         (Some (with_receiverId JUndefined d)) w
   /\ on_send_direct_message sql_eq s (Some (with_receiverId v d)) w
     = (w, [SocketEmit (socket_id s) "error"
              (PError "Invalid message data")], Ok tt))
  /\ (on_send_group_message sql_eq s (Some (with_groupId v d)) w
       = on_send_group_message sql_eq s (Some (with_groupId JUndefined d)) w
     /\ on_send_group_message sql_eq s (Some (with_groupId v d)) w
       = (w, [SocketEmit (socket_id s) "error"
                (PError "Invalid message data")], Ok tt)).
Proof.
  intros Hv.
  rewrite !on_send_direct_message_invalid, !on_send_group_message_invalid;
    cbn [with_receiverId with_groupId receiverId groupId truthy negb orb];
    try rewrite Hv; auto.
Qed.

(** ** Group sends *)

(** C5.  A group send by somebody who is not a member of the group when
    the handler asks the store: the only event is one [error] on the
    sender's own socket, no [INSERT] is sent to the store and no other
    socket is addressed.  With a valid payload and the store answering,
    the handler asks for the membership, is told there is none, and says
    so. *)
Theorem group_send_non_member (s : Socket) (d : Data) (w : World) :
  let out := on_send_group_message sql_eq s (Some d) w in
  select_membership sql_eq (groupId d) (socket_userId s)
                    (db (after_await w)) = [] ->
  (exists m, emits (trace out)
             = [SocketEmit (socket_id s) "error" (PError m)])
  /\ (forall q r, In (DbQuery q r) (trace out) -> is_insert q = false)
  /\ List.filter is_fanout (trace out) = []
  /\ result out = Ok tt
  /\ (truthy (groupId d) = true -> truthy (messageText d) = true ->
      unavailable (db (after_await w)) = false ->
      trace out
      = [DbQuery (SelectMembership (groupId d) (socket_userId s))
                 (Some (ResRows []));
         SocketEmit (socket_id s) "error"
           (PError "You are not a member of this group")]).
Proof.
  cbn zeta. intros Hnot.
  destruct (negb (truthy (groupId d)) || negb (truthy (messageText d)))
    eqn:Hv.
  - rewrite on_send_group_message_invalid by exact Hv.
    cbn [trace result fst snd].
    split; [eexists; reflexivity|]. split.
    { intros q r [Hq | []]. discriminate. }
    split; [reflexivity|]. split; [reflexivity|].
    intros Hg Ht. rewrite Hg, Ht in Hv. discriminate.
  - apply orb_false_iff in Hv as [Hg Ht]. apply negb_false_iff in Hg, Ht.
    rewrite on_send_group_message_valid by assumption. cbn zeta.
    rewrite Hnot. cbn [length Nat.eqb].
    destruct (unavailable (db (after_await w))); cbn [trace result fst snd].
    + split; [eexists; reflexivity|]. split.
      { intros q r [Hq | [Hq | [Hq | []]]]; inversion Hq; reflexivity. }
      split; [reflexivity|]. split; [reflexivity|]. discriminate.
    + split; [eexists; reflexivity|]. split.
      { intros q r [Hq | [Hq | []]]; inversion Hq; reflexivity. }
      split; [reflexivity|]. split; [reflexivity|]. reflexivity.
Qed.

Lemma addressed_group_trace (h ev : string) (a1 a2 a3 : Sql)
      (r1 r2 r3 : option SqlResult) (l : list Action) (msg : string) :
  addressed h ev
    (DbQuery a1 r1 :: DbQuery a2 r2 :: DbQuery a3 r3
       :: l ++ [ConsoleLog msg])
  = addressed h ev l.
Proof.
  change (DbQuery a1 r1 :: DbQuery a2 r2 :: DbQuery a3 r3
            :: l ++ [ConsoleLog msg])
    with ([DbQuery a1 r1; DbQuery a2 r2; DbQuery a3 r3]
            ++ l ++ [ConsoleLog msg]).
  rewrite !addressed_app. cbn [addressed flat_map app].
  apply app_nil_r.
Qed.

(** C3.  A valid group send by a member, with the store rejecting none of
    its queries: the row is written once; every member of the group who
    is registered when the loop runs is sent exactly one
    [receive_group_message], the sender like anybody else; a member who is
    not registered is sent nothing on any connection; and the handler
    emits nothing but these.  The store lists no member twice. *)
Theorem group_send_fanout (s : Socket) (d : Data) (w : World) :
  let out := on_send_group_message sql_eq s (Some d) w in
  let members := select_members sql_eq (groupId d) (db (final out)) in
  truthy (groupId d) = true -> truthy (messageText d) = true ->
  world_ok w ->
  select_membership sql_eq (groupId d) (socket_userId s)
                    (db (after_await w)) <> [] ->
  existsb rejected (trace out) = false ->
  NoDup members ->
  exists id sentAt,
    let msg := PGroup id (groupId d) (socket_userId s) (socket_username s)
                      (messageText d) sentAt in
    List.filter persisted (trace out)
      = [DbQuery (InsertGroup (groupId d) (socket_userId s) (messageText d))
                 (Some (ResInsert id))]
    /\ (forall m h,
          In m members -> userSockets (final out) !! m = Some h ->
          addressed h "receive_group_message" (trace out) = [msg])
    /\ (forall m c,
          In m members -> userSockets (final out) !! m = None ->
          In c (connected (final out)) -> socket_userId c = m ->
          forall ev, addressed (socket_id c) ev (trace out) = [])
    /\ (forall a, In a (trace out) -> is_emit a = true ->
          exists room, a = IoToEmit room "receive_group_message" msg)
    /\ result out = Ok tt.
Proof.
  cbn zeta. intros Hg Ht Hok Hmember.
  rewrite on_send_group_message_valid by assumption. cbn zeta.
  destruct (unavailable (db (after_await w))); [cbn; discriminate|].
  destruct (select_membership sql_eq (groupId d) (socket_userId s)
              (db (after_await w))) as [|m0 ms] eqn:Hms; [contradiction|].
  cbn [length Nat.eqb].
  destruct (unavailable (db (after_await (after_await w))));
    [cbn; discriminate|].
  set (w3 := after_await (with_db _ _)).
  destruct (unavailable (db w3)); [cbn; discriminate|].
  cbn [trace final result fst snd]. intros _ Hnd.
  assert (Hok3 : world_ok w3).
  { subst w3. apply world_ok_after_await, world_ok_with_db.
    do 2 apply world_ok_after_await. exact Hok. }
  exists (gm_auto_increment (db (after_await (after_await w)))),
         (clock (after_await (after_await w))).
  cbn zeta.
  set (msg := PGroup _ _ _ _ _ _).
  set (members := select_members sql_eq (groupId d) (db w3)) in *.
  destruct (fanout_only_fanout "receive_group_message" msg members w3)
    as (_ & _ & Hpers & _).
  split.
  { cbn [List.filter persisted is_insert].
    rewrite List.filter_app, Hpers. reflexivity. }
  split.
  { intros m h Hm Hlook. rewrite addressed_group_trace.
    eapply addressed_fanout_one; eauto. }
  split.
  { intros m c Hm Hnone Hc Hu ev. rewrite addressed_group_trace.
    apply addressed_fanout_none. intros m' Hm' Hlook.
    assert (m = m') by (rewrite <- Hu; eapply world_ok_owner; eauto).
    congruence. }
  split; [|reflexivity].
  intros a Ha Hemit.
  destruct Ha as [<- | [<- | [<- | Ha]]]; try discriminate.
  apply in_app_or in Ha as [Ha | [<- | []]]; [|discriminate].
  apply In_fanout in Ha as (m & h & _ & _ & _ & ->). eauto.
Qed.

(** ** Presence *)

Lemma In_status_trace_rejected (online : bool) (s : Socket) (w : World) :
  existsb rejected (status_trace online s w) = true ->
  In (ConsoleError (if online then "Error updating online status:"
                    else "Error updating offline status:"))
     (status_trace online s w).
Proof.
  unfold status_trace. destruct (unavailable (db w)); [|discriminate].
  intros _. right. left. reflexivity.
Qed.

(** C6.  A connection [s] that registers, and a connection [c] that
    deregisters: each handler ends normally and emits exactly one event,
    the [user_status_change] of its user with [isOnline] true for the
    first and false for the second, by [io.emit].  That broadcast is handed
    to every connection that is open at that time, hence to every open
    connection the registry holds, and to [s] itself if it is still open
    (as it is when nothing else happens in between).  When every handle of
    the registry is an open connection and nothing else happens in
    between, it is handed to every handle the registry then holds.  None
    of this depends on the status write: when the store rejects it, the
    error is printed and the broadcast follows all the same.  When nothing
    else happens in between, [isOnline] says what the registry then holds
    for that user. *)
Theorem presence_broadcast (s c : Socket) (w : World) :
  world_ok w -> admissible s w = true -> In c (connected w) ->
  (let out := connect sql_eq s w in
   let ev := IoEmit "user_status_change"
               (PStatus (socket_userId s) (socket_username s) true) in
   result out = Ok tt
   /\ emits (trace out) = [ev]
   /\ (forall c', In c' (connected (final out)) ->
         In (socket_id c') (recipients (connected (final out)) ev))
   /\ (forall u c',
         userSockets (final out) !! u = Some (socket_id c') ->
         In c' (connected (final out)) ->
         socket_userId c' = u
         /\ In (socket_id c') (recipients (connected (final out)) ev))
   /\ (existsb rejected (trace out) = true ->
       In (ConsoleError "Error updating online status:") (trace out))
   /\ (pending w = [] -> registry_live w ->
       forall u h, userSockets (final out) !! u = Some h ->
                   In h (recipients (connected (final out)) ev))
   /\ (pending w = [] ->
       userSockets (final out) !! socket_userId s = Some (socket_id s)
       /\ In s (connected (final out))
       /\ In (socket_id s) (recipients (connected (final out)) ev)))
  /\ (let out := disconnect sql_eq c w in
     let ev := IoEmit "user_status_change"
                 (PStatus (socket_userId c) (socket_username c) false) in
     result out = Ok tt
     /\ emits (trace out) = [ev]
     /\ (forall c', In c' (connected (final out)) ->
           In (socket_id c') (recipients (connected (final out)) ev))
     /\ (forall u c',
           userSockets (final out) !! u = Some (socket_id c') ->
           In c' (connected (final out)) ->
           socket_userId c' = u
           /\ In (socket_id c') (recipients (connected (final out)) ev))
     /\ (existsb rejected (trace out) = true ->
         In (ConsoleError "Error updating offline status:") (trace out))
     /\ (pending w = [] -> registry_live w ->
         forall u h, userSockets (final out) !! u = Some h ->
                     In h (recipients (connected (final out)) ev))
     /\ (pending w = [] ->
         userSockets (final out) !! socket_userId c = None)).
Proof.
  intros Hok Hadm Hc. cbn zeta. unfold connect, disconnect.
  rewrite on_connection_run, on_disconnect_run. cbn zeta.
  cbn [trace final result fst snd].
  split.
  - set (w1 := after_await (register s (accept_socket s w))).
    assert (Hok1 : world_ok (listen s (status_world true s w1))).
    { apply world_ok_listen, world_ok_status_world, world_ok_after_await.
      apply world_ok_register; assumption. }
    split; [reflexivity|]. split.
    { change (ConsoleLog "User connected" :: ?l)
        with ([ConsoleLog "User connected"] ++ l).
      rewrite !emits_app, emits_status_trace. reflexivity. }
    split; [intros c' Hc'; cbn [recipients]; apply in_map; exact Hc'|].
    split.
    { intros u c' Hlook Hc'. split.
      - eapply world_ok_owner; eauto.
      - cbn [recipients]. apply in_map. exact Hc'. }
    split.
    { intros Hrej. right. apply in_or_app. left.
      apply (In_status_trace_rejected true).
      cbn [existsb rejected orb] in Hrej.
      rewrite existsb_app in Hrej. cbn [existsb rejected orb] in Hrej.
      rewrite orb_false_r in Hrej. exact Hrej. }
    destruct (listen_fields s (status_world true s w1)) as (-> & -> & _).
    destruct (status_world_fields true s w1) as (-> & -> & _).
    subst w1. split; intros Hp; rewrite after_await_quiet by exact Hp;
      cbn [register accept_socket with_userSockets with_connected userSockets
           connected recipients map].
    + intros Hlive u h Hlook.
      destruct (decide (socket_userId s = u)) as [<- | Hneq].
      * rewrite lookup_insert_eq in Hlook. inversion Hlook. left. reflexivity.
      * rewrite lookup_insert_ne in Hlook by assumption.
        right. apply (Hlive u h Hlook).
    + split; [apply lookup_insert_eq|]. split; left; reflexivity.
  - set (w1 := after_await (deregister c (drop_socket c w))).
    assert (Hok1 : world_ok (status_world false c w1)).
    { apply world_ok_status_world, world_ok_after_await.
      apply world_ok_deregister; assumption. }
    split; [reflexivity|]. split.
    { change (ConsoleLog "User disconnected" :: ?l)
        with ([ConsoleLog "User disconnected"] ++ l).
      rewrite !emits_app, emits_status_trace. reflexivity. }
    split; [intros c' Hc'; cbn [recipients]; apply in_map; exact Hc'|].
    split.
    { intros u c' Hlook Hc'. split.
      - eapply world_ok_owner; eauto.
      - cbn [recipients]. apply in_map. exact Hc'. }
    split.
    { intros Hrej. right. apply in_or_app. left.
      apply (In_status_trace_rejected false).
      cbn [existsb rejected orb] in Hrej.
      rewrite existsb_app in Hrej. cbn [existsb rejected orb] in Hrej.
      rewrite orb_false_r in Hrej. exact Hrej. }
    destruct (status_world_fields false c w1) as (-> & -> & _).
    subst w1. split; intros Hp; rewrite after_await_quiet by exact Hp.
    + intros Hlive u h Hlook.
      cbn [deregister with_userSockets userSockets] in Hlook.
      change (userSockets (drop_socket c w)) with (userSockets w) in Hlook.
      change (connected (deregister c (drop_socket c w)))
        with (connected (drop_socket c w)).
      destruct (decide (socket_userId c = u)) as [<- | Hneq].
      { rewrite lookup_delete_eq in Hlook. discriminate. }
      rewrite lookup_delete_ne in Hlook by assumption.
      cbn [recipients].
      destruct (proj1 (in_map_iff _ _ _) (Hlive u h Hlook))
        as (c' & Hid & Hc').
      rewrite <- Hid. apply in_map. apply In_drop_socket.
      split; [exact Hc'|]. intros ->. apply Hneq.
      apply (world_ok_owner w c u Hok Hc). rewrite Hid. exact Hlook.
    + cbn [deregister drop_socket with_userSockets with_connected
           with_listening with_opening userSockets].
      apply lookup_delete_eq.
Qed.

(** ** Group typing *)



(** ** Persistence comes first *)

Lemma persist_then_deliver_quiet (tr : list Action) :
  List.filter is_fanout tr = [] -> persist_then_deliver tr.
Proof.
  intros Hnone pre a post -> Ha. exfalso.
  assert (Hin : In a (List.filter is_fanout (pre ++ a :: post))).
  { apply List.filter_In. split; [|assumption].
    apply in_or_app. right. left. reflexivity. }
  rewrite Hnone in Hin. contradiction.
Qed.

Lemma persist_then_deliver_after (q : Sql) (id : Z) (msg : Payload)
      (pfx rest : list Action) :
  List.filter is_fanout pfx = [] ->
  In (DbQuery q (Some (ResInsert id))) pfx ->
  stores q id msg ->
  (forall a, In a rest -> is_fanout a = true ->
             exists room ev, a = IoToEmit room ev msg) ->
  persist_then_deliver (pfx ++ rest).
Proof.
  intros Hquiet Hins Hst Hrest pre a post Heq Ha.
  assert (Hcase : In a rest /\ In (DbQuery q (Some (ResInsert id))) pre).
  { apply List.app_eq_app in Heq as [l [[Hp Hr] | [Hp Hr]]].
    - destruct l as [|x l].
      + rewrite app_nil_r in Hp. cbn in Hr. subst. split; [left|]; auto.
      + exfalso. inversion Hr; subst x.
        assert (Hin : In a (List.filter is_fanout pfx)).
        { apply List.filter_In. split; [|assumption].
          rewrite Hp. apply in_or_app. right. left. reflexivity. }
        rewrite Hquiet in Hin. contradiction.
    - split.
      + rewrite Hr. apply in_or_app. right. left. reflexivity.
      + rewrite Hp. apply in_or_app. left. assumption. }
  destruct Hcase as [Hin Hpre].
  destruct (Hrest a Hin Ha) as (room & ev & ->).
  exists room, ev, msg, q, id. auto.
Qed.

Ltac explicit_trace :=
  cbn [trace fst snd failed_to_send];
  split;
  [ apply persist_then_deliver_quiet; reflexivity
  | intros (q & Hq & Hin); cbn [In] in Hin;
    repeat (destruct Hin as [Hin | Hin];
            [ try discriminate Hin;
              inversion Hin; subst; try discriminate Hq
            | ]);
    try contradiction;
    repeat split; reflexivity ].

Lemma direct_send_commit_point (s : Socket) (data : option Data) (w : World) :
  persist_then_deliver (trace (on_send_direct_message sql_eq s data w))
  /\ failed_persist_contained s
       (trace (on_send_direct_message sql_eq s data w)).
Proof.
  destruct data as [d|];
    [|rewrite on_send_direct_message_nullish; explicit_trace].
  destruct (negb (truthy (receiverId d)) || negb (truthy (messageText d)))
    eqn:Hv.
  { rewrite on_send_direct_message_invalid by exact Hv. explicit_trace. }
  apply orb_false_iff in Hv as [Hr Ht]. apply negb_false_iff in Hr, Ht.
  rewrite on_send_direct_message_valid by assumption. cbn zeta.
  destruct (unavailable (db (after_await w))); [explicit_trace|].
  cbn [trace fst snd].
  set (q := InsertDirect _ _ _). set (id := dm_auto_increment _).
  set (msg := PDirect _ _ _ _ _ _ _). set (w2 := with_db _ _).
  assert (Hrest : forall a, In a (direct_delivery s msg d w2) ->
            (is_fanout a = true ->
             exists room ev, a = IoToEmit room ev msg)
            /\ (forall q', a <> DbQuery q' None)).
  { intros a Ha. unfold direct_delivery in Ha.
    apply in_app_or in Ha as [Ha | [<- | [<- | []]]];
      [|split; [discriminate|congruence] ..].
    destruct (lookup_socket (receiverId d) w2) as [h|]; [|contradiction].
    destruct (negb (String.eqb h "")); [|contradiction].
    destruct Ha as [<- | []]. split; [eauto | congruence]. }
  split.
  - apply (persist_then_deliver_after q id msg [DbQuery q (Some (ResInsert id))]).
    + reflexivity.
    + left. reflexivity.
    + subst q msg. cbn [stores]. auto.
    + intros a Ha. apply Hrest. assumption.
  - intros (q' & _ & [Hin | Hin]); [discriminate|].
    exfalso. apply (Hrest _ Hin) with q'. reflexivity.
Qed.

Lemma group_send_commit_point (s : Socket) (data : option Data) (w : World) :
  persist_then_deliver (trace (on_send_group_message sql_eq s data w))
  /\ failed_persist_contained s
       (trace (on_send_group_message sql_eq s data w)).
Proof.
  destruct data as [d|];
    [|rewrite on_send_group_message_nullish; explicit_trace].
  destruct (negb (truthy (groupId d)) || negb (truthy (messageText d)))
    eqn:Hv.
  { rewrite on_send_group_message_invalid by exact Hv. explicit_trace. }
  apply orb_false_iff in Hv as [Hg Ht]. apply negb_false_iff in Hg, Ht.
  rewrite on_send_group_message_valid by assumption. cbn zeta.
  destruct (unavailable (db (after_await w))); [explicit_trace|].
  destruct (Nat.eqb _ 0); [explicit_trace|].
  destruct (unavailable (db (after_await (after_await w))));
    [explicit_trace|].
  set (w3 := after_await (with_db _ _)).
  destruct (unavailable (db w3)); [explicit_trace|].
  cbn [trace fst snd].
  set (q1 := SelectMembership _ _). set (ms := select_membership _ _ _ _).
  set (q2 := InsertGroup _ _ _). set (id := gm_auto_increment _).
  set (q3 := SelectMembers _). set (members := select_members _ _ _).
  set (msg := PGroup _ _ _ _ _ _).
  assert (Hrest : forall a,
            In a (fanout "receive_group_message" msg members w3
                    ++ [ConsoleLog "Group message"]) ->
            (is_fanout a = true ->
             exists room ev, a = IoToEmit room ev msg)
            /\ (forall q', a <> DbQuery q' None)).
  { intros a Ha. apply in_app_or in Ha as [Ha | [<- | []]];
      [|split; [discriminate|congruence]].
    apply In_fanout in Ha as (m & h & _ & _ & _ & ->).
    split; [eauto | congruence]. }
  split.
  - apply (persist_then_deliver_after q2 id msg
             [DbQuery q1 (Some (ResRows ms));
              DbQuery q2 (Some (ResInsert id));
              DbQuery q3 (Some (ResRows members))]).
    + reflexivity.
    + right. left. reflexivity.
    + subst q2 msg. cbn [stores]. auto.
    + intros a Ha. apply Hrest. assumption.
  - intros (q' & _ & [Hin | [Hin | [Hin | Hin]]]); try discriminate.
    exfalso. apply (Hrest _ Hin) with q'. reflexivity.
Qed.

(** C2.  In a direct send and in a group send alike, for any payload and
    any behaviour of the store: an event is sent to another socket only
    after the [INSERT] of the message it carries has succeeded; and when
    the [INSERT] is rejected, the handler emits one [error] on the sender's
    own socket and nothing else, with no row written. *)
Theorem persistence_is_commit_point
        (s : Socket) (data : option Data) (w : World) :
  let direct := trace (on_send_direct_message sql_eq s data w) in
  let group := trace (on_send_group_message sql_eq s data w) in
  (persist_then_deliver direct /\ failed_persist_contained s direct)
  /\ (persist_then_deliver group /\ failed_persist_contained s group).
Proof.
  split; [apply direct_send_commit_point | apply group_send_commit_point].
Qed.

End Properties.

(** * The handlers at work *)

(** A world whose registry holds, for each connected socket, its id under
    its user, and nothing else. *)
Lemma world_ok_live (w : World) :
  NoDup (map socket_id (connected w)) ->
  (forall s, In s (connected w) -> socket_id s <> "") ->
  (forall u h, userSockets w !! u = Some h ->
     exists s, In s (connected w) /\ socket_id s = h /\ socket_userId s = u) ->
  world_ok w.
Proof.
  intros Hnd Hne Hreg.
  assert (Hsame : forall a b, In a (connected w) -> In b (connected w) ->
                              socket_id a = socket_id b -> a = b).
  { clear - Hnd. induction (connected w) as [|x l IH]; [intros a b []|].
    simpl in Hnd. apply NoDup_cons in Hnd as [Hnotin Hnd].
    rewrite list_elem_of_In in Hnotin.
    intros a b [-> | Ha] [-> | Hb] Heq; auto.
    - exfalso. apply Hnotin. rewrite Heq. apply in_map. assumption.
    - exfalso. apply Hnotin. rewrite <- Heq. apply in_map. assumption. }
  split; [exact Hnd|]. split; [exact Hne|]. split; [|split].
  - intros u h Hlook. destruct (Hreg u h Hlook) as (s & Hs & <- & _). auto.
  - intros u v h Hu Hv.
    destruct (Hreg u h Hu) as (a & Ha & Haid & <-).
    destruct (Hreg v h Hv) as (b & Hb & Hbid & <-).
    rewrite (Hsame a b Ha Hb) by congruence. reflexivity.
  - intros c u Hc Hlook.
    destruct (Hreg u _ Hlook) as (a & Ha & Haid & <-).
    rewrite (Hsame a c Ha Hc Haid). reflexivity.
Qed.

Lemma world_ok_w_two : world_ok w_two.
Proof.
  apply world_ok_live.
  - apply (bool_decide_unpack _). vm_compute. exact I.
  - intros c [<- | [<- | []]]; discriminate.
  - intros u h Hlook. unfold w_two in *. cbn [userSockets connected] in *.
    destruct (decide (u = 2)) as [-> | H2].
    { rewrite lookup_insert_eq in Hlook. inversion Hlook. exists bob.
      cbn. auto. }
    rewrite lookup_insert_ne in Hlook by congruence.
    destruct (decide (u = 1)) as [-> | H1].
    { rewrite lookup_insert_eq in Hlook. inversion Hlook. exists alice.
      cbn. auto. }
    rewrite lookup_insert_ne, lookup_empty in Hlook by congruence.
    discriminate.
Qed.

Lemma world_ok_w_two_down : world_ok w_two_down.
Proof. exact world_ok_w_two. Qed.

(** User 1 sends "hi" to user 2, who is online. *)
Example direct_send_online :
  trace (on_send_direct_message sql_eq_num alice (Some (hi_to (JNum 2))) w_two)
  = [DbQuery (InsertDirect 1 (JNum 2) (JStr "hi")) (Some (ResInsert 1));
     IoToEmit "h3" "receive_direct_message"
       (PDirect 1 1 "alice" (JNum 2) (JStr "hi") 0 false);
     SocketEmit "h1" "message_sent"
       (PDirect 1 1 "alice" (JNum 2) (JStr "hi") 0 false);
     ConsoleLog "Direct message"].
Proof. vm_compute. reflexivity. Qed.

(** User 1 sends "hi" to user 3, who is offline: the row is written with
    [isRead] false, and only the confirmation is emitted. *)
Example direct_send_offline :
  trace (on_send_direct_message sql_eq_num alice (Some (hi_to (JNum 3))) w_two)
  = [DbQuery (InsertDirect 1 (JNum 3) (JStr "hi")) (Some (ResInsert 1));
     SocketEmit "h1" "message_sent"
       (PDirect 1 1 "alice" (JNum 3) (JStr "hi") 0 false);
     ConsoleLog "Direct message"].
Proof. vm_compute. reflexivity. Qed.

(** The same send with the store down. *)
Example direct_send_store_down :
  trace (on_send_direct_message sql_eq_num alice (Some (hi_to (JNum 2)))
           w_two_down)
  = [DbQuery (InsertDirect 1 (JNum 2) (JStr "hi")) None;
     ConsoleError "Error sending direct message:";
     SocketEmit "h1" "error" (PError "Failed to send message")].
Proof. vm_compute. reflexivity. Qed.

(** User 1 sends "hi" to group 10, whose members are 1, 2 and 3. *)
Example group_send_two_online :
  trace (on_send_group_message sql_eq_num alice (Some (hi_group (JNum 10)))
           w_two)
  = [DbQuery (SelectMembership (JNum 10) 1) (Some (ResRows [1]));
     DbQuery (InsertGroup (JNum 10) 1 (JStr "hi")) (Some (ResInsert 1));
     DbQuery (SelectMembers (JNum 10)) (Some (ResRows [1; 2; 3]));
     IoToEmit "h1" "receive_group_message"
       (PGroup 1 (JNum 10) 1 "alice" (JStr "hi") 0);
     IoToEmit "h3" "receive_group_message"
       (PGroup 1 (JNum 10) 1 "alice" (JStr "hi") 0);
     ConsoleLog "Group message"].
Proof. vm_compute. reflexivity. Qed.

(** The store goes down between the [INSERT] of a group message and the
    listing of the members: the row is written, nobody is sent the message
    and the sender is told the send failed. *)
Example group_send_listing_fails :
  trace (on_send_group_message sql_eq_num alice (Some (hi_group (JNum 10)))
           (with_pending [[]; []; [EnvDb db_down]] w_two))
  = [DbQuery (SelectMembership (JNum 10) 1) (Some (ResRows [1]));
     DbQuery (InsertGroup (JNum 10) 1 (JStr "hi")) (Some (ResInsert 1));
     DbQuery (SelectMembers (JNum 10)) None;
     ConsoleError "Error sending group message:";
     SocketEmit "h1" "error" (PError "Failed to send message")].
Proof. vm_compute. reflexivity. Qed.

(** Bob connects and closes elsewhere.  If his [connection] handler got
    past its [await] first, his [disconnect] listener deletes his entry;
    if it did not, nothing does. *)
Example elsewhere_connection_closes :
  userSockets
    (env_batch [EnvConnect bob; EnvListen bob; EnvDisconnect bob] w_empty)
  !! 2 = None
  /\ userSockets (env_batch [EnvConnect bob; EnvDisconnect bob] w_empty) !! 2
     = Some "h3"
  /\ connected (env_batch [EnvConnect bob; EnvDisconnect bob] w_empty) = [].
Proof. vm_compute. repeat split; reflexivity. Qed.

(** A typing signal without a payload object: the handler throws, and
    nothing catches it. *)
Example typing_direct_nullish (s : Socket) (w : World) :
  on_typing_direct s None w = (w, [], Throw "TypeError").
Proof. reflexivity. Qed.

Lemma world_ok_w_three : world_ok w_three.
Proof.
  apply world_ok_live.
  - apply (bool_decide_unpack _). vm_compute. exact I.
  - intros c [<- | [<- | [<- | []]]]; discriminate.
  - intros u h Hlook. unfold w_three in *. cbn [userSockets connected] in *.
    destruct (decide (u = 4)) as [-> | H4].
    { rewrite lookup_insert_eq in Hlook. inversion Hlook. exists dave.
      cbn. auto. }
    rewrite lookup_insert_ne in Hlook by congruence.
    destruct (decide (u = 2)) as [-> | H2].
    { rewrite lookup_insert_eq in Hlook. inversion Hlook. exists bob.
      cbn. auto. }
    rewrite lookup_insert_ne in Hlook by congruence.
    destruct (decide (u = 1)) as [-> | H1].
    { rewrite lookup_insert_eq in Hlook. inversion Hlook. exists alice.
      cbn. auto. }
    rewrite lookup_insert_ne, lookup_empty in Hlook by congruence.
    discriminate.
Qed.



Lemma direct_send_invalid_payload_witness :
  messageText (mkData (JNum 2) JUndefined (JStr "") JUndefined) = JStr ""
  /\ on_send_direct_message sql_eq_num alice
       (Some (mkData (JNum 2) JUndefined (JStr "") JUndefined)) w_two
     = (w_two,
        [SocketEmit "h1" "error" (PError "Invalid message data")], Ok tt).
Proof.
  split; [reflexivity|].
  exact (direct_send_invalid_payload sql_eq_num alice
           (mkData (JNum 2) JUndefined (JStr "") JUndefined) w_two
           (or_intror (or_intror eq_refl))).
Defined.

Lemma direct_send_delivery_witness :
  truthy (receiverId (hi_to (JNum 2))) = true
  /\ truthy (messageText (hi_to (JNum 2))) = true
  /\ world_ok w_two
  /\ existsb persisted
       (trace (on_send_direct_message sql_eq_num alice
                 (Some (hi_to (JNum 2))) w_two)) = true
  /\ existsb persisted
       (trace (on_send_direct_message sql_eq_num alice
                 (Some (hi_to (JNum 3))) w_two)) = true
  /\ (exists id sentAt,
        emits (trace (on_send_direct_message sql_eq_num alice
                        (Some (hi_to (JNum 2))) w_two))
        = [IoToEmit "h3" "receive_direct_message"
             (PDirect id 1 "alice" (JNum 2) (JStr "hi") sentAt false);
           SocketEmit "h1" "message_sent"
             (PDirect id 1 "alice" (JNum 2) (JStr "hi") sentAt false)])
  /\ (exists id sentAt,
        emits (trace (on_send_direct_message sql_eq_num alice
                        (Some (hi_to (JNum 3))) w_two))
        = [SocketEmit "h1" "message_sent"
             (PDirect id 1 "alice" (JNum 3) (JStr "hi") sentAt false)]).
Proof.
  split; [reflexivity|]. split; [reflexivity|].
  split; [exact world_ok_w_two|]. split; [reflexivity|].
  split; [reflexivity|]. split.
  - destruct (direct_send_delivery sql_eq_num alice (hi_to (JNum 2)) w_two
                eq_refl eq_refl world_ok_w_two eq_refl)
      as (id & sentAt & _ & Hthere & _).
    exists id, sentAt. exact (Hthere 2 "h3" eq_refl eq_refl).
  - destruct (direct_send_delivery sql_eq_num alice (hi_to (JNum 3)) w_two
                eq_refl eq_refl world_ok_w_two eq_refl)
      as (id & sentAt & _ & _ & Habsent & _).
    exists id, sentAt. apply Habsent.
    intros r Hr. inversion Hr; subst r. reflexivity.
Defined.


Lemma falsy_id_rejected_as_absent_witness :
  truthy (JNum 0) = false
  /\ on_send_direct_message sql_eq_num alice
       (Some (with_receiverId (JNum 0) (hi_to (JNum 2)))) w_two
     = on_send_direct_message sql_eq_num alice
         (Some (with_receiverId JUndefined (hi_to (JNum 2)))) w_two.
Proof.
  split; [reflexivity|].
  exact (proj1 (proj1 (falsy_id_rejected_as_absent sql_eq_num alice
                         (hi_to (JNum 2)) w_two (JNum 0) eq_refl))).
Defined.

Lemma group_send_non_member_witness :
  select_membership sql_eq_num (groupId (hi_group (JNum 10)))
                    (socket_userId dave) (db (after_await w_three)) = []
  /\ trace (on_send_group_message sql_eq_num dave
              (Some (hi_group (JNum 10))) w_three)
     = [DbQuery (SelectMembership (JNum 10) 4) (Some (ResRows []));
        SocketEmit "h4" "error"
          (PError "You are not a member of this group")].
Proof.
  split; [reflexivity|].
  exact (proj2 (proj2 (proj2 (proj2
           (group_send_non_member sql_eq_num dave (hi_group (JNum 10))
              w_three eq_refl))))
           eq_refl eq_refl eq_refl).
Defined.

Lemma group_send_fanout_witness :
  truthy (groupId (hi_group (JNum 10))) = true
  /\ truthy (messageText (hi_group (JNum 10))) = true
  /\ world_ok w_two
  /\ select_membership sql_eq_num (groupId (hi_group (JNum 10)))
                       (socket_userId alice) (db (after_await w_two)) <> []
  /\ existsb rejected
       (trace (on_send_group_message sql_eq_num alice
                 (Some (hi_group (JNum 10))) w_two)) = false
  /\ NoDup (select_members sql_eq_num (groupId (hi_group (JNum 10)))
              (db (final (on_send_group_message sql_eq_num alice
                            (Some (hi_group (JNum 10))) w_two))))
  /\ exists id sentAt,
       addressed "h3" "receive_group_message"
         (trace (on_send_group_message sql_eq_num alice
                   (Some (hi_group (JNum 10))) w_two))
       = [PGroup id (JNum 10) 1 "alice" (JStr "hi") sentAt].
Proof.
  assert (Hmember :
            select_membership sql_eq_num (groupId (hi_group (JNum 10)))
              (socket_userId alice) (db (after_await w_two)) <> [])
    by (vm_compute; discriminate).
  assert (Hnd :
            NoDup (select_members sql_eq_num (groupId (hi_group (JNum 10)))
              (db (final (on_send_group_message sql_eq_num alice
                            (Some (hi_group (JNum 10))) w_two)))))
    by (apply (bool_decide_unpack _); vm_compute; exact I).
  split; [reflexivity|]. split; [reflexivity|].
  split; [exact world_ok_w_two|]. split; [exact Hmember|].
  split; [reflexivity|]. split; [exact Hnd|].
  destruct (group_send_fanout sql_eq_num alice (hi_group (JNum 10)) w_two
              eq_refl eq_refl world_ok_w_two Hmember eq_refl Hnd)
    as (id & sentAt & _ & Hto & _).
  exists id, sentAt.
  apply (Hto 2 "h3"); [right; left; reflexivity | reflexivity].
Defined.

Lemma registry_live_w_two : registry_live w_two.
Proof.
  intros u h Hlook. unfold w_two in *. cbn [userSockets connected map] in *.
  destruct (decide (u = 2)) as [-> | H2].
  { rewrite lookup_insert_eq in Hlook. inversion Hlook. left. reflexivity. }
  rewrite lookup_insert_ne in Hlook by congruence.
  destruct (decide (u = 1)) as [-> | H1].
  { rewrite lookup_insert_eq in Hlook. inversion Hlook. right. left.
    reflexivity. }
  rewrite lookup_insert_ne, lookup_empty in Hlook by congruence.
  discriminate.
Qed.

Lemma presence_broadcast_witness :
  world_ok w_two /\ admissible alice2 w_two = true
  /\ In bob (connected w_two)
  /\ pending w_two = [] /\ registry_live w_two
  /\ emits (trace (connect sql_eq_num alice2 w_two))
     = [IoEmit "user_status_change" (PStatus 1 "alice" true)]
  /\ In "h3"
       (recipients (connected (final (connect sql_eq_num alice2 w_two)))
          (IoEmit "user_status_change" (PStatus 1 "alice" true)))
  /\ In "h2"
       (recipients (connected (final (connect sql_eq_num alice2 w_two)))
          (IoEmit "user_status_change" (PStatus 1 "alice" true)))
  /\ emits (trace (disconnect sql_eq_num bob w_two_down))
     = [IoEmit "user_status_change" (PStatus 2 "bob" false)].
Proof.
  split; [exact world_ok_w_two|]. split; [reflexivity|].
  split; [left; reflexivity|]. split; [reflexivity|].
  split; [exact registry_live_w_two|].
  destruct (presence_broadcast sql_eq_num alice2 bob w_two
              world_ok_w_two eq_refl (or_introl eq_refl))
    as [(_ & Hemit & _ & _ & _ & Hlive & Hquiet) _].
  split; [exact Hemit|]. split.
  { apply (Hlive eq_refl registry_live_w_two 2 "h3"). vm_compute. reflexivity. }
  split.
  { exact (proj2 (proj2 (Hquiet eq_refl))). }
  exact (proj1 (proj2 (proj2
           (presence_broadcast sql_eq_num alice2 bob w_two_down
              world_ok_w_two_down eq_refl (or_introl eq_refl))))).
Defined.


(** Alice types in group 10: Bob, the only other member online, is told;
    with the store down, nobody is, and Alice is not told either. *)
Example typing_group_two_online :
  trace (on_typing_group sql_eq_num alice (Some (typing_in (JNum 10))) w_two)
  = [DbQuery (SelectMembersExcept (JNum 10) 1) (Some (ResRows [2; 3]));
     IoToEmit "h3" "user_typing_group"
       (PTypingGroup (JNum 10) 1 "alice" (JBool true))]
  /\ trace (on_typing_group sql_eq_num alice (Some (typing_in (JNum 10)))
              w_two_down)
     = [DbQuery (SelectMembersExcept (JNum 10) 1) None;
        ConsoleError "Error handling typing indicator:"].
Proof. split; vm_compute; reflexivity. Qed.

(** * More about the handlers *)

(** ** What the calls of a handler have in common *)

Section TraceAll.

Context {P : Action -> Prop}.

Lemma trace_all_ret {A} (a : A) : trace_all P (mret a : Handler A).
Proof. intros w x []. Qed.

Lemma trace_all_throw {A} (e : string) : trace_all P (throw e : Handler A).
Proof. intros w x []. Qed.

Lemma trace_all_get (k : JsVal) : trace_all P (userSockets_get k).
Proof. intros w x []. Qed.

Lemma trace_all_date : trace_all P date_now.
Proof. intros w x []. Qed.

Lemma trace_all_modify (f : World -> World) : trace_all P (modify f).
Proof. intros w x []. Qed.

Lemma trace_all_destructure (data : option Data) :
  trace_all P (destructure data).
Proof. destruct data; intros w x []. Qed.

Lemma trace_all_call (a : Action) : P a -> trace_all P (call a).
Proof. intros Ha w x [<- | []]. exact Ha. Qed.

Lemma trace_all_io_to_emit (o : option string) (ev : string) (p : Payload) :
  (forall room, P (IoToEmit room ev p)) -> trace_all P (io_to_emit o ev p).
Proof.
  intros Ha. destruct o as [room|]; cbn [io_to_emit].
  - apply trace_all_call, Ha.
  - apply trace_all_ret.
Qed.

Lemma trace_all_bind {A B} (m : Handler A) (k : A -> Handler B) :
  trace_all P m -> (forall a, trace_all P (k a)) -> trace_all P (m ≫= k).
Proof.
  intros Hm Hk w x. rewrite bind_run.
  specialize (Hm w). unfold trace in *.
  destruct (m w) as [[w1 t1] [a|e]]; cbn [fst snd] in *; [|apply Hm].
  specialize (Hk a w1). unfold trace in Hk.
  destruct (k a w1) as [[w2 t2] r]. cbn [fst snd] in *.
  intros Hin. apply in_app_or in Hin as [Hin | Hin]; auto.
Qed.

Lemma trace_all_try_catch {A} (body : Handler A) (h : string -> Handler A) :
  trace_all P body -> (forall e, trace_all P (h e)) ->
  trace_all P (try_catch body h).
Proof.
  intros Hm Hk w x. rewrite try_catch_run.
  specialize (Hm w). unfold trace in *.
  destruct (body w) as [[w1 t1] [a|e]]; cbn [fst snd] in *; [apply Hm|].
  specialize (Hk e w1). unfold trace in Hk.
  destruct (h e w1) as [[w2 t2] r]. cbn [fst snd] in *.
  intros Hin. apply in_app_or in Hin as [Hin | Hin]; auto.
Qed.

Lemma trace_all_forEach {A} (l : list A) (f : A -> Handler unit) :
  (forall x, trace_all P (f x)) -> trace_all P (forEach l f).
Proof.
  intros Hf. induction l as [|x l IH]; cbn [forEach].
  - apply trace_all_ret.
  - apply trace_all_bind; [apply Hf | intros _; exact IH].
Qed.

Lemma trace_all_db_query (sql_eq : Z -> JsVal -> bool) (q : Sql) :
  (forall r, P (DbQuery q r)) -> trace_all P (db_query sql_eq q).
Proof.
  intros Hq w x. rewrite db_query_run.
  destruct (unavailable (db (after_await w))); unfold trace; cbn [fst snd];
    intros [<- | []]; apply Hq.
Qed.

End TraceAll.

Ltac traces :=
  repeat first
    [ apply trace_all_bind; [|intros ?]
    | apply trace_all_try_catch; [|intros ?]
    | apply trace_all_forEach; intros ?
    | match goal with
      | |- trace_all _ (if ?b then _ else _) => destruct b
      | |- trace_all _ (let _ := _ in _) => cbn zeta
      end
    | apply trace_all_ret | apply trace_all_throw | apply trace_all_get
    | apply trace_all_date | apply trace_all_modify
    | apply trace_all_destructure
    | apply trace_all_io_to_emit; intros ?
    | apply trace_all_db_query; intros ?
    | apply trace_all_call ].

Section MoreProperties.

Variable sql_eq : Z -> JsVal -> bool.

Lemma error_on_own_socket_other (s : Socket) (a : Action) :
  event_of a <> Some "error" -> error_on_own_socket s a.
Proof. intros Hne Heq. contradiction. Qed.

Ltac own_errors :=
  unfold socket_emit, console_log, console_error, io_emit;
  traces;
  first [ apply error_on_own_socket_other; cbn [event_of]; congruence
        | intros _; eexists; reflexivity ].

(** X5.  Whatever is fired, with whatever payload, and whatever the store
    does: an [error] event is only ever emitted on the socket the handler
    runs for, never to a room and never to everybody. *)
Theorem errors_stay_on_own_socket (e : Inbound) :
  trace_all (error_on_own_socket (socket_of e)) (dispatch sql_eq e).
Proof.
  destruct e as [s | s | s data | s data | s data | s data];
    cbn [dispatch socket_of].
  - assert (H : trace_all (error_on_own_socket s) (on_connection sql_eq s))
      by (unfold on_connection; own_errors).
    intros w. apply H.
  - assert (H : trace_all (error_on_own_socket s) (on_disconnect sql_eq s))
      by (unfold on_disconnect; own_errors).
    intros w. apply H.
  - unfold on_send_direct_message. own_errors.
  - unfold on_send_group_message. own_errors.
  - unfold on_typing_direct. own_errors.
  - unfold on_typing_group. own_errors.
Qed.

(** X4.  No handler lets an exception out, whatever the payload and the
    store, with one exception: [typing_direct] with no payload object
    throws, having done nothing. *)
Theorem handlers_contain_exceptions (e : Inbound) (w : World) :
  result (dispatch sql_eq e w)
  = match e with
    | TypingDirect _ None => Throw "TypeError"
    | _ => Ok tt
    end.
Proof.
  assert (Hcatch : forall (body : Handler unit) (h : string -> Handler unit),
             (forall x w', result (h x w') = Ok tt) ->
             (forall w', result (body w') = Ok tt
                         \/ exists x, result (body w') = Throw x) ->
             result (try_catch body h w) = Ok tt).
  { intros body h Hh Hb. rewrite try_catch_run.
    specialize (Hb w). unfold result in *.
    destruct (body w) as [[w1 t1] [[]|x]]; cbn [snd] in *; [reflexivity|].
    specialize (Hh x w1). destruct (h x w1) as [[w2 t2] r]. exact Hh. }
  assert (Hany : forall (body : Handler unit) w',
             result (body w') = Ok tt \/ exists x, result (body w') = Throw x).
  { intros body w'. destruct (result (body w')) as [[]|x]; eauto. }
  destruct e as [s | s | s data | s data | s [d|] | s data];
    cbn [dispatch].
  - unfold connect. rewrite on_connection_run. reflexivity.
  - unfold disconnect. rewrite on_disconnect_run. reflexivity.
  - apply Hcatch; [reflexivity | apply Hany].
  - apply Hcatch; [reflexivity | apply Hany].
  - rewrite on_typing_direct_run. reflexivity.
  - reflexivity.
  - apply Hcatch; [reflexivity | apply Hany].
Qed.

(** X3.  A group send whose listing of the members is rejected by the
    store: the message row has been written by then, nobody is sent the
    message, and the sender is told that the send failed. *)
Theorem group_send_listing_rejected (s : Socket) (d : Data) (w : World) :
  let out := on_send_group_message sql_eq s (Some d) w in
  In (DbQuery (SelectMembers (groupId d)) None) (trace out) ->
  exists id,
    List.filter persisted (trace out)
    = [DbQuery (InsertGroup (groupId d) (socket_userId s) (messageText d))
               (Some (ResInsert id))]
    /\ emits (trace out)
      = [SocketEmit (socket_id s) "error" (PError "Failed to send message")]
    /\ result out = Ok tt.
Proof.
  cbn zeta.
  destruct (negb (truthy (groupId d)) || negb (truthy (messageText d)))
    eqn:Hv.
  { rewrite on_send_group_message_invalid by exact Hv.
    intros [Hin | []]. discriminate. }
  apply orb_false_iff in Hv as [Hg Ht]. apply negb_false_iff in Hg, Ht.
  rewrite on_send_group_message_valid by assumption. cbn zeta.
  destruct (unavailable (db (after_await w))).
  { intros [Hin | [Hin | [Hin | []]]]; discriminate. }
  destruct (Nat.eqb _ 0).
  { intros [Hin | [Hin | []]]; discriminate. }
  destruct (unavailable (db (after_await (after_await w)))).
  { intros [Hin | [Hin | [Hin | [Hin | []]]]]; discriminate. }
  set (w3 := after_await (with_db _ _)).
  destruct (unavailable (db w3)).
  { intros _. eexists. cbn. repeat split; reflexivity. }
  cbn [trace fst snd].
  intros [Hin | [Hin | [Hin | Hin]]]; try discriminate.
  exfalso. apply in_app_or in Hin as [Hin | [Hin | []]]; [|discriminate].
  apply In_fanout in Hin as (m & h & _ & _ & _ & Heq). discriminate.
Qed.

Lemma filter_absent (s : Socket) (l : list Socket) :
  ~ In s l -> List.filter (fun c => negb (bool_decide (c = s))) l = l.
Proof.
  induction l as [|c l IH]; [reflexivity|].
  intros Hnot. cbn [List.filter].
  rewrite bool_decide_eq_false_2
    by (intros ->; apply Hnot; left; reflexivity).
  cbn [negb]. f_equal. apply IH. intros Hin. apply Hnot. right. exact Hin.
Qed.

(** X6.  A connection that comes and goes, with nothing else happening:
    the connected sockets are as before, the entry of its user is gone
    (also an entry an earlier connection of that user had made), and the
    entries of all other users are untouched. *)
Theorem connect_disconnect_round_trip (s : Socket) (w : World) :
  pending w = [] -> ~ In s (connected w) ->
  let w2 := final (disconnect sql_eq s (final (connect sql_eq s w))) in
  connected w2 = connected w
  /\ userSockets w2 = delete (socket_userId s) (userSockets w)
  /\ (forall u, u <> socket_userId s ->
        userSockets w2 !! u = userSockets w !! u).
Proof.
  intros Hp Hnew. cbn zeta. unfold connect, disconnect.
  rewrite on_connection_run, on_disconnect_run. cbn zeta.
  unfold final. cbn [fst].
  set (x1 := listen s (status_world true s
                         (after_await (register s (accept_socket s w))))).
  assert (Hx1 : pending x1 = [] /\ connected x1 = s :: connected w
                /\ userSockets x1
                   = <[socket_userId s := socket_id s]> (userSockets w)).
  { subst x1. destruct (listen_fields s (status_world true s
      (after_await (register s (accept_socket s w))))) as (-> & -> & _ & ->).
    destruct (status_world_fields true s
      (after_await (register s (accept_socket s w)))) as (Hm & Hc & Hq).
    rewrite Hm, Hc, Hq, after_await_quiet by exact Hp. auto. }
  destruct Hx1 as (Hp1 & Hc1 & Hm1).
  destruct (status_world_fields false s
    (after_await (deregister s (drop_socket s x1)))) as (Hm & Hc & _).
  rewrite Hm, Hc, after_await_quiet by exact Hp1.
  cbn [deregister drop_socket with_userSockets with_connected with_listening
       with_opening userSockets connected].
  rewrite Hc1, Hm1, delete_insert_eq.
  assert (Hconn : List.filter (fun c => negb (bool_decide (c = s)))
                    (s :: connected w) = connected w).
  { cbn [List.filter]. rewrite bool_decide_eq_true_2 by reflexivity.
    cbn [negb]. apply filter_absent. exact Hnew. }
  split; [exact Hconn|]. split; [reflexivity|].
  intros u Hu. apply lookup_delete_ne. congruence.
Qed.

Lemma addressed_direct_delivery (s : Socket) (msg : Payload) (d : Data)
      (w : World) (h : string) :
  lookup_socket (receiverId d) w <> Some h ->
  addressed h "receive_direct_message" (direct_delivery s msg d w) = [].
Proof.
  intros Hne. unfold direct_delivery. rewrite addressed_app.
  cbn [addressed flat_map app].
  rewrite (bool_decide_eq_false_2
             ("message_sent" = "receive_direct_message")) by discriminate.
  rewrite andb_false_r.
  destruct (lookup_socket (receiverId d) w) as [h0|]; [|reflexivity].
  destruct (negb (String.eqb h0 "")); [|reflexivity].
  cbn [addressed flat_map app].
  rewrite (bool_decide_eq_false_2 (h0 = h)) by congruence.
  reflexivity.
Qed.

(** X7.  Live delivery follows the registry and nothing else.  A socket
    that is not the handle registered for [receiverId] when the lookup is
    made is sent no [receive_direct_message], whatever the payload and the
    store; so a connection superseded by a newer one of the same user is
    sent none, and a [receiverId] that is not a number (the digits of a
    user id as a string, say) reaches nobody.  A socket that is not the
    registered handle of a listed member is sent no
    [receive_group_message]. *)
Theorem live_delivery_follows_registry
        (s : Socket) (data : option Data) (w : World) (h : string) :
  let direct := on_send_direct_message sql_eq s data w in
  let group := on_send_group_message sql_eq s data w in
  (forall d, data = Some d ->
     lookup_socket (receiverId d) (final direct) <> Some h ->
     addressed h "receive_direct_message" (trace direct) = [])
  /\ (forall d, data = Some d ->
      (forall n, receiverId d <> JNum n) ->
      addressed h "receive_direct_message" (trace direct) = [])
  /\ (forall d, data = Some d ->
      (forall m, In m (select_members sql_eq (groupId d) (db (final group))) ->
                 userSockets (final group) !! m <> Some h) ->
      addressed h "receive_group_message" (trace group) = []).
Proof.
  cbn zeta.
  assert (Hdirect : forall d, data = Some d ->
            lookup_socket (receiverId d)
              (final (on_send_direct_message sql_eq s data w)) <> Some h ->
            addressed h "receive_direct_message"
              (trace (on_send_direct_message sql_eq s data w)) = []).
  { intros d -> .
    destruct (negb (truthy (receiverId d)) || negb (truthy (messageText d)))
      eqn:Hv.
    { rewrite on_send_direct_message_invalid by exact Hv. intros _.
      cbn [trace fst snd addressed flat_map app].
      rewrite (bool_decide_eq_false_2 ("error" = "receive_direct_message"))
        by discriminate.
      rewrite andb_false_r. reflexivity. }
    apply orb_false_iff in Hv as [Hr Ht]. apply negb_false_iff in Hr, Ht.
    rewrite on_send_direct_message_valid by assumption. cbn zeta.
    destruct (unavailable (db (after_await w))); cbn [trace final fst snd].
    { intros _. cbn [failed_to_send addressed flat_map app].
      rewrite (bool_decide_eq_false_2 ("error" = "receive_direct_message"))
        by discriminate.
      rewrite andb_false_r. reflexivity. }
    intros Hne. cbn [addressed flat_map app].
    apply (addressed_direct_delivery s _ d _ h Hne). }
  split; [exact Hdirect|]. split.
  - intros d Hd Hnum. apply (Hdirect d Hd).
    destruct (receiverId d) eqn:Hr; cbn [lookup_socket]; try discriminate.
    exfalso. eapply Hnum. reflexivity.
  - intros d ->.
    destruct (negb (truthy (groupId d)) || negb (truthy (messageText d)))
      eqn:Hv.
    { rewrite on_send_group_message_invalid by exact Hv. intros _.
      cbn [trace fst snd addressed flat_map app].
      rewrite (bool_decide_eq_false_2 ("error" = "receive_group_message"))
        by discriminate.
      rewrite andb_false_r. reflexivity. }
    apply orb_false_iff in Hv as [Hg Ht]. apply negb_false_iff in Hg, Ht.
    rewrite on_send_group_message_valid by assumption. cbn zeta.
    assert (Herr : forall l,
              addressed h "receive_group_message"
                (l ++ failed_to_send s "Error sending group message:")
              = addressed h "receive_group_message" l).
    { intros l. rewrite addressed_app.
      cbn [failed_to_send addressed flat_map app].
      rewrite (bool_decide_eq_false_2 ("error" = "receive_group_message"))
        by discriminate.
      rewrite andb_false_r. apply app_nil_r. }
    destruct (unavailable (db (after_await w))).
    { intros _. apply (Herr [DbQuery _ None]). }
    destruct (Nat.eqb _ 0).
    { intros _. cbn [trace fst snd addressed flat_map app].
      rewrite (bool_decide_eq_false_2 ("error" = "receive_group_message"))
        by discriminate.
      rewrite andb_false_r. reflexivity. }
    destruct (unavailable (db (after_await (after_await w)))).
    { intros _. apply (Herr [DbQuery _ _; DbQuery _ None]). }
    set (w3 := after_await (with_db _ _)).
    destruct (unavailable (db w3)).
    { intros _. apply (Herr [DbQuery _ _; DbQuery _ _; DbQuery _ None]). }
    cbn [trace final fst snd]. intros Hnone.
    rewrite addressed_group_trace.
    apply addressed_fanout_none. exact Hnone.
Qed.

(** X8.  The typing relays write nothing: [typing_direct] sends no query
    at all, the only query of [typing_group] is a [SELECT], and with
    nothing else happening the store is after either of them what it was
    before. *)
Theorem typing_relays_only_read (s : Socket) (data : option Data) (w : World) :
  (forall q r, ~ In (DbQuery q r) (trace (on_typing_direct s data w)))
  /\ (forall a, In a (trace (on_typing_group sql_eq s data w)) -> only_reads a)
  /\ (pending w = [] ->
      db (final (on_typing_direct s data w)) = db w
      /\ db (final (on_typing_group sql_eq s data w)) = db w).
Proof.
  split; [|split].
  - intros q r.
    assert (H : trace_all (fun a => a <> DbQuery q r)
                  (on_typing_direct s data)).
    { unfold on_typing_direct. traces; congruence. }
    intros Hin. apply (H w _ Hin). reflexivity.
  - assert (H : trace_all only_reads (on_typing_group sql_eq s data)).
    { unfold on_typing_group, console_error. traces; exact I || reflexivity. }
    apply H.
  - intros Hp. destruct data as [d|].
    + rewrite on_typing_direct_run, on_typing_group_run. cbn zeta.
      rewrite after_await_quiet by exact Hp.
      destruct (unavailable (db w)); split; reflexivity.
    + split; reflexivity.
Qed.

Lemma update_online_users (online : bool) (u now : Z) (d : Db) :
  map u_user_id (Users (update_online online u now d))
  = map u_user_id (Users d)
  /\ (forall r, In r (Users (update_online online u now d)) ->
       (u_user_id r <> u -> In r (Users d))
       /\ (u_user_id r = u -> u_is_online r = online)).
Proof.
  unfold update_online. cbn [Users]. split.
  - rewrite map_map. apply map_ext. intros r.
    destruct (Z.eqb (u_user_id r) u); reflexivity.
  - intros r Hin. apply in_map_iff in Hin as (r0 & <- & Hin).
    destruct (Z.eqb_spec (u_user_id r0) u) as [Heq | Hne]; cbn [u_user_id
      u_is_online]; split; intros; try contradiction; auto.
Qed.

(** X10.  [connection] and [disconnect] send the store one statement, the
    update of the online status of their own user.  With nothing else
    happening, the message tables and the memberships are after the
    handler what they were before, the user table has the same users in the
    same order, the rows of other users are untouched, and, if the store
    took the update, the rows of the user say online after [connection] and
    offline after [disconnect]. *)
Theorem presence_only_writes_status (online : bool) (s : Socket) (w : World) :
  let out :=
    (if online then connect sql_eq s else disconnect sql_eq s) w in
  (forall q r, In (DbQuery q r) (trace out) ->
               q = UpdateOnline online (socket_userId s))
  /\ (pending w = [] ->
      DirectMessages (db (final out)) = DirectMessages (db w)
      /\ GroupMessages (db (final out)) = GroupMessages (db w)
      /\ GroupMembers (db (final out)) = GroupMembers (db w)
      /\ map u_user_id (Users (db (final out)))
         = map u_user_id (Users (db w))
      /\ (forall r, In r (Users (db (final out))) ->
                    u_user_id r <> socket_userId s -> In r (Users (db w)))
      /\ (unavailable (db w) = false ->
          forall r, In r (Users (db (final out))) ->
                    u_user_id r = socket_userId s -> u_is_online r = online)).
Proof.
  cbn zeta.
  assert (Hrun : (if online then connect sql_eq s else disconnect sql_eq s) w
                 = let w0 := if online then register s (accept_socket s w)
                             else deregister s (drop_socket s w) in
                   let w1 := after_await w0 in
                   ((if online then listen s (status_world online s w1)
                     else status_world online s w1),
                    ConsoleLog (if online then "User connected"
                                else "User disconnected")
                      :: status_trace online s w1
                      ++ [IoEmit "user_status_change"
                            (PStatus (socket_userId s) (socket_username s)
                                     online)],
                    Ok tt)).
  { destruct online; unfold connect, disconnect;
      [rewrite on_connection_run | rewrite on_disconnect_run]; reflexivity. }
  rewrite Hrun. cbn zeta. cbn [trace final fst snd]. clear Hrun.
  set (w0 := if online then register _ _ else _).
  assert (H0 : pending w0 = pending w /\ db w0 = db w)
    by (subst w0; destruct online; auto).
  destruct H0 as [Hp0 Hd0].
  assert (Hdb : db (if online
                    then listen s (status_world online s (after_await w0))
                    else status_world online s (after_await w0))
                = db (status_world online s (after_await w0))).
  { destruct online; [|reflexivity].
    destruct (listen_fields s (status_world true s (after_await w0)))
      as (_ & _ & -> & _). reflexivity. }
  rewrite Hdb. clear Hdb.
  split.
  - intros q r [Hin | Hin]; [discriminate|].
    apply in_app_or in Hin as [Hin | [Hin | []]]; [|discriminate].
    unfold status_trace in Hin.
    destruct (unavailable (db (after_await w0)));
      [destruct Hin as [Hin | [Hin | []]] | destruct Hin as [Hin | []]];
      congruence.
  - intros Hp. rewrite after_await_quiet by congruence.
    unfold status_world. rewrite Hd0.
    destruct (unavailable (db w)) eqn:Hup.
    + rewrite Hd0. repeat split; auto. discriminate.
    + cbn [with_db db].
      destruct (update_online_users online (socket_userId s) (clock w0)
                  (db w)) as [Hids Hrows].
      repeat split; auto.
      * intros r Hin. apply (Hrows r Hin).
      * intros _ r Hin. apply (Hrows r Hin).
Qed.

End MoreProperties.

(** ** Only authenticated connections are served *)

Section Keeps.

(** An invariant of the world that what happens elsewhere keeps and that
    does not depend on the store. *)
Variable J : World -> Prop.
Hypothesis J_await : forall w, J w -> J (after_await w).
Hypothesis J_db : forall w d, J w -> J (with_db d w).

Lemma keeps_pure {A} (m : Handler A) :
  (forall w, final (m w) = w) -> keeps J m.
Proof. intros Hm w HJ. rewrite Hm. exact HJ. Qed.

Lemma keeps_bind {A B} (m : Handler A) (k : A -> Handler B) :
  keeps J m -> (forall a, keeps J (k a)) -> keeps J (m ≫= k).
Proof.
  intros Hm Hk w HJ. rewrite bind_run.
  specialize (Hm w HJ). unfold final in *.
  destruct (m w) as [[w1 t1] [a|e]]; cbn [fst] in *; [|exact Hm].
  specialize (Hk a w1 Hm). unfold final in Hk.
  destruct (k a w1) as [[w2 t2] r]. exact Hk.
Qed.

Lemma keeps_try_catch {A} (body : Handler A) (h : string -> Handler A) :
  keeps J body -> (forall e, keeps J (h e)) -> keeps J (try_catch body h).
Proof.
  intros Hm Hk w HJ. rewrite try_catch_run.
  specialize (Hm w HJ). unfold final in *.
  destruct (body w) as [[w1 t1] [a|e]]; cbn [fst] in *; [exact Hm|].
  specialize (Hk e w1 Hm). unfold final in Hk.
  destruct (h e w1) as [[w2 t2] r]. exact Hk.
Qed.

Lemma keeps_forEach {A} (l : list A) (f : A -> Handler unit) :
  (forall x, keeps J (f x)) -> keeps J (forEach l f).
Proof.
  intros Hf. induction l as [|x l IH]; cbn [forEach].
  - apply keeps_pure. reflexivity.
  - apply keeps_bind; [apply Hf | intros _; exact IH].
Qed.

Lemma keeps_db_query (sql_eq : Z -> JsVal -> bool) (q : Sql) :
  keeps J (db_query sql_eq q).
Proof.
  intros w HJ. rewrite db_query_run.
  destruct (unavailable (db (after_await w))); unfold final; cbn [fst].
  - apply J_await, HJ.
  - apply J_db, J_await, HJ.
Qed.

Lemma keeps_io_to_emit (o : option string) (ev : string) (p : Payload) :
  keeps J (io_to_emit o ev p).
Proof. apply keeps_pure. destruct o; reflexivity. Qed.

Lemma keeps_destructure (data : option Data) : keeps J (destructure data).
Proof. apply keeps_pure. destruct data; reflexivity. Qed.

Ltac kept :=
  repeat first
    [ apply keeps_bind; [|intros ?]
    | apply keeps_try_catch; [|intros ?]
    | apply keeps_forEach; intros ?
    | match goal with
      | |- keeps _ (if ?b then _ else _) => destruct b
      | |- keeps _ (let _ := _ in _) => cbn zeta
      end
    | apply keeps_db_query
    | apply keeps_io_to_emit
    | apply keeps_destructure
    | apply keeps_pure; reflexivity ].

Lemma keeps_messages (sql_eq : Z -> JsVal -> bool) (s : Socket)
      (data : option Data) :
  keeps J (on_send_direct_message sql_eq s data)
  /\ keeps J (on_send_group_message sql_eq s data)
  /\ keeps J (on_typing_direct s data)
  /\ keeps J (on_typing_group sql_eq s data).
Proof.
  unfold on_send_direct_message, on_send_group_message, on_typing_direct,
    on_typing_group.
  split; [kept|]. split; [kept|]. split; kept.
Qed.

Lemma keeps_status_world (online : bool) (s : Socket) (w : World) :
  J w -> J (status_world online s w).
Proof.
  intros HJ. unfold status_world. destruct (unavailable (db w)); auto.
Qed.

End Keeps.

(** ** A socket that closes while its [connection] handler waits *)

Section Closing.

Variable sql_eq : Z -> JsVal -> bool.

Lemma In_drop_listening (s c : Socket) (w : World) :
  In c (listening (drop_socket s w)) <-> In c (listening w) /\ c <> s.
Proof.
  unfold drop_socket; simpl. rewrite List.filter_In.
  split; intros [Hin Hc]; split; auto.
  - intros ->. rewrite bool_decide_eq_true_2 in Hc by reflexivity. discriminate.
  - rewrite bool_decide_eq_false_2 by assumption. reflexivity.
Qed.

Lemma listeners_connected_drop (s : Socket) (w : World) :
  listeners_connected w -> listeners_connected (drop_socket s w).
Proof.
  intros HJ c Hc. apply In_drop_listening in Hc as [Hc Hne].
  apply In_drop_socket. auto.
Qed.

Lemma listeners_connected_listen (s : Socket) (w : World) :
  listeners_connected w -> listeners_connected (listen s w).
Proof.
  intros HJ. unfold listen.
  destruct (bool_decide (s ∈ connected w)) eqn:Hs; [|exact HJ].
  apply bool_decide_eq_true in Hs. rewrite list_elem_of_In in Hs.
  intros c [<- | Hc]; [exact Hs | apply HJ, Hc].
Qed.

Lemma listeners_connected_accept (s : Socket) (w : World) :
  listeners_connected w -> listeners_connected (accept_socket s w).
Proof. intros HJ c Hc. right. apply HJ, Hc. Qed.

Lemma listeners_connected_env_op (o : EnvOp) (w : World) :
  listeners_connected w -> listeners_connected (env_op o w).
Proof.
  intros HJ. destruct o as [s | s | s | d | dt]; cbn [env_op].
  - destruct (admissible s w); [|exact HJ].
    apply (listeners_connected_accept s w HJ).
  - destruct (bool_decide _); [|exact HJ].
    destruct (bool_decide _); apply (listeners_connected_drop s w HJ).
  - destruct (bool_decide _); [|exact HJ].
    apply listeners_connected_listen. exact HJ.
  - exact HJ.
  - exact HJ.
Qed.

Lemma listeners_connected_env_batch (ops : list EnvOp) (w : World) :
  listeners_connected w -> listeners_connected (env_batch ops w).
Proof.
  revert w. induction ops as [|o ops IH]; intros w HJ; [exact HJ|].
  cbn [env_batch fold_left]. apply IH, listeners_connected_env_op, HJ.
Qed.

Lemma listeners_connected_after_await (w : World) :
  listeners_connected w -> listeners_connected (after_await w).
Proof.
  intros HJ. unfold after_await. destruct (pending w) as [|ops rest]; [exact HJ|].
  apply listeners_connected_env_batch. exact HJ.
Qed.

Lemma reachable_listeners_connected (w : World) :
  reachable sql_eq w -> listeners_connected w.
Proof.
  induction 1 as [d t p | w e Hreach IH Hen | w ops Hreach IH
                 | w p Hreach IH].
  - intros c [].
  - assert (Hdb : forall w0 d, listeners_connected w0 ->
                               listeners_connected (with_db d w0))
      by (intros w0 d H0; exact H0).
    destruct e as [s | s | s data | s data | s data | s data];
      cbn [dispatch].
    + unfold connect. rewrite on_connection_run. cbn zeta.
      unfold final. cbn [fst].
      apply listeners_connected_listen.
      apply (keeps_status_world listeners_connected Hdb).
      apply listeners_connected_after_await.
      apply (listeners_connected_accept s w IH).
    + unfold disconnect. rewrite on_disconnect_run. cbn zeta.
      unfold final. cbn [fst].
      apply (keeps_status_world listeners_connected Hdb).
      apply listeners_connected_after_await.
      apply (listeners_connected_drop s w IH).
    + apply (keeps_messages listeners_connected
               listeners_connected_after_await Hdb sql_eq s data). exact IH.
    + apply (keeps_messages listeners_connected
               listeners_connected_after_await Hdb sql_eq s data). exact IH.
    + apply (keeps_messages listeners_connected
               listeners_connected_after_await Hdb sql_eq s data). exact IH.
    + apply (keeps_messages listeners_connected
               listeners_connected_after_await Hdb sql_eq s data). exact IH.
  - apply listeners_connected_env_batch. exact IH.
  - exact IH.
Qed.

(** X20.  A socket that closes while its [connection] handler waits for
    the status write has no [disconnect] listener yet: its entry stays in
    the registry although the socket is gone.  In the world the handler
    leaves, no event can be fired for that socket (it is not connected,
    and its id is taken), so none of its own handlers is there to remove
    the entry; and what is sent to the room of that handle reaches
    nobody. *)
Theorem closing_while_connecting_leaves_entry
        (s : Socket) (w : World) (rest : list (list EnvOp)) :
  reachable sql_eq w ->
  admissible s w = true ->
  pending w = [EnvDisconnect s] :: rest ->
  let out := connect sql_eq s w in
  userSockets (final out) !! socket_userId s = Some (socket_id s)
  /\ ~ In s (connected (final out))
  /\ (forall e, socket_of e = s -> ~ enabled e (final out))
  /\ (forall ev p,
        recipients (connected (final out)) (IoToEmit (socket_id s) ev p)
        = []).
Proof.
  intros Hreach Hadm Hp. cbn zeta.
  pose proof (reachable_listeners_connected w Hreach) as HJ.
  destruct (admissible_fresh s w Hadm) as (_ & Hfresh & _).
  assert (Hnew : ~ In s (connected w))
    by (intros Hin; apply Hfresh, in_map, Hin).
  unfold connect. rewrite on_connection_run. cbn zeta.
  unfold final. cbn [fst].
  assert (Hw1 : after_await (register s (accept_socket s w))
                = drop_socket s
                    (with_pending rest (register s (accept_socket s w)))).
  { unfold after_await.
    cbn [register accept_socket with_userSockets with_connected pending].
    rewrite Hp. cbn [env_batch fold_left env_op with_pending connected
                     listening].
    rewrite bool_decide_eq_true_2 by (apply list_elem_of_In; left; reflexivity).
    rewrite bool_decide_eq_false_2; [reflexivity|].
    rewrite list_elem_of_In. intros Hin. apply Hnew, HJ, Hin. }
  rewrite Hw1.
  set (w1 := drop_socket s _).
  assert (Hgone : ~ In s (connected w1)).
  { subst w1. intros Hin. apply In_drop_socket in Hin as [_ Hne].
    apply Hne. reflexivity. }
  assert (Hids : ~ In (socket_id s) (map socket_id (connected w1))).
  { subst w1. intros Hin. apply in_map_iff in Hin as (c & Hid & Hc).
    apply In_drop_socket in Hc as [Hc Hne].
    cbn [with_pending register accept_socket with_userSockets with_connected
         connected] in Hc.
    destruct Hc as [<- | Hc]; [apply Hne; reflexivity|].
    apply Hfresh. rewrite <- Hid. apply in_map. exact Hc. }
  assert (Hentry : userSockets w1 !! socket_userId s = Some (socket_id s)).
  { subst w1. cbn [drop_socket with_connected with_listening with_opening
                   with_pending register accept_socket with_userSockets
                   userSockets].
    apply lookup_insert_eq. }
  destruct (listen_fields s (status_world true s w1)) as (Hm & Hc & _).
  destruct (status_world_fields true s w1) as (Hm' & Hc' & _).
  rewrite Hm, Hc, Hm', Hc'.
  split; [exact Hentry|]. split; [exact Hgone|]. split.
  - intros e He.
    destruct e as [c | c | c data | c data | c data | c data];
      cbn [socket_of enabled] in *; subst c;
      try (rewrite Hc, Hc'; intros [Hin _]; exact (Hgone Hin)).
    intros Hadm'. apply admissible_fresh in Hadm' as (_ & _ & Hreg).
    apply (Hreg (socket_userId s)). rewrite Hm, Hm'. exact Hentry.
  - intros ev p. apply recipients_nobody. exact Hids.
Qed.

End Closing.

Section AuthProperties.

Variable jwt_verify : JsVal -> option (Z * string).
Variable sql_eq : Z -> JsVal -> bool.

(** X11.  A handshake with no token, or with a token the verification
    throws on, is refused with the message of the case it is in; nothing
    is registered, nothing is written, nothing is emitted. *)
Theorem handshake_without_valid_token
        (id : string) (token : JsVal) (w : World) :
  truthy token = false \/ jwt_verify token = None ->
  handshake jwt_verify sql_eq id token w
  = (w, [],
     Throw (if truthy token then "Invalid authentication token"
            else "Authentication token required")).
Proof.
  intros Hbad. unfold handshake, io_use.
  destruct (truthy token); cbn [negb].
  - destruct Hbad as [Hf | ->]; [discriminate | reflexivity].
  - reflexivity.
Qed.

Lemma verified_more (log hs : Handshakes) (s : Socket) :
  verified jwt_verify log s -> verified jwt_verify (hs ++ log) s.
Proof.
  intros (token & Hin & Hio). exists token. split; [|exact Hio].
  apply in_or_app. right. exact Hin.
Qed.

Lemma all_verified_more (log hs : Handshakes) (w : World) :
  all_verified jwt_verify log w ->
  (forall u h, userSockets w !! u = Some h ->
     exists s, socket_id s = h /\ socket_userId s = u
               /\ verified jwt_verify (hs ++ log) s).
Proof.
  intros [Hreg _] u h Hlook.
  destruct (Hreg u h Hlook) as (s & Hid & Hu & Hv).
  exists s. auto using verified_more.
Qed.

Lemma all_verified_delete (log : Handshakes) (u : Z) (w w' : World) :
  userSockets w' = delete u (userSockets w) -> pending w' = pending w ->
  all_verified jwt_verify log w -> all_verified jwt_verify log w'.
Proof.
  intros Hm Hp [Hreg Hpend]. split; [|rewrite Hp; exact Hpend].
  intros v h Hlook. rewrite Hm in Hlook.
  destruct (decide (u = v)) as [<- | Hneq].
  - rewrite lookup_delete_eq in Hlook. discriminate.
  - rewrite lookup_delete_ne in Hlook by assumption. auto.
Qed.

Lemma all_verified_insert (log : Handshakes) (s : Socket) (w w' : World) :
  userSockets w' = <[socket_userId s := socket_id s]> (userSockets w) ->
  pending w' = pending w ->
  verified jwt_verify log s ->
  all_verified jwt_verify log w -> all_verified jwt_verify log w'.
Proof.
  intros Hm Hp Hs [Hreg Hpend]. split; [|rewrite Hp; exact Hpend].
  intros v h Hlook. rewrite Hm in Hlook.
  destruct (decide (socket_userId s = v)) as [<- | Hneq].
  - rewrite lookup_insert_eq in Hlook. inversion Hlook. exists s. auto.
  - rewrite lookup_insert_ne in Hlook by assumption. auto.
Qed.

Lemma all_verified_same (log : Handshakes) (w w' : World) :
  userSockets w' = userSockets w -> pending w' = pending w ->
  all_verified jwt_verify log w -> all_verified jwt_verify log w'.
Proof. unfold all_verified. intros -> ->. auto. Qed.

Lemma all_verified_env_op (log : Handshakes) (o : EnvOp) (w : World) :
  env_verified jwt_verify log o ->
  all_verified jwt_verify log w -> all_verified jwt_verify log (env_op o w).
Proof.
  intros Ho Hv. destruct o as [c | c | c | d | dt]; cbn [env_op env_verified] in *.
  - destruct (admissible c w); [|exact Hv].
    apply (all_verified_insert log c w); auto.
  - destruct (bool_decide _); [|exact Hv].
    destruct (bool_decide _).
    + apply (all_verified_delete log (socket_userId c) w); auto.
    + apply (all_verified_same log w); auto.
  - destruct (bool_decide _); [|exact Hv].
    destruct (listen_fields c (opened c w)) as (Hm & _ & _ & Hp).
    apply (all_verified_same log w); assumption.
  - exact Hv.
  - exact Hv.
Qed.

Lemma all_verified_env_batch (log : Handshakes) (ops : list EnvOp)
      (w : World) :
  Forall (env_verified jwt_verify log) ops ->
  all_verified jwt_verify log w ->
  all_verified jwt_verify log (env_batch ops w).
Proof.
  revert w. induction ops as [|o ops IH]; intros w Hops Hv; [exact Hv|].
  apply Forall_cons in Hops as [Ho Hops'].
  cbn [env_batch fold_left]. apply (IH _ Hops').
  apply all_verified_env_op; assumption.
Qed.

Lemma all_verified_after_await (log : Handshakes) (w : World) :
  all_verified jwt_verify log w -> all_verified jwt_verify log (after_await w).
Proof.
  intros Hv. unfold after_await.
  destruct (pending w) as [|ops rest] eqn:Hp; [exact Hv|].
  destruct Hv as [Hreg Hpend]. rewrite Hp in Hpend.
  apply Forall_cons in Hpend as [Hops Hrest].
  apply all_verified_env_batch; [exact Hops|].
  split; [exact Hreg | exact Hrest].
Qed.

Lemma pending_verified_more (log hs : Handshakes) (p : list (list EnvOp)) :
  pending_verified jwt_verify log p ->
  pending_verified jwt_verify (hs ++ log) p.
Proof.
  unfold pending_verified. intros Hpend.
  eapply Forall_impl; [exact Hpend|]. intros ops Hops.
  eapply Forall_impl; [exact Hops|]. intros [c | c | c | d | dt] Ho;
    cbn [env_verified] in *; auto.
  apply (verified_more log hs c Ho).
Qed.

Lemma all_verified_with_db (log : Handshakes) (w : World) (d : Db) :
  all_verified jwt_verify log w -> all_verified jwt_verify log (with_db d w).
Proof. intros H. exact H. Qed.

Lemma all_verified_connect (log : Handshakes) (s : Socket) (w : World) :
  verified jwt_verify log s ->
  all_verified jwt_verify log w ->
  all_verified jwt_verify log (final (connect sql_eq s w)).
Proof.
  intros Hs Hv. unfold connect. rewrite on_connection_run. cbn zeta.
  unfold final. cbn [fst].
  set (w1 := status_world true s _).
  destruct (listen_fields s w1) as (Hm & _ & _ & Hp).
  apply (all_verified_same log w1); [assumption ..|]. subst w1.
  apply (keeps_status_world (all_verified jwt_verify log)
           (all_verified_with_db log)).
  apply all_verified_after_await.
  apply (all_verified_insert log s w); auto.
Qed.

Lemma all_verified_dispatch (log : Handshakes) (e : Inbound) (w : World) :
  (forall s, e <> Connection s) ->
  all_verified jwt_verify log w ->
  all_verified jwt_verify log (final (dispatch sql_eq e w)).
Proof.
  intros Hne Hv.
  destruct e as [s | s | s data | s data | s data | s data];
    cbn [dispatch].
  - exfalso. apply (Hne s). reflexivity.
  - unfold disconnect. rewrite on_disconnect_run. cbn zeta.
    unfold final. cbn [fst].
    apply (keeps_status_world (all_verified jwt_verify log)
             (all_verified_with_db log)).
    apply all_verified_after_await.
    apply (all_verified_delete log (socket_userId s) w); auto.
  - apply (keeps_messages (all_verified jwt_verify log)
             (all_verified_after_await log)
             (all_verified_with_db log) sql_eq s data). exact Hv.
  - apply (keeps_messages (all_verified jwt_verify log)
             (all_verified_after_await log)
             (all_verified_with_db log) sql_eq s data). exact Hv.
  - apply (keeps_messages (all_verified jwt_verify log)
             (all_verified_after_await log)
             (all_verified_with_db log) sql_eq s data). exact Hv.
  - apply (keeps_messages (all_verified jwt_verify log)
             (all_verified_after_await log)
             (all_verified_with_db log) sql_eq s data). exact Hv.
Qed.

Lemma served_invariant (log : Handshakes) (w : World) :
  served jwt_verify sql_eq log w -> all_verified jwt_verify log w.
Proof.
  induction 1 as [d t | log w id token Hs Hv Hadm
                 | log w e Hs Hv Hne Hen | log hs w ops Hs Hv Hops
                 | log hs w p Hs Hv Hp].
  - split; [|constructor].
    intros u h Hlook. cbn [userSockets] in Hlook.
    rewrite lookup_empty in Hlook. discriminate.
  - assert (Hv' : all_verified jwt_verify ((id, token) :: log) w).
    { split.
      - apply (all_verified_more log [(id, token)] w Hv).
      - apply (pending_verified_more log [(id, token)]), Hv. }
    unfold handshake.
    destruct (io_use jwt_verify token) as [u n | msg] eqn:Hio; [|exact Hv'].
    apply all_verified_connect; [|exact Hv'].
    exists token. split; [left; reflexivity | exact Hio].
  - apply all_verified_dispatch; assumption.
  - apply all_verified_env_batch; [exact Hops|]. split.
    + apply (all_verified_more log hs w Hv).
    + apply pending_verified_more, Hv.
  - split; [|exact Hp]. apply (all_verified_more log hs w Hv).
Qed.

(** X9.  On a server whose connections all come in through the
    middleware, every entry of the registry is the id of a socket at whose
    handshake the client presented a token that the verification decoded
    to the user id the entry stands under. *)
Theorem registry_holds_verified_users
        (log : Handshakes) (w : World) (u : Z) (h : string) :
  served jwt_verify sql_eq log w ->
  userSockets w !! u = Some h ->
  exists token username,
    In (h, token) log
    /\ truthy token = true /\ jwt_verify token = Some (u, username).
Proof.
  intros Hs Hlook.
  destruct (served_invariant log w Hs) as [Hreg _].
  destruct (Hreg u h Hlook) as (s & <- & <- & token & Hin & Hio).
  exists token, (socket_username s). split; [exact Hin|].
  unfold io_use in Hio.
  destruct (truthy token); cbn [negb] in Hio; [|discriminate].
  split; [reflexivity|].
  destruct (jwt_verify token) as [[u' n']|]; [|discriminate].
  inversion Hio; subst. reflexivity.
Qed.

End AuthProperties.

(** * The client *)

Section ClientProperties.

Import Client.

Lemma strict_eq_true (a b : JsVal) :
  strict_eq a b = true <-> a = b /\ forall j, a <> JObj j.
Proof.
  destruct a, b; cbn [strict_eq]; rewrite ?bool_decide_eq_true;
    (split; intros H;
     [ first [ discriminate H | split; [exact H | discriminate] ]
     | destruct H as [H H'];
       first [ exact H | discriminate H
             | exfalso; eapply H'; reflexivity ] ]).
Qed.

Lemma strict_eq_refl (a : JsVal) :
  (forall j, a <> JObj j) -> strict_eq a a = true.
Proof. intros H. apply strict_eq_true. auto. Qed.

Lemma p_username_not_object (p : Payload) (j : string) :
  p_username p <> JObj j.
Proof. destruct p; discriminate. Qed.

(** ** The list of selected members *)

Lemma toggle_selected (x y : Z) (l : list Z) :
  existsb (Z.eqb x) (toggleMemberSelection y l)
  = xorb (existsb (Z.eqb x) l) (Z.eqb x y).
Proof.
  unfold toggleMemberSelection.
  destruct (existsb (Z.eqb y) l) eqn:Hy.
  - destruct (Z.eqb_spec x y) as [-> | Hne].
    + rewrite Hy. cbn [xorb].
      apply not_true_is_false. intros Hex.
      apply existsb_exists in Hex as (z & Hz & Heq).
      apply List.filter_In in Hz as [_ Hz].
      apply Z.eqb_eq in Heq. subst z. rewrite Z.eqb_refl in Hz. discriminate.
    + rewrite xorb_false_r.
      apply eq_true_iff_eq. rewrite !existsb_exists. split.
      * intros (z & Hz & Heq). apply List.filter_In in Hz as [Hz _]. eauto.
      * intros (z & Hz & Heq). exists z. split; [|exact Heq].
        apply List.filter_In. split; [exact Hz|].
        apply Z.eqb_eq in Heq. subst z.
        apply negb_true_iff, Z.eqb_neq. exact Hne.
  - rewrite existsb_app. cbn [existsb]. rewrite orb_false_r.
    destruct (Z.eqb_spec x y) as [-> | Hne].
    + rewrite Hy. reflexivity.
    + rewrite xorb_false_r, orb_false_r. reflexivity.
Qed.

Lemma toggle_NoDup (y : Z) (l : list Z) :
  NoDup l -> NoDup (toggleMemberSelection y l).
Proof.
  intros Hnd. unfold toggleMemberSelection.
  destruct (existsb (Z.eqb y) l) eqn:Hy.
  - clear Hy. induction l as [|a l IH]; [constructor|].
    apply NoDup_cons in Hnd as [Hnotin Hnd]. cbn [List.filter].
    destruct (negb (Z.eqb a y)); [|auto].
    apply NoDup_cons. split; [|auto].
    rewrite list_elem_of_In in *. intros Hin. apply Hnotin.
    apply List.filter_In in Hin. tauto.
  - apply NoDup_app. split; [exact Hnd|]. split; [|apply NoDup_singleton].
    intros x Hx Hx'. apply list_elem_of_In in Hx.
    apply list_elem_of_In in Hx'. destruct Hx' as [<- | []].
    assert (Hex : existsb (Z.eqb y) l = true)
      by (apply existsb_exists; exists y; split; [exact Hx | apply Z.eqb_refl]).
    congruence.
Qed.

(** X14.  However the boxes of the member list are clicked, starting from
    an empty selection: no user is selected twice, and a user is selected
    exactly when its box was clicked an odd number of times. *)
Theorem selected_members_parity (clicks : list Z) (x : Z) :
  let selected :=
    fold_left (fun l y => toggleMemberSelection y l) clicks [] in
  NoDup selected
  /\ (In x selected <-> Nat.odd (count_occ Z.eq_dec clicks x) = true).
Proof.
  cbn zeta.
  assert (H : forall l,
             NoDup l ->
             NoDup (fold_left (fun l y => toggleMemberSelection y l) clicks l)
             /\ existsb (Z.eqb x)
                  (fold_left (fun l y => toggleMemberSelection y l) clicks l)
                = xorb (existsb (Z.eqb x) l)
                       (Nat.odd (count_occ Z.eq_dec clicks x))).
  { induction clicks as [|y clicks IH]; intros l Hnd; cbn [fold_left count_occ].
    - split; [exact Hnd|]. cbn. rewrite xorb_false_r. reflexivity.
    - destruct (IH (toggleMemberSelection y l) (toggle_NoDup y l Hnd))
        as [Hnd' Hex].
      split; [exact Hnd'|]. rewrite Hex, toggle_selected.
      destruct (Z.eq_dec y x) as [-> | Hne].
      + rewrite Z.eqb_refl, Nat.odd_succ, <- Nat.negb_odd.
        destruct (existsb _ l), (Nat.odd _); reflexivity.
      + rewrite (proj2 (Z.eqb_neq x y)) by congruence.
        rewrite xorb_false_r. reflexivity. }
  destruct (H [] (NoDup_nil_2 : NoDup (@nil Z))) as [Hnd Hex]. split; [exact Hnd|].
  cbn [existsb xorb] in Hex. rewrite <- Hex, existsb_exists. split.
  - intros Hin. exists x. split; [exact Hin | apply Z.eqb_refl].
  - intros (z & Hz & Heq). apply Z.eqb_eq in Heq. subst z. exact Hz.
Qed.

(** ** The user list and the status events *)

Lemma status_fold_last_wins (events : list Payload) (users : list UserEntry) :
  fold_left (fun us data => onUserStatusChange data us) events users
  = map (fun u =>
           mkUserEntry (ue_user_id u) (ue_username u) (ue_email u)
             (List.last
                (map p_isOnline
                   (List.filter
                      (fun data => strict_eq (ue_user_id u) (p_userId data))
                      events))
                (ue_is_online u))
             (ue_last_seen u)) users.
Proof.
  induction events as [|data events IH] using rev_ind.
  - cbn. rewrite <- (map_id users) at 1. apply map_ext.
    intros [i n e o l]. reflexivity.
  - rewrite fold_left_app. cbn [fold_left]. rewrite IH.
    unfold onUserStatusChange. rewrite map_map. apply map_ext.
    intros u. cbn [ue_user_id ue_username ue_email ue_last_seen].
    rewrite List.filter_app, map_app. cbn [List.filter].
    destruct (strict_eq (ue_user_id u) (p_userId data)).
    + cbn [map]. rewrite last_last. reflexivity.
    + cbn [map]. rewrite app_nil_r. reflexivity.
Qed.

Lemma dash_run_deaf (users : list UserEntry) (events : list DashEvent) :
  dash_run (mkDash users false) events = mkDash users false.
Proof.
  induction events as [|[data|] events IH]; [reflexivity | exact IH ..].
Qed.

Lemma dash_run_heard (users : list UserEntry) (events : list DashEvent) :
  dash_run (mkDash users true) events
  = mkDash (fold_left (fun us data => onUserStatusChange data us)
                      (heard events) users)
           (negb (existsb is_cleanup events)).
Proof.
  revert users. induction events as [|[data|] events IH]; intros users.
  - reflexivity.
  - cbn [dash_run fold_left dash_step dash_listener dash_users heard existsb
         is_cleanup orb].
    apply IH.
  - cbn [dash_run fold_left dash_step dash_users heard existsb is_cleanup
         orb negb].
    apply dash_run_deaf.
Qed.

(** X15.  The user list of a mounted dashboard, from the moment the list
    is loaded.  Until the cleanup of the effect of the chat window runs
    for the first time, each row says what the last [user_status_change]
    for its user said, or what it said before if there was none; the list
    keeps its users and their order.  The status events that arrive after
    that cleanup change nothing: the listener is gone, and it is there
    exactly as long as no cleanup has run. *)
Theorem status_events_last_wins
        (events : list DashEvent) (users : list UserEntry) :
  let st := dash_run (mkDash users true) events in
  dash_users st
  = map (fun u =>
           mkUserEntry (ue_user_id u) (ue_username u) (ue_email u)
             (List.last
                (map p_isOnline
                   (List.filter
                      (fun data => strict_eq (ue_user_id u) (p_userId data))
                      (heard events)))
                (ue_is_online u))
             (ue_last_seen u)) users
  /\ dash_listener st = negb (existsb is_cleanup events)
  /\ (forall before after,
        events = before ++ ChatCleanup :: after ->
        st = dash_run (mkDash users true) (before ++ [ChatCleanup])).
Proof.
  cbn zeta. rewrite dash_run_heard. cbn [dash_users dash_listener].
  split; [apply status_fold_last_wins|]. split; [reflexivity|].
  intros before after ->. rewrite <- dash_run_heard.
  unfold dash_run. rewrite !fold_left_app.
  cbn [fold_left dash_step].
  apply (dash_run_deaf _ after).
Qed.

(** ** Messages by date *)

Lemma push_group_keys {M} (date : string) (msg : M)
      (groups : list (string * list M)) :
  (In date (map fst groups) ->
   map fst (push_group date msg groups) = map fst groups)
  /\ (~ In date (map fst groups) ->
      map fst (push_group date msg groups) = map fst groups ++ [date]).
Proof.
  induction groups as [|[k ms] rest [IHin IHout]]; cbn [push_group map fst].
  - split; [intros [] | reflexivity].
  - destruct (String.eqb_spec k date) as [-> | Hne]; cbn [map fst].
    + split; [reflexivity|]. intros Hno. exfalso. apply Hno. left. reflexivity.
    + split.
      * intros [Heq | Hin]; [contradiction|]. rewrite IHin by exact Hin.
        reflexivity.
      * intros Hno. rewrite IHout; [reflexivity|].
        intros Hin. apply Hno. right. exact Hin.
Qed.

Lemma In_push_group {M} (date : string) (msg : M)
      (groups : list (string * list M)) (k : string) (ms : list M) :
  NoDup (map fst groups) ->
  In (k, ms) (push_group date msg groups) ->
  (k <> date /\ In (k, ms) groups)
  \/ (k = date
      /\ ((exists ms0, In (date, ms0) groups /\ ms = ms0 ++ [msg])
          \/ (~ In date (map fst groups) /\ ms = [msg]))).
Proof.
  induction groups as [|[k0 ms0] rest IH]; cbn [push_group map fst].
  - intros _ [Heq | []]. inversion Heq; subst.
    right. split; [reflexivity|]. right. split; [intros [] | reflexivity].
  - intros Hnd Hin. apply NoDup_cons in Hnd as [Hnotin Hnd].
    rewrite list_elem_of_In in Hnotin.
    destruct (String.eqb_spec k0 date) as [-> | Hne].
    + destruct Hin as [Heq | Hin].
      * inversion Heq; subst. right. split; [reflexivity|]. left.
        exists ms0. split; [left; reflexivity | reflexivity].
      * left. split; [|right; exact Hin].
        intros ->. apply Hnotin.
        change date with (fst (date, ms)). apply in_map. exact Hin.
    + destruct Hin as [Heq | Hin].
      * inversion Heq; subst. left. split; [exact Hne | left; reflexivity].
      * destruct (IH Hnd Hin) as [[Hk Hin'] | [-> [(ms1 & Hin' & ->) | [Hno ->]]]].
        -- left. split; [exact Hk | right; exact Hin'].
        -- right. split; [reflexivity|]. left. exists ms1.
           split; [right; exact Hin' | reflexivity].
        -- right. split; [reflexivity|]. right. split; [|reflexivity].
           intros [Heq | Hin']; [congruence | contradiction].
Qed.

Lemma groupMessagesByDate_runs {M} (date_of : M -> string) (msgs : list M) :
  (forall m, In m msgs -> inherited (date_of m) = false) ->
  groupMessagesByDate date_of msgs
  = Some (fold_left (fun groups msg => push_group (date_of msg) msg groups)
                    msgs []).
Proof.
  unfold groupMessagesByDate. generalize (@nil (string * list M)).
  induction msgs as [|m msgs IH]; intros groups Hok; [reflexivity|].
  cbn [fold_left group_step]. rewrite (Hok m) by (left; reflexivity).
  apply IH. intros m0 Hin. apply Hok. right. exact Hin.
Qed.

(** X13.  The messages grouped by date, when no date is a property name
    of [Object.prototype]: the grouping succeeds; each date is there once;
    under a date are exactly the messages of that date, in the order they
    have in the list, and at least one; and every message is under its
    date. *)
Theorem group_by_date_partitions {M} (date_of : M -> string)
        (msgs : list M) :
  (forall m, In m msgs -> inherited (date_of m) = false) ->
  exists groups,
    groupMessagesByDate date_of msgs = Some groups
    /\ NoDup (map fst groups)
    /\ (forall k ms, In (k, ms) groups ->
          ms = List.filter (fun m => String.eqb (date_of m) k) msgs
          /\ ms <> [])
    /\ (forall m, In m msgs -> In (date_of m) (map fst groups)).
Proof.
  intros Hok. eexists. split; [apply groupMessagesByDate_runs, Hok|].
  clear Hok.
  induction msgs as [|m msgs (Hnd & Hgroups & Hkeys)] using rev_ind.
  - cbn. split; [constructor|]. split; [intros k ms [] | intros m []].
  - rewrite fold_left_app. cbn [fold_left].
    set (groups := fold_left _ msgs []) in *.
    split; [|split].
    + destruct (in_dec string_dec (date_of m) (map fst groups)) as [Hd | Hd];
        [rewrite (proj1 (push_group_keys _ _ _) Hd); exact Hnd|].
      rewrite (proj2 (push_group_keys _ _ _) Hd).
      apply NoDup_app. split; [exact Hnd|]. split; [|apply NoDup_singleton].
      intros x Hx Hx'. apply list_elem_of_In in Hx.
      apply list_elem_of_In in Hx'. destruct Hx' as [<- | []]. contradiction.
    + intros k ms Hin. rewrite List.filter_app. cbn [List.filter].
      destruct (In_push_group _ _ _ _ _ Hnd Hin)
        as [[Hk Hin'] | [-> [(ms1 & Hin' & ->) | [Hno ->]]]].
      * destruct (Hgroups k ms Hin') as [-> Hne].
        rewrite (proj2 (String.eqb_neq (date_of m) k)) by congruence.
        rewrite app_nil_r. auto.
      * destruct (Hgroups _ ms1 Hin') as [-> Hne].
        rewrite String.eqb_refl. split; [reflexivity|].
        intros Heq. apply app_eq_nil in Heq as [_ Heq]. discriminate.
      * rewrite String.eqb_refl. split; [|discriminate].
        assert (Hnone : List.filter
                  (fun m0 => String.eqb (date_of m0) (date_of m)) msgs = []).
        { destruct (List.filter _ msgs) as [|m0 l] eqn:Hf; [reflexivity|].
          exfalso. apply Hno.
          assert (Hin0 : In m0 (List.filter
                    (fun m1 => String.eqb (date_of m1) (date_of m)) msgs))
            by (rewrite Hf; left; reflexivity).
          apply List.filter_In in Hin0 as [Hin0 Heq].
          apply String.eqb_eq in Heq. rewrite <- Heq. apply Hkeys, Hin0. }
        rewrite Hnone. reflexivity.
    + intros m0 Hin.
      destruct (in_dec string_dec (date_of m) (map fst groups)) as [Hd | Hd];
        [rewrite (proj1 (push_group_keys _ _ _) Hd)
        |rewrite (proj2 (push_group_keys _ _ _) Hd)];
        apply in_app_or in Hin as [Hin | [<- | []]].
      * apply Hkeys, Hin.
      * exact Hd.
      * apply in_or_app. left. apply Hkeys, Hin.
      * apply in_or_app. right. left. reflexivity.
Qed.

(** ** Who is typing in a group *)

Lemma includes_In (l : list JsVal) (x : JsVal) :
  (forall j, x <> JObj j) -> includes l x = true <-> In x l.
Proof.
  intros Hx. unfold includes. rewrite existsb_exists. split.
  - intros (y & Hy & Heq). apply strict_eq_true in Heq as [-> _]. exact Hy.
  - intros Hin. exists x. split; [exact Hin | apply strict_eq_refl, Hx].
Qed.

Lemma typing_group_step {H} (chat : Chat) (me : JsVal) (p : Payload)
      (w : Window H) :
  NoDup (typingUsers w) ->
  NoDup (typingUsers (handleTypingGroup chat me p w))
  /\ messages (handleTypingGroup chat me p w) = messages w
  /\ (strict_eq (p_groupId p) (chat_id chat) = true ->
      strict_eq (p_userId p) me = false ->
      (In (p_username p) (typingUsers (handleTypingGroup chat me p w))
       <-> truthy (p_isTyping p) = true)).
Proof.
  intros Hnd. unfold handleTypingGroup.
  destruct (strict_eq (p_groupId p) (chat_id chat)); cbn [andb];
    [|split; [exact Hnd | split; [reflexivity | discriminate]]].
  destruct (strict_eq (p_userId p) me); cbn [negb];
    [split; [exact Hnd | split; [reflexivity | discriminate]]|].
  cbn [typingUsers messages].
  destruct (truthy (p_isTyping p)).
  - destruct (includes (typingUsers w) (p_username p)) eqn:Hinc.
    + split; [exact Hnd|]. split; [reflexivity|]. intros _ _.
      split; [reflexivity|]. intros _.
      apply includes_In in Hinc; [exact Hinc | apply p_username_not_object].
    + split.
      * apply NoDup_app. split; [exact Hnd|].
        split; [|apply NoDup_singleton].
        intros x Hx Hx'. apply list_elem_of_In in Hx.
        apply list_elem_of_In in Hx'. destruct Hx' as [<- | []].
        apply (includes_In _ _ (p_username_not_object p)) in Hx. congruence.
      * split; [reflexivity|]. intros _ _. split; [reflexivity|].
        intros _. apply in_or_app. right. left. reflexivity.
  - split.
    + clear - Hnd. induction (typingUsers w) as [|a l IH]; [constructor|].
      apply NoDup_cons in Hnd as [Hnotin Hnd]. cbn [List.filter].
      destruct (negb _); [|auto].
      apply NoDup_cons. split; [|auto].
      rewrite list_elem_of_In in *. intros Hin. apply Hnotin.
      apply List.filter_In in Hin. tauto.
    + split; [reflexivity|]. intros _ _. split; [|discriminate].
      intros Hin. apply List.filter_In in Hin as [_ Hne].
      rewrite strict_eq_refl in Hne by apply p_username_not_object.
      discriminate.
Qed.

(** X12.  In a group chat, after any sequence of [user_typing_group]
    events: no name is in [typingUsers] twice, the messages are untouched,
    and if the last event is for this group and from somebody else, its
    user is in the list exactly when it said typing. *)
Theorem typing_users_follow_events {H} (chat : Chat) (me : JsVal)
        (events : list Payload) (p : Payload) (w : Window H) :
  NoDup (typingUsers w) ->
  let w' := fold_left (fun w p => handleTypingGroup chat me p w)
                      (events ++ [p]) w in
  NoDup (typingUsers w')
  /\ messages w' = messages w
  /\ (strict_eq (p_groupId p) (chat_id chat) = true ->
      strict_eq (p_userId p) me = false ->
      (In (p_username p) (typingUsers w') <-> truthy (p_isTyping p) = true)).
Proof.
  intros Hnd. cbn zeta. rewrite fold_left_app. cbn [fold_left].
  assert (Hfold : NoDup (typingUsers
                    (fold_left (fun w p => handleTypingGroup chat me p w)
                               events w))
                  /\ messages (fold_left
                       (fun w p => handleTypingGroup chat me p w) events w)
                     = messages w).
  { clear p. revert w Hnd. induction events as [|q events IH]; intros w Hnd.
    - auto.
    - cbn [fold_left].
      destruct (typing_group_step chat me q w Hnd) as (Hnd' & Hm & _).
      destruct (IH _ Hnd') as [Hnd'' Hm']. split; [exact Hnd'' | congruence]. }
  destruct Hfold as [Hnd' Hm'].
  destruct (typing_group_step chat me p _ Hnd') as (Hnd'' & Hm'' & Hlast).
  split; [exact Hnd''|]. split; [congruence | exact Hlast].
Qed.

(** ** The message input *)

Variable trim : string -> string.

Lemma In_input_step (st : Input) (e : Dom) (text : string) :
  In (OnSendMessage text) (snd (input_step trim st e)) ->
  text <> "" /\ text = trim (in_message st).
Proof.
  assert (Hsubmit : In (OnSendMessage text) (snd (handleSubmit trim st)) ->
                    text <> "" /\ text = trim (in_message st)).
  { unfold handleSubmit. cbn zeta.
    destruct (String.eqb_spec (trim (in_message st)) "") as [He | Hne];
      cbn [snd]; [intros []|].
    intros [Heq | Hin]; [inversion Heq; subst; auto|].
    destruct (in_isTyping st); [destruct Hin as [Heq | []]|destruct Hin];
      discriminate. }
  destruct e as [value | | key shift |]; cbn [input_step].
  - unfold handleInputChange. destruct (_ && _); cbn [snd];
      [intros [Heq | []]; discriminate | intros []].
  - exact Hsubmit.
  - unfold handleKeyDown. destruct (_ && _); [exact Hsubmit | intros []].
  - unfold timeout_fires. destruct (in_timeout st); cbn [snd];
      [intros [Heq | []]; discriminate | intros []].
Qed.

Lemma sent_by_submit (st : Input) (e : Dom) (text : string) :
  In (OnSendMessage text) (snd (input_step trim st e)) ->
  (e = Submit \/ e = KeyDown "Enter" false)
  /\ in_message (fst (input_step trim st e)) = "".
Proof.
  assert (Hsubmit : In (OnSendMessage text) (snd (handleSubmit trim st)) ->
                    in_message (fst (handleSubmit trim st)) = "").
  { unfold handleSubmit. cbn zeta.
    destruct (String.eqb (trim (in_message st)) ""); cbn [fst snd];
      [intros [] | reflexivity]. }
  destruct e as [value | | key shift |]; cbn [input_step].
  - unfold handleInputChange. destruct (_ && _); cbn [snd];
      [intros [Heq | []]; discriminate | intros []].
  - auto.
  - unfold handleKeyDown.
    destruct (String.eqb_spec key "Enter") as [-> | Hne]; cbn [andb];
      [|intros []].
    destruct shift; cbn [negb]; [intros [] | auto].
  - unfold timeout_fires. destruct (in_timeout st); cbn [snd];
      [intros [Heq | []]; discriminate | intros []].
Qed.

(** X16.  Whatever is typed, and however it is submitted: a text handed to
    [onSendMessage] is handed over by a submission of the form or by Enter
    without Shift, it is the trimmed text the field holds at that moment,
    it is not empty, and the field is empty afterwards. *)
Theorem input_never_sends_blank
        (st : Input) (events : list Dom) (text : string) :
  In (OnSendMessage text) (snd (input_run trim st events)) ->
  text <> ""
  /\ exists before e after,
       events = before ++ e :: after
       /\ (e = Submit \/ e = KeyDown "Enter" false)
       /\ text = trim (in_message (fst (input_run trim st before)))
       /\ in_message (fst (input_run trim st (before ++ [e]))) = "".
Proof.
  revert st. induction events as [|e events IH]; intros st; cbn [input_run].
  - intros [].
  - destruct (input_step trim st e) as [st1 out1] eqn:Hstep.
    destruct (input_run trim st1 events) as [st2 out2] eqn:Hrun.
    cbn [snd]. intros Hin. apply in_app_or in Hin as [Hin | Hin].
    + assert (Hin' : In (OnSendMessage text) (snd (input_step trim st e)))
        by (rewrite Hstep; exact Hin).
      destruct (In_input_step st e text Hin') as [Hne Heq].
      destruct (sent_by_submit st e text Hin') as [He Hempty].
      split; [exact Hne|]. exists [], e, events.
      split; [reflexivity|]. split; [exact He|]. split; [exact Heq|].
      cbn [app input_run]. destruct (input_step trim st e). exact Hempty.
    + destruct (IH st1) as (Hne & before & e' & after & -> & He & Heq & Hempty);
        [rewrite Hrun; exact Hin|].
      split; [exact Hne|]. exists (e :: before), e', after.
      split; [reflexivity|]. split; [exact He|].
      cbn [app input_run]. rewrite Hstep.
      destruct (input_run trim st1 before) as [st3 out3] eqn:Hb.
      destruct (input_run trim st1 (before ++ [e'])) as [st4 out4] eqn:Hb'.
      cbn [fst] in *. auto.
Qed.

Lemma last_cons_default (b d : bool) (l : list bool) :
  List.last (b :: l) d = List.last l b.
Proof.
  revert b d. induction l as [|c l IH]; intros b d; [reflexivity|].
  change (List.last (b :: c :: l) d) with (List.last (c :: l) d).
  rewrite (IH c d), (IH c b). reflexivity.
Qed.

Lemma no_true_twice_app (prev : bool) (l1 l2 : list bool) :
  no_true_twice prev (l1 ++ l2)
  = no_true_twice prev l1 && no_true_twice (List.last l1 prev) l2.
Proof.
  revert prev. induction l1 as [|b l1 IH]; intros prev.
  - reflexivity.
  - cbn [app no_true_twice]. rewrite IH, andb_assoc, last_cons_default.
    reflexivity.
Qed.

Lemma last_app_default (l1 l2 : list bool) (d : bool) :
  List.last (l1 ++ l2) d = List.last l2 (List.last l1 d).
Proof.
  induction l2 as [|b l2 IH] using rev_ind.
  - rewrite app_nil_r. reflexivity.
  - rewrite app_assoc, !last_last. reflexivity.
Qed.

Lemma typing_step (st : Input) (e : Dom) :
  let st1 := fst (input_step trim st e) in
  let flags := typing_flags (snd (input_step trim st e)) in
  no_true_twice (in_isTyping st) flags = true
  /\ in_isTyping st1 = List.last flags (in_isTyping st)
  /\ ((in_isTyping st = true -> in_timeout st = true) ->
      in_isTyping st1 = true -> in_timeout st1 = true).
Proof.
  cbn zeta.
  assert (Hsubmit :
            no_true_twice (in_isTyping st)
              (typing_flags (snd (handleSubmit trim st))) = true
            /\ in_isTyping (fst (handleSubmit trim st))
               = List.last (typing_flags (snd (handleSubmit trim st)))
                           (in_isTyping st)
            /\ ((in_isTyping st = true -> in_timeout st = true) ->
                in_isTyping (fst (handleSubmit trim st)) = true ->
                in_timeout (fst (handleSubmit trim st)) = true)).
  { unfold handleSubmit. cbn zeta.
    destruct (String.eqb (trim (in_message st)) ""); cbn [fst snd].
    - repeat split; auto.
    - destruct (in_isTyping st); cbn; repeat split; auto; discriminate. }
  destruct e as [value | | key shift |]; cbn [input_step].
  - unfold handleInputChange.
    destruct (negb (String.eqb (trim value) "")); cbn [andb fst snd].
    + destruct (in_isTyping st); cbn; repeat split; auto.
    + cbn. repeat split; auto.
  - exact Hsubmit.
  - unfold handleKeyDown. destruct (_ && _); [exact Hsubmit|].
    cbn. repeat split; auto.
  - unfold timeout_fires. destruct (in_timeout st) eqn:Ht; cbn [fst snd].
    + cbn. rewrite andb_false_r. repeat split; auto; discriminate.
    + cbn. repeat split; auto. intros H1 H2. discriminate (H1 H2).
Qed.

(** X17.  The typing indicator, from the mounting of the input on: the
    component never reports typing twice without reporting not typing in
    between; its flag is the last report it made; and while the flag is
    set, the timeout that will clear it is pending. *)
Theorem typing_indicator_protocol (events : list Dom) :
  let st := fst (input_run trim input_initial events) in
  let flags := typing_flags (snd (input_run trim input_initial events)) in
  (forall l1 l2, flags <> l1 ++ true :: true :: l2)
  /\ in_isTyping st = List.last flags false
  /\ (in_isTyping st = true -> in_timeout st = true).
Proof.
  cbn zeta.
  assert (H : forall st0,
             no_true_twice (in_isTyping st0)
               (typing_flags (snd (input_run trim st0 events))) = true
             /\ in_isTyping (fst (input_run trim st0 events))
                = List.last (typing_flags (snd (input_run trim st0 events)))
                            (in_isTyping st0)
             /\ ((in_isTyping st0 = true -> in_timeout st0 = true) ->
                 in_isTyping (fst (input_run trim st0 events)) = true ->
                 in_timeout (fst (input_run trim st0 events)) = true)).
  { induction events as [|e events IH]; intros st0; cbn [input_run].
    - cbn. auto.
    - destruct (typing_step st0 e) as (H1 & H2 & H3).
      destruct (input_step trim st0 e) as [st1 out1].
      cbn [fst snd] in *.
      destruct (IH st1) as (H1' & H2' & H3').
      destruct (input_run trim st1 events) as [st2 out2].
      cbn [fst snd] in *. unfold typing_flags in *.
      rewrite flat_map_app, no_true_twice_app, last_app_default.
      rewrite <- H2, H1, H1'. repeat split; auto. }
  destruct (H (input_initial)) as (Hno & Hlast & Harmed).
  split;
    [|split; [exact Hlast
             |intros Ht; apply Harmed;
              [intros Hf; discriminate Hf | exact Ht]]].
  intros l1 l2 Heq. cbn [input_initial in_isTyping] in Hno.
  rewrite Heq, no_true_twice_app in Hno. cbn in Hno.
  rewrite !andb_false_r in Hno. discriminate Hno.
Qed.

(** ** From the input to the server, and from the server to the windows *)

Variable sql_eq : Z -> JsVal -> bool.



Lemma receive_app {H} (chat : Chat) (me : JsVal)
      (l1 l2 : list (string * Payload)) (win : Window H) :
  receive chat me (l1 ++ l2) win = receive chat me l2 (receive chat me l1 win).
Proof. apply fold_left_app. Qed.

(** X19.  A direct message from one user to another, written to the
    store: the window of the sender, open on the receiver, gains the
    message once, at the end, and so does the window of the receiver, if
    registered and open on the sender.  (The sender is still connected
    when the handler emits.) *)
Theorem direct_message_shows_once {H}
        (s : Socket) (r : Z) (text : JsVal) (w : World)
        (mine theirs : Window H) :
  let d := mkData (JNum r) JUndefined text JUndefined in
  let out := on_send_direct_message sql_eq s (Some d) w in
  truthy (JNum r) = true -> truthy text = true ->
  world_ok w ->
  existsb persisted (trace out) = true ->
  In s (connected (final out)) ->
  r <> socket_userId s ->
  exists msg,
    messages (receive (mkChat "direct" (JNum r)) (JNum (socket_userId s))
                (inbox (socket_id s) (trace out)) mine)
    = messages mine ++ [inr msg]
    /\ (forall h,
          userSockets (final out) !! r = Some h ->
          messages (receive (mkChat "direct" (JNum (socket_userId s)))
                      (JNum r) (inbox h (trace out)) theirs)
          = messages theirs ++ [inr msg]).
Proof.
  cbn zeta. intros Hr Ht Hok.
  rewrite on_send_direct_message_valid by assumption. cbn zeta.
  destruct (unavailable (db (after_await w))) eqn:Hup; [cbn; discriminate|].
  intros _. cbn [trace final fst snd receiverId messageText].
  set (w2 := with_db _ _). set (msg := PDirect _ _ _ _ _ _ _).
  intros Hconn Hne.
  assert (Hok2 : world_ok w2)
    by (apply world_ok_with_db, world_ok_after_await, Hok).
  exists msg. unfold direct_delivery. cbn [receiverId lookup_socket].
  assert (Hsent : forall (win : Window H) chat me,
             messages (on_event chat me "message_sent" msg win)
             = messages win ++ [inr msg]) by reflexivity.
  destruct (userSockets w2 !! r) as [h|] eqn:Hlook.
  - assert (Hh : h <> socket_id s).
    { intros ->. apply Hne. symmetry.
      eapply world_ok_owner; eauto. }
    rewrite (lookup_socket_truthy w2 (JNum r) h Hok2 Hlook).
    split.
    + cbn [inbox flat_map app].
      rewrite (bool_decide_eq_false_2 (h = socket_id s)) by exact Hh.
      rewrite bool_decide_eq_true_2 by reflexivity. reflexivity.
    + intros h' Heq. inversion Heq; subst h'.
      cbn [inbox flat_map app].
      rewrite bool_decide_eq_true_2 by reflexivity.
      rewrite (bool_decide_eq_false_2 (socket_id s = h)) by congruence.
      cbn [app receive fold_left fst snd on_event String.eqb Ascii.eqb
           Bool.eqb chat_type].
      unfold handleNewDirectMessage. subst msg.
      cbn [p_senderId chat_id strict_eq].
      rewrite bool_decide_eq_true_2 by reflexivity. reflexivity.
  - split; [|discriminate].
    cbn [inbox flat_map app].
    rewrite bool_decide_eq_true_2 by reflexivity. reflexivity.
Qed.

End ClientProperties.

(** * The added properties at work *)

Lemma reachable_world_ok_witness :
  reachable sql_eq_num (final (connect sql_eq_num alice w_closing))
  /\ world_ok (final (connect sql_eq_num alice w_closing)).
Proof.
  assert (Hreach : reachable sql_eq_num
                     (final (connect sql_eq_num alice w_closing))).
  { apply (reach_event sql_eq_num w_closing (Connection alice)).
    - apply reach_boot.
    - reflexivity. }
  split; [exact Hreach|].
  exact (reachable_world_ok sql_eq_num _ Hreach).
Defined.

Lemma closing_while_connecting_leaves_entry_witness :
  reachable sql_eq_num w_closing
  /\ admissible alice w_closing = true
  /\ pending w_closing = [[EnvDisconnect alice]]
  /\ userSockets (final (connect sql_eq_num alice w_closing)) !! 1
     = Some "h1"
  /\ ~ In alice (connected (final (connect sql_eq_num alice w_closing))).
Proof.
  assert (Hreach : reachable sql_eq_num w_closing) by apply reach_boot.
  split; [exact Hreach|]. split; [reflexivity|]. split; [reflexivity|].
  destruct (closing_while_connecting_leaves_entry sql_eq_num alice w_closing
              [] Hreach eq_refl eq_refl) as (Hentry & Hgone & _).
  split; [exact Hentry | exact Hgone].
Defined.

Lemma status_events_last_wins_witness :
  Client.dash_users
    (Client.dash_run (Client.mkDash [bob_row] true) bob_comes_and_goes)
  = [Client.mkUserEntry (JNum 2) (JStr "bob") (JStr "bob@example.com")
       (JBool true) JNull]
  /\ Client.dash_listener
       (Client.dash_run (Client.mkDash [bob_row] true) bob_comes_and_goes)
     = false.
Proof.
  destruct (status_events_last_wins bob_comes_and_goes [bob_row])
    as (Husers & Hlistener & _).
  split; [exact Husers | exact Hlistener].
Defined.

Lemma inbound_messages_leave_registry_witness :
  pending w_two = []
  /\ userSockets (final (on_send_group_message sql_eq_num alice
                           (Some (hi_group (JNum 10))) w_two))
     = userSockets w_two.
Proof.
  split; [reflexivity|].
  exact (proj1 (proj1 (proj2
           (inbound_messages_leave_registry sql_eq_num alice
              (Some (hi_group (JNum 10))))) w_two eq_refl)).
Defined.

Lemma group_send_listing_rejected_witness :
  In (DbQuery (SelectMembers (groupId (hi_group (JNum 10)))) None)
     (trace (on_send_group_message sql_eq_num alice
               (Some (hi_group (JNum 10))) w_two_failing))
  /\ exists id,
       List.filter persisted
         (trace (on_send_group_message sql_eq_num alice
                   (Some (hi_group (JNum 10))) w_two_failing))
       = [DbQuery (InsertGroup (JNum 10) 1 (JStr "hi"))
                  (Some (ResInsert id))].
Proof.
  assert (Hin : In (DbQuery (SelectMembers (groupId (hi_group (JNum 10))))
                            None)
                   (trace (on_send_group_message sql_eq_num alice
                             (Some (hi_group (JNum 10))) w_two_failing)))
    by (vm_compute; right; right; left; reflexivity).
  split; [exact Hin|].
  destruct (group_send_listing_rejected sql_eq_num alice
              (hi_group (JNum 10)) w_two_failing Hin) as (id & Hp & _).
  exists id. exact Hp.
Defined.

Lemma connect_disconnect_round_trip_witness :
  pending w_two = [] /\ ~ In alice2 (connected w_two)
  /\ connected
       (final (disconnect sql_eq_num alice2
                 (final (connect sql_eq_num alice2 w_two))))
     = connected w_two.
Proof.
  assert (Hnew : ~ In alice2 (connected w_two))
    by (intros [H | [H | []]]; discriminate H).
  split; [reflexivity|]. split; [exact Hnew|].
  exact (proj1 (connect_disconnect_round_trip sql_eq_num alice2 w_two
                  eq_refl Hnew)).
Defined.

Lemma live_delivery_follows_registry_witness :
  (forall n, receiverId (hi_to (JStr "2")) <> JNum n)
  /\ addressed "h3" "receive_direct_message"
       (trace (on_send_direct_message sql_eq_num alice
                 (Some (hi_to (JStr "2"))) w_two)) = [].
Proof.
  assert (Hstr : forall n, receiverId (hi_to (JStr "2")) <> JNum n)
    by (intros n; discriminate).
  split; [exact Hstr|].
  exact (proj1 (proj2
           (live_delivery_follows_registry sql_eq_num alice
              (Some (hi_to (JStr "2"))) w_two "h3"))
           (hi_to (JStr "2")) eq_refl Hstr).
Defined.

Lemma handshake_without_valid_token_witness :
  truthy JUndefined = false
  /\ handshake jwt_demo sql_eq_num "h9" JUndefined w_two
     = (w_two, [], Throw "Authentication token required")
  /\ jwt_demo (JStr "forged") = None
  /\ handshake jwt_demo sql_eq_num "h9" (JStr "forged") w_two
     = (w_two, [], Throw "Invalid authentication token").
Proof.
  split; [reflexivity|]. split.
  - exact (handshake_without_valid_token jwt_demo sql_eq_num "h9" JUndefined
             w_two (or_introl eq_refl)).
  - split; [reflexivity|].
    exact (handshake_without_valid_token jwt_demo sql_eq_num "h9"
             (JStr "forged") w_two (or_intror eq_refl)).
Defined.

Lemma registry_holds_verified_users_witness :
  served jwt_demo sql_eq_num [("h1", JStr "alice-token")]
    (final (handshake jwt_demo sql_eq_num "h1" (JStr "alice-token") w_empty))
  /\ userSockets
       (final (handshake jwt_demo sql_eq_num "h1" (JStr "alice-token")
                 w_empty)) !! 1 = Some "h1"
  /\ exists token username,
       In ("h1", token) [("h1", JStr "alice-token")]
       /\ truthy token = true /\ jwt_demo token = Some (1, username).
Proof.
  assert (Hs : served jwt_demo sql_eq_num [("h1", JStr "alice-token")]
                 (final (handshake jwt_demo sql_eq_num "h1"
                           (JStr "alice-token") w_empty))).
  { apply served_handshake; [|reflexivity]. apply served_boot. }
  assert (Hl : userSockets
                 (final (handshake jwt_demo sql_eq_num "h1"
                           (JStr "alice-token") w_empty)) !! 1 = Some "h1")
    by (vm_compute; reflexivity).
  split; [exact Hs|]. split; [exact Hl|].
  exact (registry_holds_verified_users jwt_demo sql_eq_num _ _ 1 "h1" Hs Hl).
Defined.

Lemma typing_users_follow_events_witness :
  NoDup (Client.typingUsers group_window)
  /\ (In (Client.p_username bob_typing)
         (Client.typingUsers
            (fold_left
               (fun w p => Client.handleTypingGroup
                             (Client.mkChat "group" (JNum 10)) (JNum 1) p w)
               ([bob_typing] ++ [bob_typing]) group_window))
      <-> truthy (Client.p_isTyping bob_typing) = true).
Proof.
  assert (Hnd : NoDup (Client.typingUsers group_window)) by constructor.
  split; [exact Hnd|].
  exact (proj2 (proj2
           (typing_users_follow_events
              (Client.mkChat "group" (JNum 10)) (JNum 1)
              [bob_typing] bob_typing group_window Hnd))
           eq_refl eq_refl).
Defined.

Lemma input_never_sends_blank_witness :
  In (Client.OnSendMessage "hi")
     (snd (Client.input_run (fun x => x) Client.input_initial
             [Client.Change "hi"; Client.Submit]))
  /\ "hi" <> ""
  /\ exists before e after,
       [Client.Change "hi"; Client.Submit] = before ++ e :: after
       /\ "hi" = Client.in_message
                   (fst (Client.input_run (fun x => x) Client.input_initial
                           before)).
Proof.
  assert (Hin : In (Client.OnSendMessage "hi")
                   (snd (Client.input_run (fun x => x) Client.input_initial
                           [Client.Change "hi"; Client.Submit])))
    by (vm_compute; right; left; reflexivity).
  split; [exact Hin|].
  destruct (input_never_sends_blank (fun x => x) Client.input_initial
              [Client.Change "hi"; Client.Submit] "hi" Hin)
    as (Hne & before & e & after & Hsplit & _ & Htext & _).
  split; [exact Hne|]. exists before, e, after. auto.
Defined.


Lemma direct_message_shows_once_witness :
  world_ok w_two
  /\ In alice
        (connected (final (on_send_direct_message sql_eq_num alice
                             (Some (hi_to (JNum 2))) w_two)))
  /\ exists msg,
       Client.messages
         (Client.receive (Client.mkChat "direct" (JNum 1)) (JNum 2)
            (Client.inbox "h3"
               (trace (on_send_direct_message sql_eq_num alice
                         (Some (hi_to (JNum 2))) w_two)))
            group_window)
       = [inr msg].
Proof.
  assert (Hconn : In alice
            (connected (final (on_send_direct_message sql_eq_num alice
                                 (Some (hi_to (JNum 2))) w_two))))
    by (vm_compute; right; left; reflexivity).
  split; [exact world_ok_w_two|]. split; [exact Hconn|].
  destruct (direct_message_shows_once sql_eq_num alice 2 (JStr "hi") w_two
              group_window group_window eq_refl eq_refl world_ok_w_two
              eq_refl Hconn ltac:(discriminate))
    as (msg & _ & Htheirs).
  exists msg. apply (Htheirs "h3"). vm_compute. reflexivity.
Defined.

Lemma group_by_date_partitions_witness :
  (forall m, In m ["Today"; "Jan 5"; "Today"] ->
             Client.inherited ((fun d : string => d) m) = false)
  /\ exists groups,
       Client.groupMessagesByDate (fun d : string => d)
         ["Today"; "Jan 5"; "Today"] = Some groups
       /\ NoDup (map fst groups).
Proof.
  assert (Hok : forall m, In m ["Today"; "Jan 5"; "Today"] ->
                          Client.inherited ((fun d : string => d) m) = false)
    by (intros m [<- | [<- | [<- | []]]]; reflexivity).
  split; [exact Hok|].
  destruct (group_by_date_partitions (fun d : string => d)
              ["Today"; "Jan 5"; "Today"] Hok) as (groups & Heq & Hnd & _).
  exists groups. split; [exact Heq | exact Hnd].
Defined.
